(** * Priority Pass lounge map generator: URL canonicalisation, link repair,
      extraction merge and aggregation

    A shallow embedding of [generate_priority_pass_map_v2.py] and the
    properties its specification states about it.

    Python [str] values are modelled as lists of 8-bit characters.  The
    character tests, the case conversions and the character classes of the
    regular expressions are Python's on ASCII text, and only there: Python
    also takes U+0085, U+00A0 and other code points as white space, has
    letters and digits above 127 and changes their case ([ß] becomes [SS]),
    which lists of 8-bit characters cannot follow.  A statement whose truth
    depends on what these operations do above 127 is therefore made for
    ASCII text ([ascii_text] below).  A Python function that may raise
    returns a [result]: [Ok v] for a normal return and [Raise e] for an
    exception.

    The functions of the standard library that the script calls
    ([str] methods, [urllib.parse.urlparse], [urllib.parse.urlunparse],
    the regular expressions of [re]) are written out in the modules [Py],
    [UrlLib] and [Re], after CPython 3.11. *)

From Stdlib Require Import Ascii String ZArith QArith Lia.
From stdpp Require Import base option list gmap strings sorting.

Close Scope Q_scope.

Set Default Proof Using "Type".

Abbreviation str := (list ascii) (only parsing).

(** A string literal of the source. *)
Definition lit (s : string) : list ascii := list_ascii_of_string s.

(** ** Exceptions *)

Inductive exn : Type :=
  | ValueError
  | IndexError
  | RuntimeError (msg : string)
  | RequestException.

Inductive result (A : Type) : Type :=
  | Ok (a : A)
  | Raise (e : exn).
Arguments Ok {A} a.
Arguments Raise {A} e.

#[global] Instance result_ret : MRet result := λ A a, Ok a.
#[global] Instance result_bind : MBind result := λ A B f m,
  match m with
  | Ok a => f a
  | Raise e => Raise e
  end.

(** ** Python built-ins on [str] and [list] *)

Module Py.

Definition code (c : ascii) : nat := nat_of_ascii c.

Definition between (lo hi : nat) (c : ascii) : bool :=
  (lo <=? code c) && (code c <=? hi).

Definition isascii (c : ascii) : bool := code c <? 128.
Definition isupper (c : ascii) : bool := between 65 90 c.
Definition islower (c : ascii) : bool := between 97 122 c.
Definition isalpha (c : ascii) : bool := isupper c || islower c.
Definition isdigit (c : ascii) : bool := between 48 57 c.

(** [str.isspace] on one ASCII character: TAB, LF, VT, FF, CR, FS, GS, RS,
    US and the space.  Above 127 the answer is [false], which is not
    Python's for U+0085 and U+00A0: [strip], [split_first_word] and the
    other functions built on this test are Python's on ASCII text. *)
Definition isspace (c : ascii) : bool := between 9 13 c || between 28 32 c.

(** [c.lower()] and [c.upper()] on one ASCII character.  A character above
    127 is left as it is, which is not Python's for the cased letters there
    ([è] becomes [È], [ß] becomes [SS]): [lower] and [upper] are Python's on
    ASCII text. *)
Definition lower_char (c : ascii) : ascii :=
  if isupper c then ascii_of_nat (code c + 32) else c.
Definition upper_char (c : ascii) : ascii :=
  if islower c then ascii_of_nat (code c - 32) else c.

(** [s.lower()] and [s.upper()] *)
Definition lower (s : str) : str := map lower_char s.
Definition upper (s : str) : str := map upper_char s.

(** [c in chars] for a character [c] *)
Definition char_in (chars : str) (c : ascii) : bool := bool_decide (c ∈ chars).

(** [s.lstrip(...)], [s.rstrip(...)], [s.strip(...)]: the characters to
    remove are given by a test. *)
Fixpoint lstrip_by (p : ascii → bool) (s : str) : str :=
  match s with
  | c :: s' => if p c then lstrip_by p s' else s
  | [] => []
  end.
Definition rstrip_by (p : ascii → bool) (s : str) : str :=
  reverse (lstrip_by p (reverse s)).
Definition strip_by (p : ascii → bool) (s : str) : str :=
  rstrip_by p (lstrip_by p s).

(** [s.strip()] *)
Definition strip (s : str) : str := strip_by isspace s.
(** [s.strip(chars)], [s.lstrip(chars)], [s.rstrip(chars)] *)
Definition strip_chars (chars s : str) : str := strip_by (char_in chars) s.
Definition lstrip_chars (chars s : str) : str := lstrip_by (char_in chars) s.
Definition rstrip_chars (chars s : str) : str := rstrip_by (char_in chars) s.

(** [s.startswith(prefix)] *)
Fixpoint startswith (s prefix : str) {struct prefix} : bool :=
  match prefix, s with
  | [], _ => true
  | p :: prefix', c :: s' => bool_decide (c = p) && startswith s' prefix'
  | _ :: _, [] => false
  end.

(** [sub in s] *)
Fixpoint contains (s sub : str) : bool :=
  startswith s sub ||
  match s with
  | [] => false
  | _ :: s' => contains s' sub
  end.

(** [s.find(c)] for a single character: the index of its first
    occurrence, [None] standing for Python's -1. *)
Fixpoint find (s : str) (c : ascii) : option nat :=
  match s with
  | [] => None
  | x :: s' => if bool_decide (x = c) then Some 0 else S <$> find s' c
  end.

(** [s.find(c, start)] *)
Definition find_from (s : str) (c : ascii) (start : nat) : option nat :=
  (λ i, start + i) <$> find (drop start s) c.

(** [s.rfind(c)] *)
Fixpoint rfind (s : str) (c : ascii) : option nat :=
  match s with
  | [] => None
  | x :: s' =>
      match rfind s' c with
      | Some i => Some (S i)
      | None => if bool_decide (x = c) then Some 0 else None
      end
  end.

(** [s.replace(c, "")] for a single character *)
Definition remove_char (c : ascii) (s : str) : str :=
  filter (λ x, x ≠ c) s.

(** [s.split(sep)] for a single-character separator: never empty. *)
Fixpoint split (s : str) (sep : ascii) : list str :=
  match s with
  | [] => [[]]
  | c :: s' =>
      if bool_decide (c = sep) then [] :: split s' sep
      else match split s' sep with
           | h :: t => (c :: h) :: t
           | [] => [[c]]
           end
  end.

(** [s.split(sep, 1)] when [sep in s]: the text before the first
    separator and the text after it. *)
Definition split_once (s : str) (sep : ascii) : str * str :=
  match find s sep with
  | Some i => (take i s, drop (S i) s)
  | None => (s, [])
  end.

(** [sep.join(parts)] *)
Fixpoint join (sep : str) (parts : list str) : str :=
  match parts with
  | [] => []
  | [p] => p
  | p :: rest => p ++ sep ++ join sep rest
  end.

(** [bool(s)] for a string or a list *)
Definition truthy {A} (l : list A) : bool :=
  match l with [] => false | _ => true end.

(** [l[i]] with Python's negative indices; out of range raises. *)
Definition getitem {A} (l : list A) (i : Z) : result A :=
  let n := Z.of_nat (length l) in
  let j := (if i <? 0 then n + i else i)%Z in
  if (j <? 0)%Z then Raise IndexError
  else match l !! Z.to_nat j with
       | Some x => Ok x
       | None => Raise IndexError
       end.

(** [x or y] on strings *)
Definition or_else (x y : str) : str := if truthy x then x else y.



(** [s.count(c)] for a single character *)
Definition count_char (s : str) (c : ascii) : nat :=
  length (filter (λ x, x = c) s).

(** [s.endswith(c)] for a single character *)
Definition endswith_char (s : str) (c : ascii) : bool :=
  bool_decide (last s = Some c).

(** The first word of [s.split(maxsplit=1)], after the white space in front
    has been passed, and the text that follows the word *)
Fixpoint take_word (s : str) : str * str :=
  match s with
  | [] => ([], [])
  | c :: s' =>
      if isspace c then ([], s)
      else let '(word, rest) := take_word s' in (c :: word, rest)
  end.

(** [s.split(maxsplit=1)] on ASCII text: no part for a blank text, else the
    first word, and the rest of the text from its first character that is
    not white space, when there is one. *)
Definition split_first_word (s : str) : list str :=
  match lstrip_by isspace s with
  | [] => []
  | s1 =>
      let '(word, rest) := take_word s1 in
      match lstrip_by isspace rest with
      | [] => [word]
      | rest' => [word; rest']
      end
  end.

(** [s <= t] on strings: the order of the code points, the shorter first *)
Fixpoint str_leb (s t : str) : bool :=
  match s, t with
  | [], _ => true
  | _ :: _, [] => false
  | a :: s', b :: t' =>
      if code a <? code b then true
      else if code b <? code a then false
      else str_leb s' t'
  end.

(** [sorted(l)] for a list of strings *)
Definition sorted (l : list str) : list str :=
  merge_sort (λ s t, Is_true (str_leb s t)) l.

End Py.

(** ** [urllib.parse] *)

(** The two checks of [urlsplit] that call into other libraries are taken as
    given tests: [bracketed_netloc_ok netloc] says that the validation of a
    bracketed host (module [ipaddress]) accepts [netloc], and
    [nfkc_netloc_ok netloc] that a non-ASCII [netloc] passes the NFKC test
    of [_checknetloc] (module [unicodedata]). *)
Class UrlChecks : Type := {
  bracketed_netloc_ok : str → bool;
  nfkc_netloc_ok : str → bool
}.

Module UrlLib.

Record ParseResult : Type := mkParseResult {
  scheme : str;
  netloc : str;
  path : str;
  params : str;
  query : str;
  fragment : str
}.

Definition uses_netloc : list str :=
  lit <$> [""; "ftp"; "http"; "gopher"; "nntp"; "telnet"; "imap"; "wais";
           "file"; "mms"; "https"; "shttp"; "snews"; "prospero"; "rtsp";
           "rtspu"; "rsync"; "svn"; "svn+ssh"; "sftp"; "nfs"; "git";
           "git+ssh"; "ws"; "wss"]%string.

Definition uses_params : list str :=
  lit <$> [""; "ftp"; "hdl"; "prospero"; "http"; "imap"; "https"; "shttp";
           "rtsp"; "rtspu"; "sip"; "sips"; "mms"; "sftp"; "tel"]%string.

Definition scheme_chars : str :=
  lit "abcdefghijklmnopqrstuvwxyzABCDEFGHIJKLMNOPQRSTUVWXYZ0123456789+-.".

(** [_WHATWG_C0_CONTROL_OR_SPACE]: the characters 0 to 32 *)
Definition c0_control_or_space (c : ascii) : bool := Py.code c <=? 32.

(** [_UNSAFE_URL_BYTES_TO_REMOVE]: TAB, CR, LF *)
Definition unsafe_url_bytes : str :=
  [ascii_of_nat 9; ascii_of_nat 13; ascii_of_nat 10].

Definition remove_unsafe (url : str) : str :=
  foldl (λ u b, Py.remove_char b u) url unsafe_url_bytes.

(** [_splitparams] *)
Definition splitparams (url : str) : str * str :=
  if Py.char_in url "/" then
    match Py.find_from url ";" (default 0 (Py.rfind url "/")) with
    | None => (url, [])
    | Some i => (take i url, drop (S i) url)
    end
  else
    match Py.find url ";" with
    | Some i => (take i url, drop (S i) url)
    | None => (take (length url - 1) url, url)
    end.

(** [_splitnetloc] *)
Definition splitnetloc (url : str) (start : nat) : str * str :=
  let delim :=
    foldl (λ delim c,
             match Py.find_from url c start with
             | Some wdelim => delim `min` wdelim
             | None => delim
             end) (length url) (lit "/?#") in
  (drop start (take delim url), drop delim url).

(** The scheme step of [urlsplit]: [(scheme, rest)] *)
Definition split_scheme (url : str) : str * str :=
  match Py.find url ":", url with
  | Some i, c0 :: _ =>
      if (0 <? i) && Py.isascii c0 && Py.isalpha c0
         && forallb (Py.char_in scheme_chars) (take i url)
      then (Py.lower (take i url), drop (S i) url)
      else ([], url)
  | _, _ => ([], url)
  end.

(** [_checknetloc] returns without raising *)
Definition checknetloc `{UrlChecks} (netloc : str) : bool :=
  negb (Py.truthy netloc) || forallb Py.isascii netloc || nfkc_netloc_ok netloc.

(** The authority step of [urlsplit]: [(netloc, rest)], or [ValueError] *)
Definition split_authority `{UrlChecks} (url : str) : result (str * str) :=
  if bool_decide (take 2 url = lit "//") then
    let '(netloc, url) := splitnetloc url 2 in
    let has_open := Py.char_in netloc "[" in
    let has_close := Py.char_in netloc "]" in
    if (has_open && negb has_close) || (has_close && negb has_open)
    then Raise ValueError
    else if has_open && has_close && negb (bracketed_netloc_ok netloc)
    then Raise ValueError
    else Ok (netloc, url)
  else Ok ([], url).

(** [urlsplit(url)]: scheme, netloc, path, query, fragment *)
Definition urlsplit `{UrlChecks} (url : str)
  : result (str * str * str * str * str) :=
  let url := Py.lstrip_by c0_control_or_space url in
  let url := remove_unsafe url in
  let '(scheme, url) := split_scheme url in
  '(netloc, url) ← split_authority url;
  let '(url, fragment) :=
    if Py.char_in url "#" then Py.split_once url "#" else (url, []) in
  let '(url, query) :=
    if Py.char_in url "?" then Py.split_once url "?" else (url, []) in
  if checknetloc netloc
  then Ok (scheme, netloc, url, query, fragment)
  else Raise ValueError.

(** [urlparse(url)] *)
Definition urlparse `{UrlChecks} (url : str) : result ParseResult :=
  '(scheme, netloc, url, query, fragment) ← urlsplit url;
  let '(url, params) :=
    if bool_decide (scheme ∈ uses_params) && Py.char_in url ";"
    then splitparams url else (url, []) in
  Ok (mkParseResult scheme netloc url params query fragment).

(** [urlunsplit((scheme, netloc, url, query, fragment))] *)
Definition urlunsplit (scheme netloc url query fragment : str) : str :=
  let url :=
    if Py.truthy netloc
       || (Py.truthy scheme && bool_decide (scheme ∈ uses_netloc)
           && negb (bool_decide (take 2 url = lit "//")))
    then
      let url :=
        if Py.truthy url && negb (bool_decide (take 1 url = lit "/"))
        then lit "/" ++ url else url in
      lit "//" ++ netloc ++ url
    else url in
  let url := if Py.truthy scheme then scheme ++ lit ":" ++ url else url in
  let url := if Py.truthy query then url ++ lit "?" ++ query else url in
  if Py.truthy fragment then url ++ lit "#" ++ fragment else url.

(** [urlunparse((scheme, netloc, url, params, query, fragment))] *)
Definition urlunparse (scheme netloc url params query fragment : str) : str :=
  let url := if Py.truthy params then url ++ lit ";" ++ params else url in
  urlunsplit scheme netloc url query fragment.

End UrlLib.

(** The checks of a CPython before 3.11.4, which does not validate a
    bracketed host; the NFKC test is taken to pass.  The concrete runs of
    this file use inputs without bracket and without non-ASCII character,
    on which [urlsplit] consults neither check. *)
#[global] Instance lenient_checks : UrlChecks :=
  {| bracketed_netloc_ok := λ _, true; nfkc_netloc_ok := λ _, true |}.


(** ** The script: URL canonicaliser, classifier and link repairer *)

Definition BASE_URL : str := lit "https://www.prioritypass.com".
Definition MY_PP_BASE : str := lit "https://my.prioritypass.com".
Definition MY_PP_LANG_PREFIX : str := lit "/en-GB".

(** The comprehension [[p for p in path.strip("/").split("/") if p]], which
    the script writes out in each function that looks at path segments. *)
Definition path_parts (path : str) : list str :=
  filter (λ p, p ≠ []) (Py.split (Py.strip_chars (lit "/") path) "/").

Section Script.
Context `{!UrlChecks}.

(** [(url_or_path or "").strip()] is Python's on ASCII text. *)
Definition to_my_prioritypass_url (url_or_path : str) : result str :=
  let raw := Py.strip url_or_path in
  if negb (Py.truthy raw) then Ok raw
  else
    parsed ← UrlLib.urlparse raw;
    let path :=
      if Py.truthy (UrlLib.netloc parsed) then UrlLib.path parsed else raw in
    let path :=
      if negb (Py.startswith path (lit "/")) then lit "/" ++ path else path in
    let path :=
      if Py.startswith path (lit "/lounges/") then MY_PP_LANG_PREFIX ++ path
      else path in
    Ok (UrlLib.urlunparse (lit "https") (lit "my.prioritypass.com") path
          [] [] []).

(** In the conditions below [parts !! i = Some s] renders [parts[i] == s]
    behind the length test that guards it. *)
Definition is_lounge_detail_url (url : str) : result bool :=
  if negb (Py.truthy url) then Ok false
  else
    parsed ← UrlLib.urlparse url;
    let parts := path_parts (UrlLib.path parsed) in
    if (5 <=? length parts)
       && bool_decide (Py.lower <$> parts !! 0 = Some (lit "en-gb"))
       && bool_decide (parts !! 1 = Some (lit "lounges"))
    then Ok true
    else if (4 <=? length parts)
            && bool_decide (parts !! 0 = Some (lit "lounges"))
    then Ok true
    else Ok false.

Definition repair_duplicated_airport_segment (url : str) : result str :=
  parsed ← UrlLib.urlparse url;
  let path := UrlLib.path parsed in
  let raw_parts := path_parts path in
  let rebuild (fixed_parts : list str) : str :=
    let fixed_path := lit "/" ++ Py.join (lit "/") fixed_parts in
    UrlLib.urlunparse
      (Py.or_else (UrlLib.scheme parsed) (lit "https"))
      (Py.or_else (UrlLib.netloc parsed) (lit "my.prioritypass.com"))
      fixed_path [] [] [] in
  if (6 <=? length raw_parts)
     && bool_decide (Py.lower <$> raw_parts !! 0 = Some (lit "en-gb"))
     && bool_decide (raw_parts !! 1 = Some (lit "lounges"))
  then Ok (rebuild (take 3 raw_parts ++ drop 4 raw_parts))
  else if (5 <=? length raw_parts)
          && bool_decide (raw_parts !! 0 = Some (lit "lounges"))
  then Ok (rebuild (take 2 raw_parts ++ drop 3 raw_parts))
  else Ok url.

(** The f-string ["/en-GB/lounges/{country}/{airport}/{detail}"] *)
Definition detail_path (country airport detail : str) : str :=
  lit "/en-GB/lounges/" ++ country ++ lit "/" ++ airport ++ lit "/" ++ detail.

(** One [rebuilt = ...; if is_lounge_detail_url(rebuilt): return rebuilt]
    step: [Some rebuilt] when the function returns there. *)
Definition rebuild_if_detail (country airport detail : str)
  : result (option str) :=
  rebuilt ← to_my_prioritypass_url (detail_path country airport detail);
  ok ← is_lounge_detail_url rebuilt;
  Ok (if (ok : bool) then Some rebuilt else None).

(** The two attempts of [try_recover_detail_url_from_redirect], which come
    after its test on the length of the original: they read the last two
    segments of the original and the segments of the redirect. *)
Definition recover_from_parts (detail_slug original_airport : str)
    (r_parts : list str) : result (option str) :=
  let prefixed :=
    bool_decide (Py.lower <$> r_parts !! 0 = Some (lit "en-gb"))
    && bool_decide (r_parts !! 1 = Some (lit "lounges")) in
  (* redirected airport page (preferred) *)
  first ←
    (if (4 <=? length r_parts) && prefixed then
       country_slug ← Py.getitem r_parts 2;
       airport_slug ← Py.getitem r_parts 3;
       rebuild_if_detail country_slug airport_slug detail_slug
     else Ok None);
  match first with
  | Some rebuilt => Ok (Some rebuilt)
  | None =>
      (* redirected country page -> reuse original airport slug *)
      if (length r_parts =? 3) && prefixed then
        country_slug ← Py.getitem r_parts 2;
        rebuild_if_detail country_slug original_airport detail_slug
      else Ok None
  end.

Definition try_recover_detail_url_from_redirect
    (original_url redirected_url : str) : result (option str) :=
  o ← UrlLib.urlparse original_url;
  let o_parts := path_parts (UrlLib.path o) in
  r ← UrlLib.urlparse redirected_url;
  let r_parts := path_parts (UrlLib.path r) in
  if length o_parts <? 5 then Ok None
  else
    detail_slug ← Py.getitem o_parts (-1);
    original_airport ← Py.getitem o_parts (-2);
    recover_from_parts detail_slug original_airport r_parts.

(** What the script reads of a [requests.Response] *)
Record Response : Type := mkResponse {
  resp_url : str;
  status_code : Z;
  text : str
}.

(** [session.get(url, timeout=..., allow_redirects=True)] is given: it
    returns a response or raises. *)
Definition check_url_ok (session_get : str → result Response) (url : str)
  : result (bool * str) :=
  detail ← is_lounge_detail_url url;
  if negb detail then Ok (false, url)
  else
    response ← session_get url;
    detail' ← is_lounge_detail_url (resp_url response);
    if negb detail' then Ok (false, resp_url response)
    else
      let html_head := Py.lower (take 2500 (Py.or_else (text response) [])) in
      let looks_not_found :=
        Py.contains html_head (lit "page not found")
        || (Py.contains html_head (lit "404")
            && negb (Py.contains html_head (lit "lounge"))) in
      let ok := (status_code response <? 400)%Z && negb looks_not_found in
      Ok (ok, resp_url response).

End Script.


(** ** Regular expressions of the script *)

Module Re.

(** [\w] and [\s] on one ASCII character.  Above 127 the answer is [false],
    which is not Python's for the letters and digits there: the patterns
    below, with their [\b], are Python's on ASCII text. *)
Definition is_word (c : ascii) : bool :=
  Py.isalpha c || Py.isdigit c || bool_decide (c = "_"%char).
Definition is_space (c : ascii) : bool := Py.isspace c.

Definition word_at (c : option ascii) : bool :=
  match c with Some x => is_word x | None => false end.

(** [\b] between the character before the position ([None] at the start
    of the text) and the character after it ([None] at the end) *)
Definition boundary (prev next : option ascii) : bool :=
  xorb (word_at prev) (word_at next).

(** [([A-Z]{3})] at the head of [s]: the group and the rest *)
Definition upper3 (s : str) : option (str * str) :=
  match s with
  | a :: b :: c :: rest =>
      if Py.isupper a && Py.isupper b && Py.isupper c
      then Some ([a; b; c], rest) else None
  | _ => None
  end.

(** [re.fullmatch(r"[A-Z]{3}", s)] succeeds *)
Definition fullmatch_iata (s : str) : bool :=
  bool_decide (upper3 s = Some (s, [])).

(** [re.match(r"([A-Z]{3})", s)]: group 1 *)
Definition match_iata (s : str) : option str := fst <$> upper3 s.

(** [\b([A-Z]{3})\s+Lounges\b] matched at the head of [s], [prev] being
    the character before it: group 1.  After the three letters, [\s+]
    takes the whole run of white space, since [Lounges] has to start at a
    character that is not white space. *)
Definition title_here (prev : option ascii) (s : str) : option str :=
  match upper3 s with
  | Some (group, rest) =>
      let after_space := Py.lstrip_by is_space rest in
      if boundary prev (head s)
         && (length after_space <? length rest)
         && Py.startswith after_space (lit "Lounges")
         && boundary (Some "s"%char) (head (drop 7 after_space))
      then Some group else None
  | None => None
  end.

Fixpoint search_title_from (prev : option ascii) (s : str) : option str :=
  match title_here prev s with
  | Some group => Some group
  | None =>
      match s with
      | [] => None
      | c :: s' => search_title_from (Some c) s'
      end
  end.

(** [re.search(r"\b([A-Z]{3})\s+Lounges\b", s)]: group 1 of the leftmost
    match *)
Definition search_title (s : str) : option str := search_title_from None s.

(** [\b([A-Z]{3})\b] matched at the head of [s] *)
Definition token_here (prev : option ascii) (s : str) : option str :=
  match upper3 s with
  | Some (group, rest) =>
      if boundary prev (head s) && boundary (last group) (head rest)
      then Some group else None
  | None => None
  end.

(** The scan of [findall]: [skip] counts the characters of the last match
    that are still to be passed over. *)
Fixpoint findall_tokens_from (skip : nat) (prev : option ascii) (s : str)
  : list str :=
  match s with
  | [] => []
  | c :: s' =>
      match skip with
      | S k => findall_tokens_from k (Some c) s'
      | O =>
          match token_here prev s with
          | Some group => group :: findall_tokens_from 2 (Some c) s'
          | None => findall_tokens_from 0 (Some c) s'
          end
      end
  end.

(** [re.findall(r"\b([A-Z]{3})\b", s)] *)
Definition findall_tokens (s : str) : list str := findall_tokens_from 0 None s.

End Re.

(** ** The script: page extraction *)

(** An item dictionary built by the two extraction passes *)
Record Item : Type := mkItem {
  airport_url : str;
  airport_slug : str;
  country_slug : str;
  airport_name_pp : str;
  airport_title : str;
  experience_type : str;
  experience_name : str;
  experience_detail_url : str;
  experience_detail_slug : str;
  iata_from_code : option str;
  iata_from_title : option str
}.

Definition LOUNGE : str := lit "LOUNGE".

(** The loops [if item_type == "LOUNGE": lounge_items.append(item) else:
    non_lounge_items.append(item)] of [parse_airport_page] *)
Definition append_by_type (acc : list Item * list Item) (items : list Item)
  : list Item * list Item :=
  foldl (λ '(lounge_items, non_lounge_items) item,
           if bool_decide (experience_type item = LOUNGE)
           then (lounge_items ++ [item], non_lounge_items)
           else (lounge_items, non_lounge_items ++ [item]))
        acc items.

(** The key of an item in [dedupe] *)
Definition item_key (it : Item) : str * str :=
  (experience_type it, experience_detail_slug it).

(** One turn of the loop of [dedupe], on the state [(seen, merged)] *)
Definition dedupe_step (state : gset (str * str) * list Item) (it : Item)
  : gset (str * str) * list Item :=
  let '(seen, merged) := state in
  let key := item_key it in
  if bool_decide (key ∈ seen) then (seen, merged)
  else ({[key]} ∪ seen, merged ++ [it]).

Definition dedupe (items : list Item) : list Item :=
  (foldl dedupe_step (∅, []) items).2.

(** The merge of the anchor pass and the embedded-payload pass in
    [parse_airport_page]: [(lounge_items, non_lounge_items)] *)
Definition merge_extracted (anchor_items embedded_items : list Item)
  : list Item * list Item :=
  let '(lounge_items, non_lounge_items) :=
    append_by_type (append_by_type ([], []) anchor_items) embedded_items in
  (dedupe lounge_items, dedupe non_lounge_items).

(** [text.upper()] and the [\b] of the pattern are Python's on ASCII
    text. *)
Definition extract_iata_candidates (text : str) : list str :=
  if negb (Py.truthy text) then []
  else
    let candidates := Re.findall_tokens (Py.upper text) in
    (foldl (λ '(seen, ordered) code,
              if bool_decide (code ∈ (seen : gset str)) then (seen, ordered)
              else ({[code]} ∪ seen, ordered ++ [code]))
           (∅, []) candidates).2.

(** [iata_from_title] of [parse_airport_page] *)
Definition title_marker_iata (title : str) : option str :=
  Re.search_title (Py.upper title).

(** Truth value of an optional string: [None] and [""] are false. *)
Definition truthy_opt (o : option str) : bool :=
  match o with Some s => Py.truthy s | None => false end.

(** The resolution of [airport_iata] in [parse_airport_page], from the
    deduplicated lounge items, [iata_from_title] and the title *)
Definition pick_airport_iata (lounge_items : list Item)
    (iata_from_title : option str) (title : str) : option str :=
  let from_items :=
    omap (λ it, if truthy_opt (iata_from_code it) then iata_from_code it
                else None) lounge_items in
  let from_marker :=
    if truthy_opt iata_from_title then option_list iata_from_title else [] in
  let all_iata_candidates :=
    from_items ++ from_marker ++ extract_iata_candidates title in
  snd <$> list_find (λ c, Re.fullmatch_iata c = true) all_iata_candidates.

Definition airport_iata_of (lounge_items : list Item) (title : str)
  : option str :=
  pick_airport_iata lounge_items (title_marker_iata title) title.

(** ** The script: the pipeline *)

(** The dictionary returned by [parse_airport_page] *)
Record PageResult : Type := mkPageResult {
  page_url : str;
  page_airport_slug : str;
  page_country_slug : str;
  page_airport_name_pp : str;
  page_airport_title : str;
  page_airport_iata : option str;
  page_lounge_count : nat;
  page_non_lounge_count : nat;
  page_all_experience_count : nat;
  page_lounge_items : list Item;
  page_non_lounge_items : list Item
}.

(** A row of [airport_summaries] *)
Record Summary : Type := mkSummary {
  sum_airport_url : str;
  sum_airport_slug : str;
  sum_country_slug : str;
  sum_airport_name_pp : str;
  sum_airport_title : str;
  sum_airport_iata : option str;
  sum_lounge_count : nat;
  sum_non_lounge_count : nat;
  sum_all_experience_count : nat;
  sum_error : option exn
}.

Definition summary_of_page (r : PageResult) : Summary :=
  mkSummary (page_url r) (page_airport_slug r) (page_country_slug r)
    (page_airport_name_pp r) (page_airport_title r) (page_airport_iata r)
    (page_lounge_count r) (page_non_lounge_count r)
    (page_all_experience_count r) None.

Definition placeholder_summary (url : str) (err : exn) : Summary :=
  mkSummary url [] [] [] [] (Some []) 0 0 0 (Some err).

(** One turn of the loop over the completed futures of step 3: [url] is the
    page that was submitted and [outcome] what [fut.result()] gives. *)
Definition collect_page (state : list Summary * list Item)
    (done : str * result PageResult) : list Summary * list Item :=
  let '(airport_summaries, lounge_items_all) := state in
  let '(url, outcome) := done in
  match outcome with
  | Ok r =>
      (airport_summaries ++ [summary_of_page r],
       lounge_items_all ++ page_lounge_items r)
  | Raise err =>
      (airport_summaries ++ [placeholder_summary url err], lounge_items_all)
  end.

(** Step 3 of [run_pipeline] up to the emptiness test: the futures are given
    in the order in which they complete. *)
Definition scrape_airport_pages (completed : list (str * result PageResult))
  : result (list Summary * list Item) :=
  let '(airport_summaries, lounge_items_all) :=
    foldl collect_page ([], []) completed in
  if negb (Py.truthy lounge_items_all)
  then Raise (RuntimeError "No lounge records found. Scraper output is empty.")
  else Ok (airport_summaries, lounge_items_all).

(** A row of the world airports table; a missing coordinate is [None]. *)
Record Airport : Type := mkAirport {
  ident : str;
  name : str;
  latitude_deg : option Q;
  longitude_deg : option Q;
  iso_country : str;
  iata_code : str
}.

(** A row of [pp_lounges_df]: an item with its [iata_code] column *)
Record LoungeRow : Type := mkLoungeRow {
  row_item : Item;
  row_iata_code : str
}.

(** [pp_lounges_df.groupby("iata_code").agg(lounge_count=("experience_name",
    "count"))] as a table keyed by the code *)
Definition group_lounge_count (rows : list LoungeRow) : gmap (list ascii) nat :=
  foldr (λ row grouped,
           <[row_iata_code row := S (default 0 (grouped !! row_iata_code row))]>
             grouped)
        ∅ rows.

(** A row of [world_airports_enriched]: [None] is the missing value that the
    left join leaves for an airport without group. *)
Record Enriched : Type := mkEnriched {
  airport : Airport;
  lounge_count : option nat
}.

(** [world_airports_df.merge(pp_grouped, how="left", on="iata_code")] *)
Definition merge_left (world : list Airport) (grouped : gmap (list ascii) nat)
  : list Enriched :=
  (λ a, mkEnriched a (grouped !! iata_code a)) <$> world.

(** [lounge_count.fillna(0).astype(int) > 0] *)
Definition has_priority_lounge (e : Enriched) : bool :=
  0 <? default 0 (lounge_count e).

Definition notna {A} (cell : option A) : bool :=
  match cell with Some _ => true | None => false end.

(** The rows selected for the map *)
Definition select_map_rows (enriched : list Enriched) : list Enriched :=
  filter (λ e, has_priority_lounge e
               && notna (latitude_deg (airport e))
               && notna (longitude_deg (airport e)) = true) enriched.

(** Step 5 of [run_pipeline], repeated after the recheck: [map_df] *)
Definition build_map_df (world : list Airport) (rows : list LoungeRow)
  : list Enriched :=
  select_map_rows (merge_left world (group_lounge_count rows)).

(** ** The script: the other functions *)

(** The test on [href] in the loop of [parse_priority_pass_airport_links] *)
Definition is_airport_href (href : str) : bool :=
  Py.startswith href (lit "/lounges/")
  && (Py.count_char href "/" =? 3)
  && negb (Py.endswith_char href "/").


(** [detail_url.rstrip("/").split("/")[-1]]: the list that [split] returns
    is never empty. *)
Definition detail_slug_of (detail_url : str) : str :=
  default [] (last (Py.split (Py.rstrip_chars (lit "/") detail_url) "/")).

(** [iata_from_code] of the anchor pass, from the detail slug; the
    [upper()] is Python's on an ASCII slug. *)
Definition iata_from_slug (detail_slug : str) : option str :=
  let code_prefix := Py.upper (default [] (head (Py.split detail_slug "-"))) in
  Re.match_iata code_prefix.

Definition EXPERIENCE_TYPES : list str :=
  [lit "LOUNGE"; lit "DINING"; lit "RELAX"].

(** The page data that the anchor loop of [parse_airport_page] copies into
    every item *)
Record PageContext : Type := mkPageContext {
  ctx_airport_url : str;
  ctx_airport_slug : str;
  ctx_country_slug : str;
  ctx_airport_name : str;
  ctx_title : str;
  ctx_iata_from_title : option str
}.

Section ScriptMore.
Context `{!UrlChecks}.

(** [return candidate if is_lounge_detail_url(candidate) else None] *)
Definition detail_or_none (candidate : str) : result (option str) :=
  ok ← is_lounge_detail_url candidate;
  Ok (if (ok : bool) then Some candidate else None).

Definition normalize_lounge_detail_url (country_slug href : str)
  : result (option str) :=
  if negb (Py.truthy href) then Ok None
  else
    let href := Py.strip href in
    if negb (Py.truthy href) || Py.startswith href (lit "#") then Ok None
    else if Py.startswith href (lit "http://")
            || Py.startswith href (lit "https://")
    then candidate ← to_my_prioritypass_url href; detail_or_none candidate
    else if Py.startswith href (lit "/")
    then candidate ← to_my_prioritypass_url href; detail_or_none candidate
    else if negb (Py.truthy country_slug) then Ok None
    else
      (* Common card link is "<canonical-airport-slug>/<detail-slug>" *)
      candidate ← to_my_prioritypass_url
                    (lit "/lounges/" ++ country_slug ++ lit "/"
                       ++ Py.lstrip_chars (lit "/") href);
      detail_or_none candidate.

(** One turn of the anchor loop of [parse_airport_page]: [href] is the
    attribute of the anchor and [strings] the text of its
    [stripped_strings] joined by spaces.  [None] stands for [continue]. *)
Definition anchor_item (ctx : PageContext) (href strings : str)
  : result (option Item) :=
  let href := Py.strip href in
  let link_text := Py.strip strings in
  if negb (Py.truthy href) || negb (Py.truthy link_text) then Ok None
  else
    let parts := Py.split_first_word link_text in
    first ← Py.getitem parts 0;
    let item_type := Py.upper first in
    if negb (bool_decide (item_type ∈ EXPERIENCE_TYPES)) then Ok None
    else
      item_name ← (if 1 <? length parts then Py.getitem parts 1
                   else Py.getitem parts 0);
      detail_url ← normalize_lounge_detail_url (ctx_country_slug ctx) href;
      match detail_url with
      | None => Ok None
      | Some detail_url =>
          if negb (Py.truthy detail_url) then Ok None
          else
            let detail_slug := detail_slug_of detail_url in
            Ok (Some (mkItem (ctx_airport_url ctx) (ctx_airport_slug ctx)
                        (ctx_country_slug ctx) (ctx_airport_name ctx)
                        (ctx_title ctx) item_type item_name detail_url
                        detail_slug (iata_from_slug detail_slug)
                        (ctx_iata_from_title ctx)))
      end.

(** [recheck_and_fix] tries up to four candidates in turn: the URL itself
    (0), the URL recovered from its redirect (1), the repaired URL (2) and
    the URL recovered from the redirect of the repaired one (3).  It calls
    [check_url_ok] at most once per candidate, so that the session sends at
    most one request per candidate: [session_get k] is the answer that the
    request for candidate [k] gets. *)

(** The part of [recheck_and_fix] from [repaired = ...] on *)
Definition recheck_repaired (session_get : nat → str → result Response)
    (url : str) : result str :=
  repaired ← repair_duplicated_airport_segment url;
  if bool_decide (repaired ≠ url) then
    '(ok2, resolved2) ← check_url_ok (session_get 2) repaired;
    if (ok2 : bool) then to_my_prioritypass_url resolved2
    else
      recovered2 ← try_recover_detail_url_from_redirect repaired resolved2;
      if truthy_opt recovered2 then
        '(ok3, resolved3) ←
          check_url_ok (session_get 3) (default [] recovered2);
        if (ok3 : bool) then to_my_prioritypass_url resolved3 else Ok []
      else Ok []
  else Ok [].

(** The body of the [try] of [recheck_and_fix] *)
Definition recheck_and_fix_try (session_get : nat → str → result Response)
    (url : str) : result str :=
  detail ← is_lounge_detail_url url;
  if negb detail then Ok []
  else
    '(ok, resolved) ← check_url_ok (session_get 0) url;
    if (ok : bool) then to_my_prioritypass_url resolved
    else
      recovered ← try_recover_detail_url_from_redirect url resolved;
      if truthy_opt recovered then
        '(ok_rec, resolved_rec) ←
          check_url_ok (session_get 1) (default [] recovered);
        if (ok_rec : bool) then to_my_prioritypass_url resolved_rec
        else recheck_repaired session_get url
      else recheck_repaired session_get url.

(** [recheck_and_fix] of [run_pipeline]: [except Exception: return ""] *)
Definition recheck_and_fix (session_get : nat → str → result Response)
    (url : str) : str :=
  match recheck_and_fix_try session_get url with
  | Ok fixed => fixed
  | Raise _ => []
  end.

(** The part of [fetch_lounge_image] from [repaired = ...] on, after the
    first check has ended at [resolved_url] without success:
    [(ok, resolved_url)] *)
Definition fetch_repaired (session_get : nat → str → result Response)
    (lounge_url resolved_url : str) : result (bool * str) :=
  repaired ← repair_duplicated_airport_segment lounge_url;
  if bool_decide (repaired ≠ lounge_url) then
    '(ok2, resolved2) ← check_url_ok (session_get 2) repaired;
    if (ok2 : bool) then Ok (true, resolved2)
    else
      recovered2 ← try_recover_detail_url_from_redirect repaired resolved2;
      if truthy_opt recovered2 then
        '(ok3, resolved3) ←
          check_url_ok (session_get 3) (default [] recovered2);
        if (ok3 : bool) then Ok (true, resolved3) else Ok (false, resolved_url)
      else Ok (false, resolved_url)
  else Ok (false, resolved_url).

(** The candidates of [fetch_lounge_image], up to the test [if not ok] that
    ends them: [(ok, resolved_url)].  The candidates and their requests are
    numbered as in [recheck_and_fix]. *)
Definition fetch_resolve (session_get : nat → str → result Response)
    (lounge_url : str) : result (bool * str) :=
  '(ok, resolved_url) ← check_url_ok (session_get 0) lounge_url;
  if (ok : bool) then Ok (true, resolved_url)
  else
    recovered ← try_recover_detail_url_from_redirect lounge_url resolved_url;
    if truthy_opt recovered then
      '(ok_rec, resolved_rec) ←
        check_url_ok (session_get 1) (default [] recovered);
      if (ok_rec : bool) then Ok (true, resolved_rec)
      else fetch_repaired session_get lounge_url resolved_url
    else fetch_repaired session_get lounge_url resolved_url.

(** [iata_code] of a row of [pp_lounges_df]:
    [iata_from_code.fillna(iata_from_title).fillna("")], then [upper] and
    [strip] *)
Definition lounge_iata_code (it : Item) : str :=
  let filled :=
    match iata_from_code it with
    | Some code => code
    | None => default [] (iata_from_title it)
    end in
  Py.strip (Py.upper filled).

(** [series.map(is_lounge_detail_url)] as a row filter: an exception of one
    call ends the run. *)
Fixpoint keep_detail_rows (rows : list LoungeRow) : result (list LoungeRow) :=
  match rows with
  | [] => Ok []
  | row :: rest =>
      detail ← is_lounge_detail_url (experience_detail_url (row_item row));
      kept ← keep_detail_rows rest;
      Ok (if (detail : bool) then row :: kept else kept)
  end.

(** The lounge table of step 3 of [run_pipeline], after the emptiness test:
    only LOUNGE, only well-formed codes, only detail URLs *)
Definition lounge_table (lounge_items_all : list Item)
  : result (list LoungeRow) :=
  let lounges :=
    filter (λ it, experience_type it = LOUNGE) lounge_items_all in
  let rows := (λ it, mkLoungeRow it (lounge_iata_code it)) <$> lounges in
  let rows :=
    filter (λ row, Re.fullmatch_iata (row_iata_code row) = true) rows in
  keep_detail_rows rows.

(** A row with another detail URL *)
Definition with_detail_url (row : LoungeRow) (url : str) : LoungeRow :=
  let it := row_item row in
  mkLoungeRow
    (mkItem (airport_url it) (airport_slug it) (country_slug it)
       (airport_name_pp it) (airport_title it) (experience_type it)
       (experience_name it) url (experience_detail_slug it)
       (iata_from_code it) (iata_from_title it))
    (row_iata_code row).

(** Step 6 of [run_pipeline]: the URLs of the lounges of the map pins are
    rechecked, each once, every row takes the URL that [recheck_lookup] has
    for its own, [""] when it has none, and the rows with [""] are dropped.
    [session_get u] gives the answers to the requests of the task that
    rechecks [u]. *)
Definition recheck_rows (session_get : str → nat → str → result Response)
    (map_df : list Enriched) (rows : list LoungeRow) : list LoungeRow :=
  let map_iatas : gset (list ascii) :=
    list_to_set ((λ e, iata_code (airport e)) <$> map_df) in
  let map_lounges :=
    filter (λ row, row_iata_code row ∈ map_iatas) rows in
  let unique_map_urls :=
    Py.sorted
      (remove_dups ((λ row, experience_detail_url (row_item row))
                      <$> map_lounges)) in
  let recheck_lookup : gmap (list ascii) (list ascii) :=
    list_to_map ((λ u, (u, recheck_and_fix (session_get u) u))
                   <$> unique_map_urls) in
  let rows :=
    (λ row, with_detail_url row
              (default [] (recheck_lookup
                             !! experience_detail_url (row_item row))))
      <$> rows in
  filter (λ row, experience_detail_url (row_item row) ≠ []) rows.

(** Steps 5 and 6 of [run_pipeline]: the map rows after the recheck *)
Definition map_after_recheck (session_get : str → nat → str → result Response)
    (world : list Airport) (rows : list LoungeRow) : list Enriched :=
  build_map_df world (recheck_rows session_get (build_map_df world rows) rows).

End ScriptMore.

(** A match of the pattern of [extract_outlet_items_from_embedded_payload]:
    the groups [code], [name], [category] and [slug] ([terminal] is not
    read); an optional group that did not take part is [None]. *)
Record PayloadMatch : Type := mkPayloadMatch {
  pm_code : option str;
  pm_name : str;
  pm_category : str;
  pm_slug : str
}.

Section PayloadPass.
Context `{!UrlChecks}.

(** One turn of the loop of [extract_outlet_items_from_embedded_payload]
    over the matches: [path_match] is [path_match.group(0)], the path that
    the second search finds for the slug in the page, if any.  [None]
    stands for [continue].  The [strip()] and [upper()] of the groups are
    Python's on ASCII text. *)
Definition payload_item (ctx : PageContext) (path_match : option str)
    (m : PayloadMatch) : result (option Item) :=
  let category := Py.upper (pm_category m) in
  let name := Py.strip (pm_name m) in
  let slug := Py.strip (pm_slug m) in
  let code := Py.upper (Py.strip (default [] (pm_code m))) in
  if negb (Py.truthy category) || negb (Py.truthy name)
     || negb (Py.truthy slug)
  then Ok None
  else
    detail_url ←
      match path_match with
      | Some path => to_my_prioritypass_url path
      | None =>
          to_my_prioritypass_url
            (lit "/lounges/" ++ ctx_country_slug ctx ++ lit "/"
               ++ ctx_airport_slug ctx ++ lit "/" ++ slug)
      end;
    let iata_from_code :=
      if Py.truthy code then Re.match_iata code else None in
    let iata_from_code :=
      if negb (truthy_opt iata_from_code) then
        match Re.match_iata (Py.upper slug) with
        | Some group => Some group
        | None => iata_from_code
        end
      else iata_from_code in
    Ok (Some (mkItem (ctx_airport_url ctx) (ctx_airport_slug ctx)
                (ctx_country_slug ctx) (ctx_airport_name ctx) (ctx_title ctx)
                category name detail_url slug iata_from_code
                (ctx_iata_from_title ctx))).

End PayloadPass.

(** ** Vocabulary of the statements *)

(** A character that [urlsplit] keeps in the path: none of TAB, CR, LF, which
    it deletes, nor [?] or [#], which end the path. *)
Definition path_char (c : ascii) : Prop :=
  (c ∉ UrlLib.unsafe_url_bytes) ∧ c ≠ "?"%char ∧ c ≠ "#"%char.

(** No [;] in the last segment: [urlparse] would cut the path there. *)
Definition no_params (p : str) : Prop :=
  ∀ a b, p = a ++ ";"%char :: b → "/"%char ∈ b.

(** A character of a host name without brackets *)
Definition host_char (c : ascii) : Prop :=
  Py.isascii c = true ∧ (c ∉ lit "/?#[]") ∧ (c ∉ UrlLib.unsafe_url_bytes).

#[global] Instance path_char_dec c : Decision (path_char c).
Proof. unfold path_char. apply _. Defined.
#[global] Instance host_char_dec c : Decision (host_char c).
Proof. unfold host_char. apply _. Defined.

(** The shape that [is_lounge_detail_url] accepts *)
Definition prefixed (parts : list str) : Prop :=
  Py.lower <$> parts !! 0 = Some (lit "en-gb") ∧ parts !! 1 = Some (lit "lounges").

Definition detail_shape (parts : list str) : Prop :=
  (5 ≤ length parts ∧ prefixed parts)
  ∨ (4 ≤ length parts ∧ parts !! 0 = Some (lit "lounges")).

#[global] Instance prefixed_dec parts : Decision (prefixed parts).
Proof. unfold prefixed. apply _. Defined.
#[global] Instance detail_shape_dec parts : Decision (detail_shape parts).
Proof. unfold detail_shape. apply _. Defined.

(** A path segment as the site writes them: not empty, and free of the
    characters that delimit or get lost in a URL *)
Definition slug_char (c : ascii) : Prop :=
  path_char c ∧ c ≠ "/"%char ∧ c ≠ ";"%char ∧ Py.isspace c = false.

Definition slug (s : str) : Prop := s ≠ [] ∧ Forall slug_char s.

#[global] Instance slug_char_dec c : Decision (slug_char c).
Proof. unfold slug_char. apply _. Defined.
#[global] Instance slug_dec s : Decision (slug s).
Proof. unfold slug. apply _. Defined.

(** The URL that [urlunparse] builds on the canonical host *)
Definition canonical_url (path : str) : str :=
  UrlLib.urlunparse (lit "https") (lit "my.prioritypass.com") path [] [] [].

(** The URL that [repair_duplicated_airport_segment] returns for the kept
    segments: scheme and host of the input, or the canonical ones *)
Definition repaired_url (parsed : UrlLib.ParseResult) (fixed_parts : list str)
  : str :=
  UrlLib.urlunparse
    (Py.or_else (UrlLib.scheme parsed) (lit "https"))
    (Py.or_else (UrlLib.netloc parsed) (lit "my.prioritypass.com"))
    (lit "/" ++ Py.join (lit "/") fixed_parts) [] [] [].

(** A text that a second pass of [to_my_prioritypass_url] keeps whole: no
    character that [urlparse] drops or cuts at, no parameter in the last
    segment, no white space at the end *)
Definition stable_url (p : str) : Prop :=
  Forall path_char p ∧ no_params p ∧ (∀ c, last p = Some c → Py.isspace c = false).

(** A character of plain text: ASCII and not a square bracket, so that
    [urlsplit] has nothing to check in it *)
Definition plain_char (c : ascii) : Prop :=
  Py.isascii c = true ∧ c ≠ "["%char ∧ c ≠ "]"%char.

#[global] Instance plain_char_dec c : Decision (plain_char c).
Proof. unfold plain_char. apply _. Defined.

(** ASCII text: the text on which [str.strip], [str.split], [str.upper],
    [str.lower] and the classes [\w], [\s] and [\b] of [re] are as [Py] and
    [Re] have them *)
Definition ascii_text (s : str) : Prop := Forall (λ c, Py.isascii c = true) s.

(** A slug in ASCII *)
Definition ascii_slug (s : str) : Prop := slug s ∧ ascii_text s.

(** A match of the payload pattern whose groups are in ASCII *)
Definition ascii_match (m : PayloadMatch) : Prop :=
  ascii_text (default [] (pm_code m)) ∧ ascii_text (pm_name m)
  ∧ ascii_text (pm_category m) ∧ ascii_text (pm_slug m).

#[global] Instance ascii_text_dec s : Decision (ascii_text s).
Proof. unfold ascii_text. apply _. Defined.
#[global] Instance ascii_slug_dec s : Decision (ascii_slug s).
Proof. unfold ascii_slug. apply _. Defined.
#[global] Instance ascii_match_dec m : Decision (ascii_match m).
Proof. unfold ascii_match. apply _. Defined.

(** The path that [to_my_prioritypass_url] puts behind the canonical host,
    from the path it has selected *)
Definition canonical_path (selected : str) : str :=
  let path :=
    if negb (Py.startswith selected (lit "/")) then lit "/" ++ selected
    else selected in
  if Py.startswith path (lit "/lounges/") then MY_PP_LANG_PREFIX ++ path
  else path.

(** *** The recheck *)

(** The start of the body that [check_url_ok] looks at *)
Definition html_head (response : Response) : str :=
  Py.lower (take 2500 (text response)).

(** The response of a page that is there: a status below 400 and none of
    the not-found markers of [check_url_ok] *)
Definition live_response (response : Response) : bool :=
  (status_code response <? 400)%Z
  && negb (Py.contains (html_head response) (lit "page not found")
           || (Py.contains (html_head response) (lit "404")
               && negb (Py.contains (html_head response) (lit "lounge")))).

(** An absolute URL as a session reports it in [response.url]: ASCII, no
    white space around it, a host, and a scheme with parameters, as [http]
    and [https] are *)
Definition absolute_url `{!UrlChecks} (url : str) : Prop :=
  ascii_text url
  ∧ Py.strip url = url
  ∧ ∃ parsed, UrlLib.urlparse url = Ok parsed
              ∧ UrlLib.netloc parsed ≠ []
              ∧ UrlLib.scheme parsed ∈ UrlLib.uses_params.

(** The candidates of [recheck_and_fix] for [url], by their number *)
Definition recheck_candidate `{!UrlChecks}
    (session_get : nat → str → result Response) (url : str) (k : nat)
    (candidate : str) : Prop :=
  match k with
  | 0 => candidate = url
  | 1 => ∃ resolved,
           check_url_ok (session_get 0) url = Ok (false, resolved)
           ∧ try_recover_detail_url_from_redirect url resolved
             = Ok (Some candidate)
  | 2 => repair_duplicated_airport_segment url = Ok candidate
         ∧ candidate ≠ url
  | 3 => ∃ repaired resolved2,
           repair_duplicated_airport_segment url = Ok repaired
           ∧ repaired ≠ url
           ∧ check_url_ok (session_get 2) repaired = Ok (false, resolved2)
           ∧ try_recover_detail_url_from_redirect repaired resolved2
             = Ok (Some candidate)
  | _ => False
  end.

(** An answer that [recheck_and_fix] accepts: candidate [k] is a detail
    URL, its request is answered, and [check_url_ok] finds the final URL a
    detail URL and the page there. *)
Definition accepted_answer `{!UrlChecks}
    (session_get : nat → str → result Response) (url : str) (k : nat)
    (candidate : str) (response : Response) : Prop :=
  recheck_candidate session_get url k candidate
  ∧ is_lounge_detail_url candidate = Ok true
  ∧ session_get k candidate = Ok response
  ∧ is_lounge_detail_url (resp_url response) = Ok true
  ∧ live_response response = true.

#[global] Instance exn_eq_dec : EqDecision exn.
Proof. solve_decision. Defined.
#[global] Instance result_eq_dec {A} `{EqDecision A} : EqDecision (result A).
Proof. solve_decision. Defined.

(** The detail URL of a row *)
Abbreviation url_of row := (experience_detail_url (row_item row)) (only parsing).

(** The airport codes of the pins of a map *)
Definition map_codes (map_df : list Enriched) : list str :=
  (λ e, iata_code (airport e)) <$> map_df.

(** A URL that step 6 rechecks: the URL of a lounge of a pinned airport *)
Definition rechecked_url (map_df : list Enriched) (rows : list LoungeRow)
    (url : str) : Prop :=
  url ∈ (λ row, url_of row)
        <$> filter (λ row, row_iata_code row ∈ map_codes map_df) rows.

#[global] Instance rechecked_url_dec map_df rows url :
  Decision (rechecked_url map_df rows url).
Proof. unfold rechecked_url. apply _. Defined.

(** The number of rows of an airport code whose link the recheck keeps *)
Definition kept_rows_of `{!UrlChecks}
    (session_get : str → nat → str → result Response) (rows : list LoungeRow)
    (code : str) : nat :=
  length (filter (λ row, row_iata_code row = code
                         ∧ recheck_and_fix (session_get (url_of row))
                             (url_of row) ≠ []) rows).

(** *** Extraction and aggregation *)

Abbreviation has_key key := (λ it : Item, item_key it = key).

(** The items that the loop of [dedupe] keeps from [items] when the keys of
    [seen] have been met before *)
Fixpoint dedupe_from (seen : gset (list ascii * list ascii)) (items : list Item)
  : list Item :=
  match items with
  | [] => []
  | it :: rest =>
      if decide (item_key it ∈ seen) then dedupe_from seen rest
      else it :: dedupe_from ({[item_key it]} ∪ seen) rest
  end.

Abbreviation well_formed_iata := (λ c : list ascii, Re.fullmatch_iata c = true).

(** The elements of a list, each once, in the order of their first
    occurrence *)
Fixpoint first_occurrences (l : list str) : list str :=
  match l with
  | [] => []
  | x :: rest => x :: filter (λ y, y ≠ x) (first_occurrences rest)
  end.

(** The number of lounge rows of an airport code *)
Definition lounge_rows_of (rows : list LoungeRow) (code : str) : nat :=
  length (filter (λ row, row_iata_code row = code) rows).

(** The summary row that the loop appends for one completed future *)
Definition summary_of_outcome (done : str * result PageResult) : Summary :=
  match done.2 with
  | Ok r => summary_of_page r
  | Raise err => placeholder_summary done.1 err
  end.

(** The lounge items that the loop adds for one completed future *)
Definition lounge_items_of_outcome (done : str * result PageResult)
  : list Item :=
  match done.2 with
  | Ok r => page_lounge_items r
  | Raise _ => []
  end.

(** ** The claims in the words of the specification *)

(** The not-ok verdict in the words of the specification: the final URL is
    not a detail page, or the status signals failure, or the opening segment
    of the body matches a not-found marker while not containing a lounge
    marker. *)
Definition spec_not_ok (final_is_detail : bool) (status : Z) (html_head : str)
  : bool :=
  negb final_is_detail
  || (400 <=? status)%Z
  || ((Py.contains html_head (lit "page not found")
       || Py.contains html_head (lit "404"))
      && negb (Py.contains html_head (lit "lounge"))).

(** The resolution in the words of the specification: (a) the code-derived
    IATA of the first lounge item, (b) the three letters in front of a
    [Lounges] marker of the title, (c) the bare tokens of three upper-case
    letters of the title; the first candidate that is three upper-case
    letters, if any. *)
Definition spec_airport_iata (lounge_items : list Item) (title : str)
  : option str :=
  let first_item_code := option_list (head lounge_items ≫= iata_from_code) in
  let title_marker := option_list (Re.search_title title) in
  let title_tokens := Re.findall_tokens title in
  head (filter well_formed_iata (first_item_code ++ title_marker ++ title_tokens)).

(** ** Sample data *)

(** A session that answers every request with the page of the URL asked for,
    status 200 *)
Definition serve (body : string) (url : str) : result Response :=
  Ok (mkResponse url 200 (lit body)).

Definition club_url : str :=
  lit "https://my.prioritypass.com/en-GB/lounges/usa/atl/the-club".

Definition not_found_body : string :=
  "<title>Page not found</title> Back to the lounge list".

(** A lounge item of Atlanta, as the extraction passes build it *)
Definition atl_lounge (name slug : string) (code : option string) : Item :=
  mkItem (lit "https://www.prioritypass.com/lounges/usa/atlanta")
    (lit "atlanta") (lit "usa") (lit "Atlanta") (lit "Atlanta Lounges")
    LOUNGE (lit name)
    (lit "https://my.prioritypass.com/en-GB/lounges/usa/atlanta/" ++ lit slug)
    (lit slug) (lit <$> code) None.

Definition lounge_without_code : Item :=
  atl_lounge "No1 Lounge" "no1-lounge" None.

Definition lounge_with_code : Item :=
  atl_lounge "Plaza Premium" "lhr5-plaza-premium" (Some "LHR").

Definition atlanta : Airport :=
  mkAirport (lit "KATL") (lit "Hartsfield Jackson Atlanta International")
    (Some (336367 # 10000)%Q) (Some (-844281 # 10000)%Q) (lit "US") (lit "ATL").

Definition no_latitude : Airport :=
  mkAirport (lit "XXXX") (lit "Unknown field") None (Some (1 # 1)%Q)
    (lit "US") (lit "XXX").

Definition no_lounge : Airport :=
  mkAirport (lit "KSAV") (lit "Savannah Hilton Head International")
    (Some (321276 # 10000)%Q) (Some (-812021 # 10000)%Q) (lit "US") (lit "SAV").

Definition sample_rows : list LoungeRow :=
  [mkLoungeRow (atl_lounge "The Club" "atl1-the-club" (Some "ATL")) (lit "ATL");
   mkLoungeRow (atl_lounge "Lounge X" "xxx1-lounge-x" (Some "XXX")) (lit "XXX");
   mkLoungeRow (atl_lounge "Minute Suites" "atl2-minute-suites" (Some "ATL"))
     (lit "ATL")].

Definition atlanta_page : PageResult :=
  mkPageResult (lit "https://www.prioritypass.com/lounges/usa/atlanta")
    (lit "atlanta") (lit "usa") (lit "Atlanta") (lit "Atlanta Lounges")
    (Some (lit "ATL")) 1 0 1
    [atl_lounge "The Club" "atl1-the-club" (Some "ATL")] [].

(** A session that answers every request of a recheck at the URL asked for,
    status 200 *)
Definition serve_all (body : string) (k : nat) (url : str) : result Response :=
  serve body url.

(** A session whose every request ends at the page of The Club *)
Definition club_session (k : nat) (url : str) : result Response :=
  Ok (mkResponse club_url 200 (lit "<title>The Club ATL</title>")).

(** The page of Atlanta, as the anchor loop sees it *)
Definition atlanta_ctx : PageContext :=
  mkPageContext (lit "https://www.prioritypass.com/lounges/usa/atlanta")
    (lit "atlanta") (lit "usa") (lit "Atlanta") (lit "Atlanta Lounges") None.

Definition the_club : Item := atl_lounge "The Club" "atl1-the-club" (Some "ATL").

(** The record of The Club in the embedded payload of the page of Atlanta,
    without code *)
Definition club_payload : PayloadMatch :=
  mkPayloadMatch None (lit "The Club (payload)") (lit "Lounge")
    (lit "atl1-the-club").

(** * Facts *)

(** ** Facts about the built-ins *)

Example split_path :
  Py.split (lit "a//b/") "/" = [lit "a"; lit ""; lit "b"; lit ""].
Proof. vm_compute. reflexivity. Qed.

Example strip_spaces : Py.strip (lit "  /x y ") = lit "/x y".
Proof. vm_compute. reflexivity. Qed.

Example contains_404 : Py.contains (lit "error 404 page") (lit "404") = true.
Proof. vm_compute. reflexivity. Qed.

Example getitem_negative_index : Py.getitem [1; 2; 3] (-1) = Ok 3.
Proof. vm_compute. reflexivity. Qed.


Lemma bind_Ok {A B} (f : A → result B) (a : A) : Ok a ≫= f = f a.
Proof. reflexivity. Qed.

Lemma bind_Raise {A B} (f : A → result B) (e : exn) : Raise e ≫= f = Raise e.
Proof. reflexivity. Qed.

Lemma bind_Ok_inv {A B} (f : A → result B) (m : result A) (b : B) :
  m ≫= f = Ok b → ∃ a, m = Ok a ∧ f a = Ok b.
Proof. destruct m as [a|e]; [by exists a | done]. Qed.

Module PyFacts.
Import Py.

Lemma char_in_spec (chars : str) (c : ascii) : char_in chars c = true ↔ c ∈ chars.
Proof. unfold char_in. apply bool_decide_eq_true. Qed.

Lemma char_in_false (chars : str) (c : ascii) : char_in chars c = false ↔ c ∉ chars.
Proof. unfold char_in. apply bool_decide_eq_false. Qed.

Lemma forallb_char_in (chars s : str) :
  Forall (λ c, c ∈ chars) s → forallb (char_in chars) s = true.
Proof.
  induction 1 as [|c s Hc _ IH]; [done|]. simpl.
  by rewrite IH, (proj2 (char_in_spec chars c)).
Qed.

Lemma find_None (s : str) (c : ascii) : find s c = None ↔ c ∉ s.
Proof.
  induction s as [|x s IH]; simpl.
  - split; [intros _; apply not_elem_of_nil | done].
  - case_bool_decide as Hx.
    + subst x. split; [done | intros []; left].
    + rewrite fmap_None, IH, not_elem_of_cons. split; [by split | by intros [_ ?]].
Qed.

Lemma find_Some (s : str) (c : ascii) (i : nat) :
  find s c = Some i → ∃ a b, s = a ++ c :: b ∧ length a = i ∧ c ∉ a.
Proof.
  revert i. induction s as [|x s IH]; intros i; simpl; [done|].
  case_bool_decide as Hx.
  - intros [= <-]. subst x. exists [], s. split_and!; [done..|apply not_elem_of_nil].
  - intros (j & Hj & ->)%fmap_Some.
    destruct (IH _ Hj) as (a & b & -> & <- & Ha).
    exists (x :: a), b. split_and!; [done..|].
    rewrite not_elem_of_cons. split; [congruence | done].
Qed.

Lemma find_app_notin (a b : str) (c : ascii) :
  c ∉ a → find (a ++ b) c = (λ i, length a + i) <$> find b c.
Proof.
  induction a as [|x a IH]; simpl; intros Ha.
  - by destruct (find b c).
  - apply not_elem_of_cons in Ha as [Hx Ha].
    rewrite bool_decide_false by congruence.
    rewrite IH by done. by destruct (find b c).
Qed.

Lemma rfind_None (s : str) (c : ascii) : rfind s c = None ↔ c ∉ s.
Proof.
  induction s as [|x s IH]; simpl.
  - split; [intros _; apply not_elem_of_nil | done].
  - rewrite not_elem_of_cons. destruct (rfind s c) as [j|].
    + split; [done|]. intros [_ Hs]. by apply IH in Hs.
    + case_bool_decide as Hx; split; try done.
      * intros [Hne _]. by destruct Hne.
      * intros _. split; [congruence | by apply IH].
Qed.

Lemma rfind_Some (s : str) (c : ascii) (i : nat) :
  rfind s c = Some i → ∃ a b, s = a ++ c :: b ∧ length a = i ∧ c ∉ b.
Proof.
  revert i. induction s as [|x s IH]; intros i; simpl; [done|].
  destruct (rfind s c) as [j|] eqn:Hj.
  - intros [= <-]. destruct (IH _ eq_refl) as (a & b & -> & <- & Hb).
    by exists (x :: a), b.
  - case_bool_decide as Hx; [|done]. intros [= <-]. subst x.
    exists [], s. split_and!; [done..|]. by apply rfind_None.
Qed.

Lemma remove_char_id (c : ascii) (s : str) : c ∉ s → remove_char c s = s.
Proof.
  unfold remove_char. induction s as [|x s IH]; [done|].
  intros [Hx Hs]%not_elem_of_cons.
  rewrite filter_cons_True by congruence. by rewrite IH.
Qed.

Lemma lstrip_by_spec (p : ascii → bool) (s : str) :
  ∃ t, s = t ++ lstrip_by p s ∧ Forall (λ c, p c = true) t
       ∧ (∀ x, head (lstrip_by p s) = Some x → p x = false).
Proof.
  induction s as [|c s (t & Hs & Ht & Hh)]; simpl.
  - exists []. by split_and!.
  - destruct (p c) eqn:Hc.
    + exists (c :: t). split_and!; [by rewrite Hs at 1 | by constructor | done].
    + exists []. split_and!; [done | constructor |]. by intros x [= <-].
Qed.

Lemma lstrip_by_id (p : ascii → bool) (s : str) :
  (∀ x, head s = Some x → p x = false) → lstrip_by p s = s.
Proof.
  destruct s as [|c s]; [done|]. simpl. intros H. by rewrite (H c eq_refl).
Qed.

Lemma rstrip_by_id (p : ascii → bool) (s : str) :
  (∀ x, last s = Some x → p x = false) → rstrip_by p s = s.
Proof.
  intros H. unfold rstrip_by. rewrite lstrip_by_id; [apply reverse_involutive|].
  intros x Hx. apply H. by rewrite <-head_reverse.
Qed.

Lemma rstrip_by_spec (p : ascii → bool) (s : str) :
  ∃ t, s = rstrip_by p s ++ t ∧ Forall (λ c, p c = true) t
       ∧ (∀ x, last (rstrip_by p s) = Some x → p x = false).
Proof.
  unfold rstrip_by.
  destruct (lstrip_by_spec p (reverse s)) as (t & Hs & Ht & Hh).
  exists (reverse t). split_and!.
  - rewrite <-reverse_app, <-Hs. by rewrite reverse_involutive.
  - by apply Forall_reverse.
  - intros x Hx. apply Hh. by rewrite last_reverse in Hx.
Qed.

Lemma startswith_spec (s prefix : str) :
  startswith s prefix = true ↔ ∃ k, s = prefix ++ k.
Proof.
  revert s. induction prefix as [|p prefix IH]; intros s; simpl.
  - split; [by exists s | done].
  - destruct s as [|c s]; [split; [done | by intros [? ?]]|].
    rewrite andb_true_iff, bool_decide_eq_true, IH. split.
    + intros [-> [k ->]]. by exists k.
    + intros [k [= -> ->]]. split; [done | by exists k].
Qed.

(** Splitting and joining *)

Lemma split_not_nil (s : str) (sep : ascii) : split s sep ≠ [].
Proof.
  induction s as [|c s IH]; simpl; [done|].
  case_bool_decide; [done|]. by destruct (split s sep).
Qed.

Lemma split_no_sep (s : str) (sep : ascii) : sep ∉ s → split s sep = [s].
Proof.
  induction s as [|c s IH]; simpl; [done|].
  intros [Hc Hs]%not_elem_of_cons.
  rewrite bool_decide_false by congruence. by rewrite IH.
Qed.

Lemma split_app_sep (a b : str) (sep : ascii) :
  sep ∉ a → split (a ++ sep :: b) sep = a :: split b sep.
Proof.
  induction a as [|c a IH]; simpl; intros Ha.
  - by rewrite bool_decide_true.
  - apply not_elem_of_cons in Ha as [Hc Ha].
    rewrite bool_decide_false by congruence. by rewrite IH.
Qed.

Lemma split_snoc_sep (a : str) (sep : ascii) :
  split (a ++ [sep]) sep = split a sep ++ [[]].
Proof.
  induction a as [|c a IH]; simpl.
  - by rewrite bool_decide_true.
  - case_bool_decide; rewrite IH; [done|].
    pose proof (split_not_nil a sep). by destruct (split a sep).
Qed.

Lemma split_join (parts : list str) :
  parts ≠ [] → Forall (λ p, "/"%char ∉ p) parts →
  split (join (lit "/") parts) "/" = parts.
Proof.
  induction parts as [|p parts IH]; [done|]. intros _ Hall.
  apply Forall_cons in Hall as [Hp Hall].
  destruct parts as [|q parts]; simpl.
  - by apply split_no_sep.
  - change (lit "/" ++ ?x) with ("/"%char :: x).
    rewrite split_app_sep by done. f_equal. by apply IH.
Qed.

Lemma filter_nonempty_id (parts : list str) :
  Forall (λ p, p ≠ []) parts → filter (λ p : str, p ≠ []) parts = parts.
Proof.
  induction 1 as [|p parts Hp _ IH]; [done|].
  by rewrite filter_cons_True, IH.
Qed.

Lemma split_strip_front (t s : str) :
  Forall (λ c, char_in (lit "/") c = true) t →
  filter (λ p : str, p ≠ []) (split (t ++ s) "/")
  = filter (λ p : str, p ≠ []) (split s "/").
Proof.
  induction 1 as [|c t Hc _ IH]; [done|].
  apply char_in_spec, list_elem_of_singleton in Hc as ->. simpl.
  by rewrite filter_cons_False by naive_solver.
Qed.

Lemma split_strip_back (s t : str) :
  Forall (λ c, char_in (lit "/") c = true) t →
  filter (λ p : str, p ≠ []) (split (s ++ t) "/")
  = filter (λ p : str, p ≠ []) (split s "/").
Proof.
  intros Ht. revert s. induction Ht as [|c t Hc _ IH]; intros s.
  - by rewrite app_nil_r.
  - apply char_in_spec, list_elem_of_singleton in Hc as ->.
    rewrite (cons_middle _ s t), (assoc_L (++)), IH, split_snoc_sep.
    rewrite filter_app, filter_cons_False by naive_solver.
    by rewrite filter_nil, app_nil_r.
Qed.

Lemma split_parts_no_sep (s : str) (sep : ascii) :
  Forall (λ p, sep ∉ p) (split s sep).
Proof.
  induction s as [|c s IH]; simpl.
  - repeat constructor. apply not_elem_of_nil.
  - case_bool_decide as Hc.
    + constructor; [apply not_elem_of_nil | done].
    + destruct (split s sep) as [|h t].
      * repeat constructor. rewrite not_elem_of_cons.
        split; [congruence | apply not_elem_of_nil].
      * apply Forall_cons in IH as [Hh Ht]. constructor; [|done].
        rewrite not_elem_of_cons. split; [congruence | done].
Qed.

(** Indexing *)

Lemma getitem_nat {A} (l : list A) (i : nat) :
  getitem l (Z.of_nat i)
  = match l !! i with Some x => Ok x | None => Raise IndexError end.
Proof.
  unfold getitem.
  destruct (Z.ltb_spec (Z.of_nat i) 0) as [?|_]; [lia|].
  destruct (Z.ltb_spec (Z.of_nat i) 0) as [?|_]; [lia|].
  by rewrite Nat2Z.id.
Qed.

Lemma getitem_from_end {A} (l : list A) (k : nat) :
  0 < k ≤ length l →
  getitem l (- Z.of_nat k)
  = match l !! (length l - k) with Some x => Ok x | None => Raise IndexError end.
Proof.
  intros Hk. unfold getitem.
  destruct (Z.ltb_spec (- Z.of_nat k) 0) as [_|?]; [|lia].
  destruct (Z.ltb_spec (Z.of_nat (length l) + - Z.of_nat k) 0) as [?|_]; [lia|].
  by replace (Z.to_nat (Z.of_nat (length l) + - Z.of_nat k)) with (length l - k)
    by lia.
Qed.

Lemma getitem_index {A} (l : list A) (i : nat) (x : A) :
  l !! i = Some x → getitem l (Z.of_nat i) = Ok x.
Proof. intros Hx. by rewrite getitem_nat, Hx. Qed.

Lemma getitem_last {A} (l : list A) (x : A) :
  last l = Some x → getitem l (-1) = Ok x.
Proof.
  intros Hx. change (-1)%Z with (- Z.of_nat 1)%Z.
  rewrite getitem_from_end.
  - by rewrite Nat.sub_1_r, <-last_lookup, Hx.
  - destruct l; [done|]. simpl. lia.
Qed.

Lemma getitem_second_last {A} (l : list A) (x : A) :
  2 ≤ length l → l !! (length l - 2) = Some x → getitem l (-2) = Ok x.
Proof.
  intros Hl Hx. change (-2)%Z with (- Z.of_nat 2)%Z.
  rewrite getitem_from_end by lia. by rewrite Hx.
Qed.

End PyFacts.

(** The path segments are the non-empty pieces between slashes: stripping
    the slashes at both ends first changes nothing. *)
Lemma path_parts_split (path : str) :
  path_parts path = filter (λ p : str, p ≠ []) (Py.split path "/").
Proof.
  unfold path_parts, Py.strip_chars, Py.strip_by.
  destruct (PyFacts.lstrip_by_spec (Py.char_in (lit "/")) path) as (t1 & H1 & Ht1 & _).
  destruct (PyFacts.rstrip_by_spec (Py.char_in (lit "/"))
              (Py.lstrip_by (Py.char_in (lit "/")) path)) as (t2 & H2 & Ht2 & _).
  rewrite H1 at 2. rewrite PyFacts.split_strip_front by done.
  rewrite H2 at 2. by rewrite PyFacts.split_strip_back.
Qed.

Lemma path_parts_segments (path : str) :
  Forall (λ p, p ≠ [] ∧ "/"%char ∉ p) (path_parts path).
Proof.
  rewrite path_parts_split. apply Forall_forall. intros p Hp.
  apply list_elem_of_filter in Hp as [Hne Hp]. split; [done|].
  pose proof (PyFacts.split_parts_no_sep path "/") as Hall.
  rewrite Forall_forall in Hall. by apply Hall.
Qed.

Lemma path_parts_join (parts : list str) :
  Forall (λ p, p ≠ [] ∧ "/"%char ∉ p) parts →
  path_parts (lit "/" ++ Py.join (lit "/") parts) = parts.
Proof.
  intros Hall. rewrite path_parts_split.
  change (lit "/" ++ ?x) with ("/"%char :: x). simpl.
  rewrite filter_cons_False by naive_solver.
  destruct (decide (parts = [])) as [->|Hne]; [done|].
  rewrite PyFacts.split_join; [|done|by eapply Forall_impl; [done|intros ? []]].
  apply PyFacts.filter_nonempty_id. by eapply Forall_impl; [done|intros ? []].
Qed.

(** ** Facts about [urllib.parse] *)

Section UrlFacts.
Context `{!UrlChecks}.
Import UrlLib.

Lemma remove_unsafe_id (s : str) :
  Forall (λ c, c ∉ unsafe_url_bytes) s → remove_unsafe s = s.
Proof.
  intros Hs. unfold remove_unsafe.
  assert (∀ b, b ∈ unsafe_url_bytes → Py.remove_char b s = s) as Hb.
  { intros b Hb. apply PyFacts.remove_char_id. intros Hin.
    eapply Forall_forall in Hs; [|done]. by apply Hs. }
  unfold unsafe_url_bytes in *. simpl. rewrite !Hb; [done|set_solver..].
Qed.

Lemma split_scheme_none (s : str) :
  (∀ c, head s = Some c → Py.isalpha c = false) → split_scheme s = ([], s).
Proof.
  intros Hh. unfold split_scheme. destruct (Py.find s ":") as [i|]; [|done].
  destruct s as [|c s]; [done|]. rewrite (Hh c eq_refl).
  by rewrite andb_false_r.
Qed.

Lemma split_scheme_some (sch rest : str) :
  (∃ c, head sch = Some c ∧ Py.isascii c = true ∧ Py.isalpha c = true) →
  Forall (λ c, c ∈ scheme_chars) sch →
  split_scheme (sch ++ ":"%char :: rest) = (Py.lower sch, rest).
Proof.
  intros (c & Hc & Hasc & Halpha) Hall. unfold split_scheme.
  assert (":"%char ∉ sch) as Hcolon.
  { intros Hin. eapply Forall_forall in Hall; [|done].
    revert Hall. apply (bool_decide_eq_false_1 _). vm_compute. reflexivity. }
  rewrite PyFacts.find_app_notin by done. simpl.
  destruct sch as [|c' sch]; [done|]. injection Hc as ->. simpl.
  rewrite Hasc, Halpha. simpl. rewrite Nat.add_0_r.
  rewrite take_app_length.
  replace (drop (S (length sch)) (sch ++ ":"%char :: rest)) with rest
    by (by rewrite (cons_middle _ sch rest), (assoc_L (++)), drop_app_length'
          by (rewrite length_app; simpl; lia)).
  apply Forall_cons in Hall as [Hc Hall].
  apply PyFacts.char_in_spec in Hc as ->. simpl.
  by rewrite PyFacts.forallb_char_in.
Qed.

Lemma split_scheme_behind_slash (a b : str) :
  ":"%char ∉ a →
  UrlLib.split_scheme (a ++ "/"%char :: b) = ([], a ++ "/"%char :: b).
Proof.
  intros Ha. unfold UrlLib.split_scheme.
  destruct (Py.find (a ++ "/"%char :: b) ":") as [i|] eqn:Hi; [|done].
  apply PyFacts.find_Some in Hi as (p1 & p2 & Heq & <- & Hp1).
  assert ("/"%char ∈ p1) as Hslash.
  { apply app_eq_inv in Heq as [(k & -> & Hk)|(k & -> & Hk)].
    - destruct k as [|x k]; [done|]. injection Hk as <- _.
      destruct Ha. rewrite elem_of_app. right. left.
    - destruct k as [|x k]; [done|]. injection Hk as <- _.
      rewrite elem_of_app. right. left. }
  rewrite Heq, take_app_length.
  destruct (p1 ++ ":"%char :: p2) as [|c0 s]; [done|].
  destruct (forallb (Py.char_in UrlLib.scheme_chars) p1) eqn:Hall;
    [|by rewrite andb_false_r].
  rewrite forallb_forall in Hall.
  apply list_elem_of_In, Hall in Hslash. by vm_compute in Hslash.
Qed.

Lemma splitnetloc_spec (host rest : str) :
  Forall (λ c, c ∉ lit "/?#") host →
  (∀ c, head rest = Some c → c ∈ lit "/?#") →
  splitnetloc ("/"%char :: "/"%char :: host ++ rest) 2 = (host, rest).
Proof.
  intros Hhost Hrest. unfold splitnetloc.
  assert (∀ c, c ∈ lit "/?#" →
            Py.find_from ("/"%char :: "/"%char :: host ++ rest) c 2
            = (λ i, 2 + (length host + i)) <$> Py.find rest c) as Hfind.
  { intros c Hc. unfold Py.find_from.
    change (drop 2 (_ :: _ :: ?x)) with x.
    rewrite PyFacts.find_app_notin.
    - by destruct (Py.find rest c).
    - intros Hin. eapply Forall_forall in Hhost; [|done]. by apply Hhost. }
  match goal with |- (drop 2 (take ?d _), drop ?d _) = _ =>
    assert (d = 2 + length host) as ->
  end.
  { unfold lit; simpl foldl.
    rewrite !Hfind by (unfold lit; simpl; set_solver).
    simpl length. rewrite length_app.
    destruct rest as [|x rest]; [simpl; lia|].
    assert (x = "/"%char ∨ x = "?"%char ∨ x = "#"%char) as Hx.
    { specialize (Hrest x eq_refl). unfold lit in Hrest. simpl in Hrest.
      by rewrite !elem_of_cons, elem_of_nil in Hrest; intuition. }
    destruct Hx as [->| [->| ->]]; simpl;
      repeat (match goal with |- context [Py.find rest ?c] =>
                destruct (Py.find rest c); simpl end); lia. }
  simpl. by rewrite take_app_length, drop_app_length.
Qed.

Lemma split_authority_spec (host rest : str) :
  Forall host_char host →
  (∀ c, head rest = Some c → c ∈ lit "/?#") →
  split_authority ("/"%char :: "/"%char :: host ++ rest) = Ok (host, rest).
Proof.
  intros Hhost Hrest. unfold split_authority.
  rewrite bool_decide_true by done.
  rewrite splitnetloc_spec; [|eapply Forall_impl; [done|]|done].
  - assert (∀ c, c ∈ lit "/?#[]" → Py.char_in host c = false) as Hc.
    { intros c Hc. apply PyFacts.char_in_false. intros Hin.
      eapply Forall_forall in Hhost as (_ & Hn & _); [|done]. by apply Hn. }
    rewrite !Hc by (apply (bool_decide_unpack _); vm_compute; exact I). done.
  - intros c (_ & Hn & _) Hin. apply Hn. revert Hin. unfold lit. simpl.
    rewrite !elem_of_cons. tauto.
Qed.

Lemma split_authority_none (s : str) :
  take 2 s ≠ lit "//" → split_authority s = Ok ([], s).
Proof. intros Hs. unfold split_authority. by rewrite bool_decide_false. Qed.

Lemma splitparams_id (p : str) :
  "/"%char ∈ p → no_params p → splitparams p = (p, []).
Proof.
  intros Hslash Hnp. unfold splitparams.
  rewrite (proj2 (PyFacts.char_in_spec p "/")) by done.
  destruct (Py.rfind p "/") as [r|] eqn:Hr;
    [|by apply PyFacts.rfind_None in Hr].
  apply PyFacts.rfind_Some in Hr as (a & b & -> & <- & Hb). simpl.
  unfold Py.find_from. rewrite drop_app_length. simpl.
  destruct (Py.find b ";") as [i|] eqn:Hi; [|done].
  apply PyFacts.find_Some in Hi as (b1 & b2 & -> & _ & _).
  destruct Hb. rewrite elem_of_app. right. right.
  apply (Hnp (a ++ "/"%char :: b1) b2). by rewrite <-(assoc_L (++)).
Qed.

Lemma path_char_no_delims (p : str) :
  Forall path_char p →
  Forall (λ c, c ∉ unsafe_url_bytes) p
  ∧ Py.char_in p "#" = false ∧ Py.char_in p "?" = false.
Proof.
  intros Hp. split_and!.
  - eapply Forall_impl; [done|]. by intros c (? & _).
  - apply PyFacts.char_in_false. intros Hin.
    eapply Forall_forall in Hp as (_ & _ & Hn); [|done]. done.
  - apply PyFacts.char_in_false. intros Hin.
    eapply Forall_forall in Hp as (_ & Hn & _); [|done]. done.
Qed.

Lemma params_step_id (b : bool) (p : str) :
  (p = [] ∨ head p = Some "/"%char) → no_params p →
  (if b && Py.char_in p ";" then splitparams p else (p, [])) = (p, []).
Proof.
  intros Hp Hnp. destruct (b && _); [|done].
  destruct Hp as [->|Hp]; [done|].
  apply splitparams_id; [|done]. destruct p; [done|].
  injection Hp as ->. left.
Qed.

Lemma alpha_not_c0 (c : ascii) :
  Py.isalpha c = true → c0_control_or_space c = false.
Proof.
  unfold Py.isalpha, Py.isupper, Py.islower, Py.between, c0_control_or_space.
  intros Hc. apply Nat.leb_gt.
  apply orb_true_iff in Hc as [Hc|Hc];
    apply andb_true_iff in Hc as [Hc%Nat.leb_le _]; lia.
Qed.

(** A path that starts with one slash parses as a path and nothing else. *)
Lemma urlparse_path_only (p : str) :
  head p = Some "/"%char → p !! 1 ≠ Some "/"%char →
  Forall path_char p → no_params p →
  urlparse p = Ok (mkParseResult [] [] p [] [] []).
Proof.
  intros Hh H1 Hp Hnp.
  destruct (path_char_no_delims p Hp) as (Hu & Hfrag & Hquery).
  unfold urlparse, urlsplit.
  rewrite PyFacts.lstrip_by_id
    by (intros x Hx; rewrite Hh in Hx; by injection Hx as <-).
  rewrite remove_unsafe_id by done.
  rewrite split_scheme_none
    by (intros x Hx; rewrite Hh in Hx; by injection Hx as <-).
  rewrite split_authority_none.
  2:{ destruct p as [|a [|b p]]; try done.
      intros [= -> ->]. by destruct H1. }
  simpl. rewrite Hfrag, Hquery. simpl.
  pose proof (params_step_id true p (or_intror Hh) Hnp) as Hpar.
  simpl in Hpar. by rewrite Hpar.
Qed.

(** An absolute URL [scheme://host/path] without query or fragment parses
    into these three components. *)
Lemma urlparse_absolute (sch host p : str) :
  (∃ c, head sch = Some c ∧ Py.isascii c = true ∧ Py.isalpha c = true) →
  Forall (λ c, c ∈ scheme_chars) sch →
  Forall host_char host →
  (p = [] ∨ head p = Some "/"%char) →
  Forall path_char p → no_params p →
  urlparse (sch ++ lit "://" ++ host ++ p)
  = Ok (mkParseResult (Py.lower sch) host p [] [] []).
Proof.
  intros Hsch Hall Hhost Hhead Hp Hnp.
  destruct (path_char_no_delims p Hp) as (Hu & Hfrag & Hquery).
  unfold urlparse, urlsplit.
  rewrite PyFacts.lstrip_by_id.
  2:{ destruct Hsch as (c & Hc & _ & Halpha). destruct sch; [done|].
      injection Hc as ->. intros x [= <-]. by apply alpha_not_c0. }
  rewrite remove_unsafe_id.
  2:{ rewrite !Forall_app. split_and!; [| |by eapply Forall_impl; [done|intros ? (_&_&?)]|done].
      - eapply Forall_impl; [done|]. intros c Hc Hin. revert Hc.
        unfold unsafe_url_bytes in Hin.
        rewrite !elem_of_cons, elem_of_nil in Hin.
        destruct Hin as [->|[->|[->|[]]]];
          apply (bool_decide_eq_false_1 _); vm_compute; reflexivity.
      - apply (bool_decide_unpack _). vm_compute. exact I. }
  change (lit "://" ++ ?x) with (":"%char :: "/"%char :: "/"%char :: x).
  rewrite split_scheme_some by done.
  rewrite split_authority_spec; [|done|].
  2:{ destruct Hhead as [->|Hh]; [done|]. intros c. rewrite Hh.
      intros [= <-]. by left. }
  simpl. rewrite Hfrag, Hquery. simpl.
  unfold checknetloc.
  replace (forallb Py.isascii host) with true.
  2:{ symmetry. apply forallb_forall. intros c Hc%list_elem_of_In.
      eapply Forall_forall in Hhost as (? & _); done. }
  rewrite orb_true_r. simpl.
  by rewrite params_step_id by auto.
Qed.

(** A relative path whose first segment has no colon parses as a path and
    nothing else. *)
Lemma urlparse_relative (a b : str) (c : ascii) :
  head a = Some c → c0_control_or_space c = false → c ≠ "/"%char →
  ":"%char ∉ a →
  Forall path_char (a ++ "/"%char :: b) → no_params (a ++ "/"%char :: b) →
  urlparse (a ++ "/"%char :: b)
  = Ok (mkParseResult [] [] (a ++ "/"%char :: b) [] [] []).
Proof.
  intros Hh Hc0 Hc Ha Hp Hnp.
  destruct (path_char_no_delims _ Hp) as (Hu & Hfrag & Hquery).
  assert (head (a ++ "/"%char :: b) = Some c) as Hhead
    by (destruct a; [done|]; by injection Hh as ->).
  unfold urlparse, urlsplit.
  rewrite PyFacts.lstrip_by_id
    by (intros x Hx; rewrite Hhead in Hx; by injection Hx as <-).
  rewrite remove_unsafe_id by done.
  rewrite split_scheme_behind_slash by done.
  rewrite split_authority_none.
  2:{ destruct a as [|x a]; [done|]. injection Hh as ->.
      intros E. unfold lit in E. simpl in E. by injection E as -> _. }
  simpl. rewrite Hfrag, Hquery. simpl.
  destruct (Py.char_in (a ++ "/"%char :: b) ";"); [|done].
  rewrite splitparams_id; [done| |done].
  rewrite elem_of_app. right. left.
Qed.

End UrlFacts.

(** ** Facts about the URL functions of the script *)

Lemma canonical_url_eq (p : str) :
  head p = Some "/"%char → canonical_url p = MY_PP_BASE ++ p.
Proof.
  intros Hp. destruct p as [|c p]; [done|]. injection Hp as ->.
  reflexivity.
Qed.

Lemma canonical_path_head (selected : str) :
  head (canonical_path selected) = Some "/"%char.
Proof.
  unfold canonical_path.
  destruct (Py.startswith selected (lit "/")) eqn:Hs; cbn [negb]; cbv iota zeta.
  - apply PyFacts.startswith_spec in Hs as [k ->].
    by destruct (Py.startswith _ _).
  - by destruct (Py.startswith (lit "/" ++ selected) _).
Qed.

Lemma Forall_join (P : ascii → Prop) (sep : str) (parts : list str) :
  Forall P sep → Forall (Forall P) parts → Forall P (Py.join sep parts).
Proof.
  intros Hsep. induction 1 as [|p parts Hp Hparts IH]; [constructor|].
  destruct parts as [|q parts]; [done|].
  change (Forall P (p ++ sep ++ Py.join sep (q :: parts))).
  rewrite !Forall_app. by split_and!.
Qed.

Lemma no_semicolon_no_params (p : str) : ";"%char ∉ p → no_params p.
Proof. intros Hp a b ->. destruct Hp. rewrite elem_of_app. right. left. Qed.

Lemma slug_path_chars (s : str) : slug s → Forall path_char s.
Proof. intros [_ Hs]. eapply Forall_impl; [done|]. by intros c (? & _). Qed.

(** The path ["/" + "/".join(parts)] of slugs is clean. *)
Lemma joined_path_ok (parts : list str) :
  Forall slug parts →
  let p := lit "/" ++ Py.join (lit "/") parts in
  head p = Some "/"%char ∧ p !! 1 ≠ Some "/"%char
  ∧ (";"%char ∉ p) ∧ stable_url p.
Proof.
  intros Hparts p.
  set (R := λ c, path_char c ∧ c ≠ ";"%char ∧ Py.isspace c = false).
  assert (Forall R p) as HR.
  { apply Forall_app. split; [by apply (bool_decide_unpack _)|].
    apply Forall_join; [by apply (bool_decide_unpack _)|].
    eapply Forall_impl; [done|]. intros q [_ Hq].
    eapply Forall_impl; [done|]. intros c (? & _ & ? & ?). done. }
  split_and!.
  - done.
  - subst p. destruct Hparts as [|q parts [Hne Hq] _]; [done|].
    destruct q as [|x q]; [done|]. apply Forall_cons in Hq as [(_ & Hx & _) _].
    destruct parts; simpl; congruence.
  - intros Hin. eapply Forall_forall in HR as (_ & ? & _); done.
  - split_and!.
    + eapply Forall_impl; [done|]. by intros c (? & _).
    + apply no_semicolon_no_params. intros Hin.
      eapply Forall_forall in HR as (_ & ? & _); done.
    + intros c Hc. apply last_Some_elem_of in Hc.
      eapply Forall_forall in HR as (_ & _ & ?); done.
Qed.

Lemma no_params_app (a p : str) :
  ";"%char ∉ a → no_params p → no_params (a ++ p).
Proof.
  intros Ha Hnp x y Heq. apply app_eq_inv in Heq as [(k & -> & Hk)|(k & -> & Hk)].
  - destruct k as [|c k]; [by apply (Hnp [] y)|]. injection Hk as <- ->.
    destruct Ha. rewrite elem_of_app. right. left.
  - by apply (Hnp k y).
Qed.

Lemma stable_url_app (a p : str) :
  p ≠ [] → Forall path_char a → ";"%char ∉ a → stable_url p →
  stable_url (a ++ p).
Proof.
  intros Hne Ha Hsemi (Hp & Hnp & Hlast). split_and!.
  - by apply Forall_app.
  - by apply no_params_app.
  - intros c Hc. apply Hlast. destruct p as [|x p _] using rev_ind; [done|].
    rewrite (assoc_L (++)), last_snoc in Hc. by rewrite last_snoc.
Qed.

Lemma strip_no_space (s : str) :
  Forall (λ c, Py.isspace c = false) s → Py.strip s = s.
Proof.
  intros Hs. unfold Py.strip, Py.strip_by.
  rewrite PyFacts.lstrip_by_id.
  - apply PyFacts.rstrip_by_id. intros x Hx%last_Some_elem_of.
    by eapply Forall_forall in Hs.
  - intros x Hx%head_Some_elem_of. by eapply Forall_forall in Hs.
Qed.

Lemma slug_no_space (s : str) : slug s → Forall (λ c, Py.isspace c = false) s.
Proof. intros [_ Hs]. eapply Forall_impl; [done|]. by intros c (_ & _ & _ & ?). Qed.

Lemma startswith_head_ne (s pre : str) (c x : ascii) :
  head s = Some c → c ≠ x → Py.startswith s (x :: pre) = false.
Proof.
  destruct s as [|y s]; [done|]. intros [= ->] Hne. simpl.
  by rewrite bool_decide_false.
Qed.

(** Closes [Forall slug [s1; ...; sn]] from the hypotheses. *)
Ltac all_slugs :=
  repeat (apply List.Forall_cons; [assumption|]); apply List.Forall_nil.

Section ScriptFacts.
Context `{!UrlChecks}.
Import UrlLib.

(** Once the URL parses, the classifier is the test of the shape. *)
Lemma is_lounge_detail_url_parsed (url : str) (parsed : ParseResult) :
  urlparse url = Ok parsed →
  is_lounge_detail_url url
  = Ok (bool_decide (detail_shape (path_parts (path parsed)))).
Proof.
  intros Hparse. unfold is_lounge_detail_url.
  destruct url as [|c url].
  - injection Hparse as <-. by vm_compute.
  - simpl negb. cbv iota. rewrite Hparse, bind_Ok.
    set (parts := path_parts (path parsed)).
    match goal with |- (if ?b1 then _ else if ?b2 then _ else _) = _ =>
      transitivity (Ok (A:=bool) (b1 || b2)); [by destruct b1, b2|]
    end.
    f_equal. apply Bool.eq_iff_eq_true.
    rewrite orb_true_iff, !andb_true_iff, !bool_decide_eq_true, !Nat.leb_le.
    unfold detail_shape, prefixed. tauto.
Qed.

Lemma is_lounge_detail_url_raise (url : str) (e : exn) :
  urlparse url = Raise e → url ≠ [] → is_lounge_detail_url url = Raise e.
Proof.
  intros Hparse Hne. unfold is_lounge_detail_url.
  destruct url; [done|]. simpl negb. cbv iota. by rewrite Hparse.
Qed.

(** The classifier on a canonical URL *)
Lemma is_lounge_detail_url_canonical (p : str) :
  head p = Some "/"%char → Forall path_char p → no_params p →
  is_lounge_detail_url (MY_PP_BASE ++ p)
  = Ok (bool_decide (detail_shape (path_parts p))).
Proof.
  intros Hh Hp Hnp.
  rewrite (is_lounge_detail_url_parsed _
             (mkParseResult (lit "https") (lit "my.prioritypass.com") p [] [] []));
    [done|].
  apply (urlparse_absolute (lit "https") (lit "my.prioritypass.com") p);
    [by exists "h"%char|by apply (bool_decide_unpack _)..|by right|done|done].
Qed.

(** The canonicaliser on a clean path *)
Lemma to_my_prioritypass_url_path (p : str) :
  head p = Some "/"%char → p !! 1 ≠ Some "/"%char → stable_url p →
  to_my_prioritypass_url p
  = Ok (MY_PP_BASE ++
          (if Py.startswith p (lit "/lounges/") then MY_PP_LANG_PREFIX ++ p
           else p)).
Proof.
  intros Hh H1 (Hp & Hnp & Hlast). unfold to_my_prioritypass_url.
  assert (Py.strip p = p) as ->.
  { unfold Py.strip, Py.strip_by.
    rewrite PyFacts.lstrip_by_id
      by (intros x Hx; rewrite Hh in Hx; by injection Hx as <-).
    by apply PyFacts.rstrip_by_id. }
  destruct p as [|c p]; [done|]. injection Hh as ->.
  simpl negb. cbv iota.
  rewrite urlparse_path_only, bind_Ok by done.
  cbn [netloc path Py.truthy]. cbv zeta.
  change (Py.startswith ("/"%char :: p) (lit "/")) with true.
  rewrite (bool_decide_true ("/"%char = "/"%char)) by done.
  cbn [andb negb].
  change (urlunparse (lit "https") (lit "my.prioritypass.com") ?x [] [] [])
    with (canonical_url x).
  rewrite canonical_url_eq; [done|]. by destruct (Py.startswith _ _).
Qed.

(** The classifier on a path made of slugs *)
Lemma is_lounge_detail_url_slugs (parts : list str) :
  Forall slug parts →
  is_lounge_detail_url (lit "/" ++ Py.join (lit "/") parts)
  = Ok (bool_decide (detail_shape parts)).
Proof.
  intros Hparts.
  destruct (joined_path_ok parts Hparts) as (Hh & H1 & Hsemi & Hp & Hnp & Hl).
  rewrite (is_lounge_detail_url_parsed _ _ (urlparse_path_only _ Hh H1 Hp Hnp)).
  cbn [path]. rewrite path_parts_join; [done|].
  eapply Forall_impl; [done|]. intros q [Hne Hq]. split; [done|].
  intros Hin. eapply Forall_forall in Hq as (_ & ? & _); done.
Qed.

Lemma stable_url_suffix (a p : str) :
  p ≠ [] → stable_url (a ++ p) → stable_url p.
Proof.
  intros Hne (Hp & Hnp & Hlast). split_and!.
  - by apply Forall_app in Hp as [_ ?].
  - intros b c ->. apply (Hnp (a ++ b) c). by rewrite <-(assoc_L (++)).
  - intros c Hc. apply Hlast. destruct p as [|x p] using rev_ind; [done|].
    rewrite last_snoc in Hc. by rewrite (assoc_L (++)), last_snoc.
Qed.

(** The canonicaliser on a canonical URL *)
Lemma to_my_prioritypass_url_canonical (p : str) :
  head p = Some "/"%char → stable_url (MY_PP_BASE ++ p) →
  to_my_prioritypass_url (MY_PP_BASE ++ p)
  = Ok (MY_PP_BASE ++
          (if Py.startswith p (lit "/lounges/") then MY_PP_LANG_PREFIX ++ p
           else p)).
Proof.
  intros Hh Hst.
  assert (p ≠ []) as Hne by by destruct p.
  destruct (stable_url_suffix _ _ Hne Hst) as (Hp & Hnp & _).
  destruct Hst as (_ & _ & Hlast).
  unfold to_my_prioritypass_url.
  assert (Py.strip (MY_PP_BASE ++ p) = MY_PP_BASE ++ p) as ->.
  { unfold Py.strip, Py.strip_by.
    rewrite PyFacts.lstrip_by_id by by intros x [= <-].
    by apply PyFacts.rstrip_by_id. }
  change (negb (Py.truthy (MY_PP_BASE ++ p))) with false. cbv iota.
  rewrite (urlparse_absolute (lit "https") (lit "my.prioritypass.com") p);
    [|by exists "h"%char|by apply (bool_decide_unpack _)..|by right|done|done].
  rewrite bind_Ok. cbn [netloc path]. cbv zeta.
  change (Py.truthy (lit "my.prioritypass.com")) with true. cbv iota.
  destruct p as [|c p]; [done|]. injection Hh as ->.
  change (Py.startswith ("/"%char :: p) (lit "/")) with true.
  cbn [negb].
  change (urlunparse (lit "https") (lit "my.prioritypass.com") ?x [] [] [])
    with (canonical_url x).
  rewrite canonical_url_eq; [done|]. by destruct (Py.startswith _ _).
Qed.

(** The rebuilding step of the redirect recovery, on slugs *)
Lemma rebuild_if_detail_slugs (country airport detail : str) :
  slug country → slug airport → slug detail →
  rebuild_if_detail country airport detail
  = Ok (Some (MY_PP_BASE ++ detail_path country airport detail)).
Proof.
  intros Hc Ha Hd.
  assert (slug (lit "lounges")) as Hl by by apply (bool_decide_unpack _).
  assert (slug (lit "en-GB")) as He by by apply (bool_decide_unpack _).
  pose (parts := [lit "en-GB"; lit "lounges"; country; airport; detail]).
  assert (Forall slug parts) as Hparts by (subst parts; all_slugs).
  destruct (joined_path_ok parts Hparts) as (Hh & H1 & Hsemi & Hst).
  change (lit "/" ++ Py.join (lit "/") parts)
    with (detail_path country airport detail) in *.
  unfold rebuild_if_detail.
  rewrite to_my_prioritypass_url_path, bind_Ok by done.
  change (Py.startswith (detail_path country airport detail) (lit "/lounges/"))
    with false. cbv iota.
  destruct Hst as (Hp & Hnp & _).
  rewrite is_lounge_detail_url_canonical, bind_Ok by done.
  replace (path_parts (detail_path country airport detail)) with parts; [done|].
  symmetry. apply (path_parts_join parts).
  eapply Forall_impl; [done|]. intros q [Hne Hq]. split; [done|].
  intros Hin. eapply Forall_forall in Hq as (_ & ? & _); done.
Qed.

Lemma to_my_prioritypass_url_parsed (x : str) (parsed : ParseResult) :
  Py.strip x ≠ [] → urlparse (Py.strip x) = Ok parsed →
  to_my_prioritypass_url x
  = Ok (MY_PP_BASE
        ++ canonical_path (if Py.truthy (netloc parsed) then path parsed
                           else Py.strip x)).
Proof.
  intros Hne Hparse. unfold to_my_prioritypass_url.
  destruct (Py.strip x) as [|c raw] eqn:Hraw; [done|].
  change (negb (Py.truthy (c :: raw))) with false. cbv iota.
  rewrite Hparse, bind_Ok. cbv zeta.
  change (urlunparse (lit "https") (lit "my.prioritypass.com") ?p [] [] [])
    with (canonical_url p).
  rewrite canonical_url_eq; [done|]. exact (canonical_path_head _).
Qed.

Lemma to_my_prioritypass_url_detail_fixed (country airport detail : str) :
  slug country → slug airport → slug detail →
  to_my_prioritypass_url (MY_PP_BASE ++ detail_path country airport detail)
  = Ok (MY_PP_BASE ++ detail_path country airport detail).
Proof.
  intros Hc Ha Hd.
  assert (slug (lit "lounges")) as Hl by by apply (bool_decide_unpack _).
  assert (slug (lit "en-GB")) as He by by apply (bool_decide_unpack _).
  pose (parts := [lit "en-GB"; lit "lounges"; country; airport; detail]).
  assert (Forall slug parts) as Hparts by (subst parts; all_slugs).
  destruct (joined_path_ok parts Hparts) as (Hh & H1 & Hsemi & Hst).
  change (lit "/" ++ Py.join (lit "/") parts)
    with (detail_path country airport detail) in *.
  rewrite to_my_prioritypass_url_canonical; [done|done|].
  apply stable_url_app; [done| | |done];
    by apply (bool_decide_unpack _).
Qed.

(** The five shapes in which a lounge is written reach the same canonical
    URL, which is stable. *)
Lemma to_my_prioritypass_url_shapes (country airport detail : str) :
  slug country → slug airport → slug detail →
  let listing :=
    lit "lounges/" ++ country ++ lit "/" ++ airport ++ lit "/" ++ detail in
  let u := MY_PP_BASE ++ detail_path country airport detail in
  stable_url u
  ∧ Forall (λ x, to_my_prioritypass_url x = Ok u)
      [u; BASE_URL ++ lit "/" ++ listing;
       MY_PP_LANG_PREFIX ++ lit "/" ++ listing; lit "/" ++ listing; listing].
Proof.
  intros Hc Ha Hd listing u.
  assert (slug (lit "lounges")) as Hl by by apply (bool_decide_unpack _).
  assert (slug (lit "en-GB")) as He by by apply (bool_decide_unpack _).
  pose (parts := [lit "lounges"; country; airport; detail]).
  assert (Forall slug parts) as Hparts by (subst parts; all_slugs).
  destruct (joined_path_ok parts Hparts) as (Hh & H1 & Hsemi & Hst).
  change (lit "/" ++ Py.join (lit "/") parts) with (lit "/" ++ listing) in *.
  pose (parts' := lit "en-GB" :: parts).
  assert (Forall slug parts') as Hparts' by (subst parts' parts; all_slugs).
  destruct (joined_path_ok parts' Hparts') as (Hh' & H1' & Hsemi' & Hst').
  change (lit "/" ++ Py.join (lit "/") parts')
    with (detail_path country airport detail) in *.
  assert (stable_url u) as Hu.
  { apply stable_url_app; [done| | |done]; by apply (bool_decide_unpack _). }
  assert (Forall (λ c, Py.isspace c = false) listing) as Hsp.
  { subst listing. rewrite !Forall_app.
    split_and!; try (by apply slug_no_space); by apply (bool_decide_unpack _). }
  split; [done|]. repeat apply Forall_cons_2; [..|constructor].
  - by apply to_my_prioritypass_url_detail_fixed.
  - destruct Hst as (Hp & Hnp & _).
    rewrite (to_my_prioritypass_url_parsed _
               (mkParseResult (lit "https") (lit "www.prioritypass.com")
                  (lit "/" ++ listing) [] [] [])).
    + done.
    + rewrite strip_no_space; [done|]. apply Forall_app.
      split; [by apply (bool_decide_unpack _)|]. by constructor.
    + rewrite strip_no_space
        by (apply Forall_app; split;
            [by apply (bool_decide_unpack _)|by constructor]).
      apply (urlparse_absolute (lit "https") (lit "www.prioritypass.com")
               (lit "/" ++ listing));
        [by exists "h"%char|by apply (bool_decide_unpack _)..|by right|done|done].
  - change (MY_PP_LANG_PREFIX ++ lit "/" ++ listing)
      with (detail_path country airport detail).
    by rewrite to_my_prioritypass_url_path.
  - by rewrite to_my_prioritypass_url_path.
  - assert (Forall path_char listing ∧ no_params listing) as [Hp Hnp].
    { destruct Hst as (Hp & _ & _). apply Forall_cons in Hp as [_ Hp].
      split; [done|]. apply no_semicolon_no_params. intros Hin.
      apply Hsemi. by right. }
    rewrite (to_my_prioritypass_url_parsed _
               (mkParseResult [] [] listing [] [] [])).
    + cbn [netloc Py.truthy]. by rewrite strip_no_space.
    + by rewrite strip_no_space.
    + rewrite strip_no_space by done.
      apply (urlparse_relative (lit "lounges") _ "l"); try done.
      apply (bool_decide_unpack _). vm_compute. exact I.
Qed.

Lemma try_recover_parsed (original_url redirected_url : str)
    (o r : ParseResult) (detail original_airport : str) :
  urlparse original_url = Ok o → urlparse redirected_url = Ok r →
  5 ≤ length (path_parts (path o)) →
  last (path_parts (path o)) = Some detail →
  path_parts (path o) !! (length (path_parts (path o)) - 2)
  = Some original_airport →
  try_recover_detail_url_from_redirect original_url redirected_url
  = recover_from_parts detail original_airport (path_parts (path r)).
Proof.
  intros Ho Hr Hlen Hlast Hsecond.
  unfold try_recover_detail_url_from_redirect.
  rewrite Ho, bind_Ok, Hr, bind_Ok. cbv zeta.
  rewrite (proj2 (Nat.ltb_ge _ _) Hlen).
  rewrite (PyFacts.getitem_last _ _ Hlast), bind_Ok.
  by rewrite (PyFacts.getitem_second_last _ original_airport), bind_Ok
    by (done || lia).
Qed.

Lemma prefixed_spec (parts : list str) :
  bool_decide (Py.lower <$> parts !! 0 = Some (lit "en-gb"))
  && bool_decide (parts !! 1 = Some (lit "lounges")) = true
  ↔ prefixed parts.
Proof. by rewrite andb_true_iff, !bool_decide_eq_true. Qed.

Lemma recover_from_parts_airport (detail original_airport : str)
    (r_parts : list str) (country airport : str) :
  4 ≤ length r_parts → prefixed r_parts →
  r_parts !! 2 = Some country → r_parts !! 3 = Some airport →
  slug country → slug airport → slug detail →
  recover_from_parts detail original_airport r_parts
  = Ok (Some (MY_PP_BASE ++ detail_path country airport detail)).
Proof.
  intros Hlen Hpre H2 H3 Hc Ha Hd. unfold recover_from_parts. cbv zeta.
  rewrite (proj2 (prefixed_spec _) Hpre), (proj2 (Nat.leb_le _ _) Hlen).
  cbn [andb].
  change 2%Z with (Z.of_nat 2). change 3%Z with (Z.of_nat 3).
  rewrite (PyFacts.getitem_index _ _ _ H2), (PyFacts.getitem_index _ _ _ H3).
  rewrite !bind_Ok.
  by rewrite (rebuild_if_detail_slugs country airport detail), bind_Ok.
Qed.

Lemma recover_from_parts_country (detail original_airport : str)
    (r_parts : list str) (country : str) :
  length r_parts = 3 → prefixed r_parts → r_parts !! 2 = Some country →
  slug country → slug original_airport → slug detail →
  recover_from_parts detail original_airport r_parts
  = Ok (Some (MY_PP_BASE ++ detail_path country original_airport detail)).
Proof.
  intros Hlen Hpre H2 Hc Ha Hd. unfold recover_from_parts. cbv zeta.
  rewrite (proj2 (prefixed_spec _) Hpre).
  rewrite (proj2 (Nat.leb_gt 4 (length r_parts))) by lia.
  rewrite (proj2 (Nat.eqb_eq _ _) Hlen).
  cbn [andb]. rewrite bind_Ok.
  change 2%Z with (Z.of_nat 2).
  rewrite (PyFacts.getitem_index _ _ _ H2), bind_Ok.
  by rewrite (rebuild_if_detail_slugs country original_airport detail).
Qed.

Lemma recover_from_parts_none (detail original_airport : str)
    (r_parts : list str) :
  ¬ (3 ≤ length r_parts ∧ prefixed r_parts) →
  recover_from_parts detail original_airport r_parts = Ok None.
Proof.
  intros Hnot. unfold recover_from_parts. cbv zeta.
  destruct (bool_decide _ && bool_decide _) eqn:Hpre.
  - apply prefixed_spec in Hpre.
    assert (length r_parts < 3) as Hshort
      by (destruct (decide (3 ≤ length r_parts)); [tauto|lia]).
    rewrite (proj2 (Nat.leb_gt 4 (length r_parts))) by lia.
    rewrite (proj2 (Nat.eqb_neq (length r_parts) 3)) by lia.
    done.
  - by rewrite !andb_false_r.
Qed.

Lemma try_recover_short (original_url redirected_url : str)
    (o r : ParseResult) :
  urlparse original_url = Ok o → urlparse redirected_url = Ok r →
  length (path_parts (path o)) < 5 →
  try_recover_detail_url_from_redirect original_url redirected_url = Ok None.
Proof.
  intros Ho Hr Hlen. unfold try_recover_detail_url_from_redirect.
  rewrite Ho, bind_Ok, Hr, bind_Ok. cbv zeta.
  by rewrite (proj2 (Nat.ltb_lt _ _) Hlen).
Qed.

End ScriptFacts.

(** ** Facts about the extraction merge *)

Lemma foldl_dedupe_step seen merged items :
  (foldl dedupe_step (seen, merged) items).2 = merged ++ dedupe_from seen items.
Proof.
  revert seen merged. induction items as [|it rest IH]; intros seen merged; simpl.
  - by rewrite app_nil_r.
  - case_bool_decide as Hin.
    + rewrite decide_True by done. apply IH.
    + rewrite decide_False by done. rewrite IH.
      by rewrite <-(assoc_L (++)).
Qed.

Lemma dedupe_dedupe_from items : dedupe items = dedupe_from ∅ items.
Proof. unfold dedupe. by rewrite foldl_dedupe_step. Qed.

Lemma dedupe_from_sublist seen items : sublist (dedupe_from seen items) items.
Proof.
  revert seen. induction items as [|it rest IH]; intros seen; simpl; [done|].
  case_decide; [by apply sublist_cons | by apply sublist_skip].
Qed.





Lemma append_by_type_spec lounge_items non_lounge_items items :
  append_by_type (lounge_items, non_lounge_items) items
  = (lounge_items ++ filter (λ it, experience_type it = LOUNGE) items,
     non_lounge_items ++ filter (λ it, experience_type it ≠ LOUNGE) items).
Proof.
  unfold append_by_type. revert lounge_items non_lounge_items.
  induction items as [|it rest IH]; intros lounge_items non_lounge_items; simpl.
  - by rewrite !app_nil_r.
  - case_bool_decide as Ht; rewrite IH.
    + rewrite filter_cons_True, filter_cons_False by auto.
      by rewrite <-(assoc_L (++)).
    + rewrite filter_cons_False, filter_cons_True by auto.
      by rewrite <-(assoc_L (++)).
Qed.

(** ** Facts about the aggregation *)

Lemma group_lounge_count_lookup (rows : list LoungeRow) (code : str) :
  group_lounge_count rows !! code
  = if decide (lounge_rows_of rows code = 0) then None
    else Some (lounge_rows_of rows code).
Proof.
  unfold lounge_rows_of. induction rows as [|row rows IH]; simpl; [done|].
  destruct (decide (row_iata_code row = code)) as [Heq|Hne].
  - rewrite filter_cons_True by done. rewrite Heq, lookup_insert_eq, IH. simpl.
    by case_decide as H0; [rewrite H0|].
  - rewrite filter_cons_False by done. by rewrite lookup_insert_ne.
Qed.

Lemma has_priority_lounge_joined (rows : list LoungeRow) (a : Airport) :
  has_priority_lounge (mkEnriched a (group_lounge_count rows !! iata_code a))
  = true
  ↔ 0 < lounge_rows_of rows (iata_code a).
Proof.
  unfold has_priority_lounge. simpl. rewrite group_lounge_count_lookup.
  case_decide as H0; simpl; rewrite Nat.ltb_lt; lia.
Qed.

(** ** Facts about step 3 of the pipeline *)

Lemma foldl_collect_page summaries items completed :
  foldl collect_page (summaries, items) completed
  = (summaries ++ (summary_of_outcome <$> completed),
     items ++ (completed ≫= lounge_items_of_outcome)).
Proof.
  revert summaries items.
  induction completed as [|[url outcome] completed IH]; intros summaries items.
  - by rewrite !app_nil_r.
  - simpl. destruct outcome as [r|err]; rewrite IH;
      by rewrite <-!(assoc_L (++)).
Qed.

(** ** Facts about the resolution of the airport code *)

Lemma upper3_group (s group rest : str) :
  Re.upper3 s = Some (group, rest) →
  s = group ++ rest ∧ Re.fullmatch_iata group = true.
Proof.
  destruct s as [|a [|b [|c s]]]; try done. unfold Re.upper3.
  destruct (Py.isupper a && Py.isupper b && Py.isupper c) eqn:Hup; [|done].
  intros [= <- <-]. split; [done|].
  unfold Re.fullmatch_iata, Re.upper3. rewrite Hup. by apply bool_decide_eq_true.
Qed.

Lemma findall_tokens_well_formed (skip : nat) (prev : option ascii) (s : str) :
  Forall well_formed_iata (Re.findall_tokens_from skip prev s).
Proof.
  revert skip prev. induction s as [|c s IH]; intros skip prev; simpl; [done|].
  destruct skip as [|k]; [|done].
  destruct (Re.token_here prev (c :: s)) as [group|] eqn:Htoken; [|done].
  constructor; [|done]. unfold Re.token_here in Htoken.
  destruct (Re.upper3 (c :: s)) as [[g rest]|] eqn:Hup; [|done].
  destruct (_ && _); [|done]. injection Htoken as <-.
  by destruct (upper3_group _ _ _ Hup).
Qed.

Lemma extract_iata_candidates_elem (text : str) (code : str) :
  code ∈ extract_iata_candidates text
  ↔ text ≠ [] ∧ code ∈ Re.findall_tokens (Py.upper text).
Proof.
  unfold extract_iata_candidates.
  destruct text as [|c text]; [simpl; rewrite elem_of_nil; naive_solver|].
  cbn [Py.truthy negb]. cbv zeta.
  generalize (Re.findall_tokens (Py.upper (c :: text))). intros candidates.
  assert (∀ (seen : gset (list ascii)) ordered,
            (∀ x, x ∈ seen ↔ x ∈ ordered) →
            ∀ x, x ∈ (foldl (λ '(seen, ordered) code,
                               if bool_decide (code ∈ (seen : gset (list ascii)))
                               then (seen, ordered)
                               else ({[code]} ∪ seen, ordered ++ [code]))
                            (seen, ordered) candidates).2
                 ↔ x ∈ ordered ∨ x ∈ candidates) as Hfold.
  { induction candidates as [|y candidates IH]; intros seen ordered Hinv x; simpl.
    - rewrite elem_of_nil. tauto.
    - case_bool_decide as Hy.
      + rewrite IH by done. rewrite elem_of_cons.
        apply Hinv in Hy. split; [tauto|]. intros [?|[->|?]]; tauto.
      + rewrite IH.
        * rewrite elem_of_app, list_elem_of_singleton, elem_of_cons. tauto.
        * intros z. rewrite elem_of_union, elem_of_singleton, elem_of_app,
            list_elem_of_singleton, Hinv. tauto. }
  rewrite Hfold by (intros x; rewrite elem_of_empty, elem_of_nil; tauto).
  rewrite elem_of_nil. split; [intros [[]|?]; by split | intros [_ ?]; by right].
Qed.

Lemma filter_all {A} (P : A → Prop) `{!∀ x, Decision (P x)} (l : list A) :
  Forall P l → filter P l = l.
Proof.
  induction 1 as [|x l Hx _ IH]; [done|]. by rewrite filter_cons_True, IH.
Qed.

Lemma first_occurrences_elem (l : list (list ascii)) (x : list ascii) :
  x ∈ first_occurrences l ↔ x ∈ l.
Proof.
  induction l as [|y l IH]; [done|]. cbn [first_occurrences].
  rewrite !elem_of_cons, list_elem_of_filter, IH.
  destruct (decide (x = y)); naive_solver.
Qed.

Lemma first_occurrences_NoDup (l : list (list ascii)) :
  NoDup (first_occurrences l).
Proof.
  induction l as [|y l IH]; [constructor|]. cbn [first_occurrences].
  constructor.
  - rewrite list_elem_of_filter. naive_solver.
  - by apply NoDup_filter.
Qed.

(** The loop over the tokens keeps each of them where it first occurs. *)
Lemma extract_iata_candidates_first_occurrences (text : str) :
  extract_iata_candidates text
  = first_occurrences (Re.findall_tokens (Py.upper text)).
Proof.
  unfold extract_iata_candidates.
  destruct text as [|c text]; [done|].
  cbn [Py.truthy negb]. cbv zeta.
  generalize (Re.findall_tokens (Py.upper (c :: text))). intros candidates.
  assert (∀ (seen : gset (list ascii)) ordered,
            (∀ x, x ∈ seen ↔ x ∈ ordered) →
            (foldl (λ '(seen, ordered) code,
                      if bool_decide (code ∈ (seen : gset (list ascii)))
                      then (seen, ordered)
                      else ({[code]} ∪ seen, ordered ++ [code]))
                   (seen, ordered) candidates).2
            = ordered ++ filter (λ y, y ∉ ordered) (first_occurrences candidates))
    as Hfold.
  { induction candidates as [|y candidates IH]; intros seen ordered Hinv.
    - simpl. by rewrite app_nil_r.
    - cbn [foldl first_occurrences]. case_bool_decide as Hy.
      + rewrite IH by done. apply Hinv in Hy.
        rewrite filter_cons_False by tauto. f_equal.
        rewrite list_filter_filter. apply list_filter_iff.
        intros z. cbv beta. split; [|by intros [? _]].
        intros Hz. split; [done|]. by intros ->.
      + rewrite IH.
        * rewrite Hinv in Hy. rewrite filter_cons_True by done.
          rewrite <-(assoc_L (++)). f_equal. cbn [app]. f_equal.
          rewrite list_filter_filter. apply list_filter_iff.
          intros z. cbv beta. rewrite elem_of_app, list_elem_of_singleton.
          tauto.
        * intros z. rewrite elem_of_union, elem_of_singleton, elem_of_app,
            list_elem_of_singleton, Hinv. tauto. }
  rewrite Hfold by (intros x; rewrite elem_of_empty, elem_of_nil; tauto).
  cbn [app]. apply filter_all, Forall_forall. intros x _. apply not_elem_of_nil.
Qed.

Lemma extract_iata_candidates_well_formed (text : str) :
  Forall well_formed_iata (extract_iata_candidates text).
Proof.
  apply Forall_forall. intros code [_ Hin]%extract_iata_candidates_elem.
  pose proof (findall_tokens_well_formed 0 None (Py.upper text)) as Hall.
  rewrite Forall_forall in Hall. by apply Hall.
Qed.

Lemma list_find_head_filter {A} (P : A → Prop) `{!∀ x, Decision (P x)}
    (l : list A) :
  snd <$> list_find P l = head (filter P l).
Proof.
  induction l as [|x l IH]; [done|]. simpl.
  destruct (decide (P x)) as [Hx|Hx].
  - by rewrite filter_cons_True.
  - rewrite filter_cons_False by done. rewrite <-IH.
    by destruct (list_find P l) as [[i y]|].
Qed.

Lemma omap_cons {A B} (f : A → option B) (x : A) (l : list A) :
  omap f (x :: l)
  = match f x with Some y => y :: omap f l | None => omap f l end.
Proof. reflexivity. Qed.

Lemma filter_none {A} (P : A → Prop) `{!∀ x, Decision (P x)} (l : list A) :
  Forall (λ x, ¬ P x) l → filter P l = [].
Proof.
  induction 1 as [|x l Hx _ IH]; [done|]. by rewrite filter_cons_False, IH.
Qed.

(** The letter [o] does not survive [str.upper]. *)
Lemma upper_no_small_o (s : str) : "o"%char ∉ Py.upper s.
Proof.
  unfold Py.upper. rewrite list_elem_of_fmap. intros (c & Hc & _).
  revert Hc. destruct c as [[] [] [] [] [] [] [] []]; by vm_compute.
Qed.

Lemma search_title_needs_small_o (prev : option ascii) (s : str) :
  "o"%char ∉ s → Re.search_title_from prev s = None.
Proof.
  revert prev. induction s as [|c s IH]; intros prev Hs.
  - reflexivity.
  - assert (Re.title_here prev (c :: s) = None) as Hhere.
    { unfold Re.title_here.
      destruct (Re.upper3 (c :: s)) as [[group rest]|] eqn:Hup; [|done].
      destruct (Py.startswith (Py.lstrip_by Re.is_space rest) (lit "Lounges"))
        eqn:Hstart; [|by rewrite andb_false_r].
      destruct Hs. apply upper3_group in Hup as [-> _].
      destruct (PyFacts.lstrip_by_spec Re.is_space rest) as (t & Hrest & _).
      apply PyFacts.startswith_spec in Hstart as [k Hk].
      rewrite Hrest, Hk. rewrite !elem_of_app. right. right. left.
      by apply (bool_decide_unpack _). }
    simpl. rewrite Hhere. apply IH. by apply not_elem_of_cons in Hs as [_ ?].
Qed.

(** The search for the marker runs on the upper-cased title, where the
    pattern, which has small letters, cannot match. *)
Lemma title_marker_iata_none (title : str) : title_marker_iata title = None.
Proof. apply search_title_needs_small_o, upper_no_small_o. Qed.

(** * The claims *)


Section Claims.
Context `{!UrlChecks}.
Import UrlLib.

(** ** C4: the detail-URL classifier *)

(** C4. [is_lounge_detail_url] returns true for a URL exactly when the URL
    parses and the non-empty segments of its path have the
    language-prefixed shape (at least 5 segments, the first one the
    language code [en-gb] in any letter case, the second one [lounges]) or
    the unprefixed shape (at least 4 segments, the first one [lounges]).
    In particular, for segments [country], [airport], [detail] it is false
    on [/lounges/country/airport] and on [/en-GB/lounges/country/airport],
    and true on [/lounges/country/airport/detail] and on
    [/en-GB/lounges/country/airport/detail]. *)
Theorem is_lounge_detail_url_spec :
  (∀ url,
     is_lounge_detail_url url = Ok true
     ↔ ∃ parsed, urlparse url = Ok parsed
                 ∧ detail_shape (path_parts (path parsed)))
  ∧ (∀ country airport detail,
       slug country → slug airport → slug detail →
       is_lounge_detail_url
         (lit "/lounges/" ++ country ++ lit "/" ++ airport) = Ok false
       ∧ is_lounge_detail_url
           (lit "/lounges/" ++ country ++ lit "/" ++ airport
              ++ lit "/" ++ detail) = Ok true
       ∧ is_lounge_detail_url
           (lit "/en-GB/lounges/" ++ country ++ lit "/" ++ airport) = Ok false
       ∧ is_lounge_detail_url
           (lit "/en-GB/lounges/" ++ country ++ lit "/" ++ airport
              ++ lit "/" ++ detail) = Ok true).
Proof.
  split.
  - intros url. split.
    + intros Hurl. destruct (urlparse url) as [parsed|e] eqn:Hparse.
      * exists parsed. split; [done|].
        rewrite (is_lounge_detail_url_parsed _ _ Hparse) in Hurl.
        injection Hurl as Hurl. by apply bool_decide_eq_true in Hurl.
      * destruct url as [|c url]; [done|].
        by rewrite (is_lounge_detail_url_raise _ _ Hparse) in Hurl.
    + intros (parsed & Hparse & Hshape).
      rewrite (is_lounge_detail_url_parsed _ _ Hparse).
      by rewrite bool_decide_true.
  - intros country airport detail Hc Ha Hd.
    assert (slug (lit "lounges")) as Hl by by apply (bool_decide_unpack _).
    assert (slug (lit "en-GB")) as He by by apply (bool_decide_unpack _).
    split_and!.
    + by rewrite (is_lounge_detail_url_slugs [lit "lounges"; country; airport])
        by all_slugs.
    + by rewrite (is_lounge_detail_url_slugs
                    [lit "lounges"; country; airport; detail]) by all_slugs.
    + by rewrite (is_lounge_detail_url_slugs
                    [lit "en-GB"; lit "lounges"; country; airport])
        by all_slugs.
    + by rewrite (is_lounge_detail_url_slugs
                    [lit "en-GB"; lit "lounges"; country; airport; detail])
        by all_slugs.
Qed.

(** ** C1: the canonicaliser *)

(** C1 (amended). On ASCII text [to_my_prioritypass_url] is idempotent on
    every input whose canonical form is stable: when the first pass returns
    a text without TAB, CR, LF, [?] or [#], without [;] in its last segment
    and without white space at its end, the second pass returns the same
    text.  It raises exactly on an input that is not blank and that
    [urlparse] rejects once the white space around it is stripped, with the
    exception of [urlparse].  The five shapes in which a lounge is written
    with slugs in ASCII (the canonical URL, the URL of the public site
    without language prefix, the path with the language prefix, the path
    without it, and that path without its leading slash) all give the
    canonical URL, which is stable, in one pass and in two. *)
Theorem to_my_prioritypass_url_idempotent :
  (∀ x, ascii_text x →
     (∀ y, to_my_prioritypass_url x = Ok y → stable_url y →
           to_my_prioritypass_url y = Ok y)
     ∧ (∀ e, to_my_prioritypass_url x = Raise e
             ↔ Py.strip x ≠ [] ∧ urlparse (Py.strip x) = Raise e))
  ∧ (∀ country airport detail,
       ascii_slug country → ascii_slug airport → ascii_slug detail →
       let listing :=
         lit "lounges/" ++ country ++ lit "/" ++ airport ++ lit "/" ++ detail in
       let u := MY_PP_BASE ++ detail_path country airport detail in
       stable_url u
       ∧ Forall (λ x, to_my_prioritypass_url x = Ok u
                      ∧ (to_my_prioritypass_url x ≫= to_my_prioritypass_url)
                        = Ok u)
           [u; BASE_URL ++ lit "/" ++ listing;
            MY_PP_LANG_PREFIX ++ lit "/" ++ listing; lit "/" ++ listing;
            listing]).
Proof.
  split; cycle 1.
  { intros country airport detail [Hc _] [Ha _] [Hd _] listing u.
    destruct (to_my_prioritypass_url_shapes country airport detail Hc Ha Hd)
      as [Hst Hall].
    split; [done|]. fold listing u in Hall.
    assert (to_my_prioritypass_url u = Ok u) as Hu
      by by apply Forall_cons in Hall as [? _].
    eapply Forall_impl; [exact Hall|]. intros x Hx. cbv beta in Hx.
    split; [done|]. by rewrite Hx, bind_Ok. }
  intros x _. split; cycle 1.
  { intros e. unfold to_my_prioritypass_url.
    destruct (Py.strip x) as [|c raw]; [naive_solver|].
    change (negb (Py.truthy (c :: raw))) with false. cbv iota.
    destruct (urlparse (c :: raw)) as [parsed|e']; naive_solver. }
  intros y Hx Hst. unfold to_my_prioritypass_url in Hx.
  destruct (Py.strip x) as [|c raw] eqn:Hraw.
  { injection Hx as <-. reflexivity. }
  change (negb (Py.truthy (c :: raw))) with false in Hx. cbv iota in Hx.
  apply bind_Ok_inv in Hx as (parsed & _ & Hy). cbv zeta in Hy.
  set (p0 := if Py.truthy (netloc parsed) then path parsed else c :: raw) in Hy.
  set (p1 := if negb (Py.startswith p0 (lit "/")) then lit "/" ++ p0 else p0)
    in Hy.
  assert (head p1 = Some "/"%char) as Hp1.
  { subst p1. destruct (Py.startswith p0 (lit "/")) eqn:Hs; [|done].
    by apply PyFacts.startswith_spec in Hs as [k ->]. }
  change (urlunparse (lit "https") (lit "my.prioritypass.com") ?x [] [] [])
    with (canonical_url x) in Hy.
  destruct (Py.startswith p1 (lit "/lounges/")) eqn:Hl;
    rewrite canonical_url_eq in Hy by done.
  - assert (y = MY_PP_BASE ++ (MY_PP_LANG_PREFIX ++ p1)) as -> by congruence.
    by rewrite to_my_prioritypass_url_canonical.
  - assert (y = MY_PP_BASE ++ p1) as -> by congruence.
    rewrite to_my_prioritypass_url_canonical by done. by rewrite Hl.
Qed.

(** ** C2: the repair of a duplicated airport segment *)

(** C2 (amended). When [urlparse] accepts the URL,
    [repair_duplicated_airport_segment] returns it unchanged if its path
    has fewer than 5 segments, and more generally unless the path is
    language-prefixed with at least 6 segments or starts with [lounges]
    with at least 5; on such a path it returns the URL whose path is made
    of the same segments without the one that follows the country segment
    (one segment less, the others in order).  When [urlparse] raises, the
    function raises the same exception.  The path
    [/lounges/usa/wrong-airport/correct-airport/club-atl] becomes
    [/lounges/usa/correct-airport/club-atl] on the canonical host. *)
Theorem repair_duplicated_airport_segment_spec :
  (∀ url parsed,
     urlparse url = Ok parsed →
     let parts := path_parts (path parsed) in
     (length parts < 5 → repair_duplicated_airport_segment url = Ok url)
     ∧ (¬ (6 ≤ length parts ∧ prefixed parts) →
        ¬ (5 ≤ length parts ∧ parts !! 0 = Some (lit "lounges")) →
        repair_duplicated_airport_segment url = Ok url)
     ∧ (6 ≤ length parts → prefixed parts →
        repair_duplicated_airport_segment url
        = Ok (repaired_url parsed (delete 3 parts))
        ∧ path_parts (lit "/" ++ Py.join (lit "/") (delete 3 parts))
          = delete 3 parts
        ∧ length (delete 3 parts) = length parts - 1)
     ∧ (¬ (6 ≤ length parts ∧ prefixed parts) →
        5 ≤ length parts → parts !! 0 = Some (lit "lounges") →
        repair_duplicated_airport_segment url
        = Ok (repaired_url parsed (delete 2 parts))
        ∧ path_parts (lit "/" ++ Py.join (lit "/") (delete 2 parts))
          = delete 2 parts
        ∧ length (delete 2 parts) = length parts - 1))
  ∧ (∀ url e,
       urlparse url = Raise e →
       repair_duplicated_airport_segment url = Raise e)
  ∧ repair_duplicated_airport_segment
      (lit "/lounges/usa/wrong-airport/correct-airport/club-atl")
    = Ok (lit "https://my.prioritypass.com/lounges/usa/correct-airport/club-atl").
Proof.
  split_and!.
  - intros url parsed Hparse parts.
    set (b1 := (6 <=? length parts)
               && bool_decide (Py.lower <$> parts !! 0 = Some (lit "en-gb"))
               && bool_decide (parts !! 1 = Some (lit "lounges"))).
    set (b2 := (5 <=? length parts)
               && bool_decide (parts !! 0 = Some (lit "lounges"))).
    assert (repair_duplicated_airport_segment url
            = (if b1 then Ok (repaired_url parsed (delete 3 parts))
               else if b2 then Ok (repaired_url parsed (delete 2 parts))
               else Ok url)) as ->.
    { unfold repair_duplicated_airport_segment.
      rewrite Hparse, bind_Ok. cbv zeta. fold parts. fold b1 b2.
      by rewrite !delete_take_drop. }
    assert (∀ i, path_parts (lit "/" ++ Py.join (lit "/") (delete i parts))
                 = delete i parts) as Hsegments.
    { intros i. apply path_parts_join, Forall_delete, path_parts_segments. }
    assert (∀ i, i < length parts →
                 length (delete i parts) = length parts - 1) as Hlen.
    { intros i Hi. rewrite length_delete; [done|]. by apply lookup_lt_is_Some. }
    assert (b1 = true ↔ 6 ≤ length parts ∧ prefixed parts) as Hb1.
    { subst b1. rewrite !andb_true_iff, !bool_decide_eq_true, Nat.leb_le.
      unfold prefixed. tauto. }
    assert (b2 = true
            ↔ 5 ≤ length parts ∧ parts !! 0 = Some (lit "lounges")) as Hb2.
    { subst b2. by rewrite !andb_true_iff, !bool_decide_eq_true, Nat.leb_le. }
    clearbody b1 b2.
    destruct b1; [|destruct b2].
    + destruct (proj1 Hb1 eq_refl) as [? ?]. split_and!.
      * lia.
      * tauto.
      * intros _ _. split_and!; [done|done|apply Hlen; lia].
      * tauto.
    + assert (¬ (6 ≤ length parts ∧ prefixed parts)) by (rewrite <-Hb1; done).
      destruct (proj1 Hb2 eq_refl) as [? ?]. split_and!.
      * lia.
      * tauto.
      * tauto.
      * intros _ _ _. split_and!; [done|done|apply Hlen; lia].
    + assert (¬ (6 ≤ length parts ∧ prefixed parts)) by (rewrite <-Hb1; done).
      assert (¬ (5 ≤ length parts ∧ parts !! 0 = Some (lit "lounges")))
        by (rewrite <-Hb2; done).
      split_and!; [done|done|tauto|tauto].
  - intros url e Hparse. unfold repair_duplicated_airport_segment.
    by rewrite Hparse.
  - by vm_compute.
Qed.

(** ** C3: the recovery of a detail URL from a redirect *)

(** C3 (amended). Let both URLs parse and let the path of the original
    have at least 5 segments, the last one a slug; the segments that make
    the result are slugs in ASCII.  When the redirect is a
    language-prefixed path of at least 4 segments (an airport page),
    [try_recover_detail_url_from_redirect] returns the canonical URL made
    of the country and airport segments of the redirect and the last
    segment of the original; when it is a language-prefixed path of
    exactly 3 segments (a country page), the canonical URL made of its
    country segment, the second-to-last segment of the original and the
    last one; when it is neither, [None].  For the original
    [/en-GB/lounges/usa/atl10/the-club-atl] and the redirect
    [/en-GB/lounges/united-states-of-america/hartsfield-jackson-atlanta-international]
    the result is the canonical URL of
    [/en-GB/lounges/united-states-of-america/hartsfield-jackson-atlanta-international/the-club-atl]. *)
Theorem try_recover_detail_url_from_redirect_spec :
  (∀ original_url redirected_url o r detail original_airport,
     urlparse original_url = Ok o → urlparse redirected_url = Ok r →
     let o_parts := path_parts (path o) in
     let r_parts := path_parts (path r) in
     5 ≤ length o_parts →
     last o_parts = Some detail →
     o_parts !! (length o_parts - 2) = Some original_airport →
     (∀ country airport,
        4 ≤ length r_parts → prefixed r_parts →
        r_parts !! 2 = Some country → r_parts !! 3 = Some airport →
        ascii_slug country → ascii_slug airport → ascii_slug detail →
        try_recover_detail_url_from_redirect original_url redirected_url
        = Ok (Some (MY_PP_BASE ++ detail_path country airport detail)))
     ∧ (∀ country,
          length r_parts = 3 → prefixed r_parts →
          r_parts !! 2 = Some country →
          ascii_slug country → ascii_slug original_airport →
          ascii_slug detail →
          try_recover_detail_url_from_redirect original_url redirected_url
          = Ok (Some (MY_PP_BASE
                        ++ detail_path country original_airport detail)))
     ∧ (¬ (3 ≤ length r_parts ∧ prefixed r_parts) →
        try_recover_detail_url_from_redirect original_url redirected_url
        = Ok None))
  ∧ try_recover_detail_url_from_redirect
      (lit "/en-GB/lounges/usa/atl10/the-club-atl")
      (lit "/en-GB/lounges/united-states-of-america/hartsfield-jackson-atlanta-international")
    = Ok (Some (MY_PP_BASE ++ lit "/en-GB/lounges/united-states-of-america/hartsfield-jackson-atlanta-international/the-club-atl")).
Proof.
  split; [|by vm_compute].
  intros original_url redirected_url o r detail original_airport Ho Hr
    o_parts r_parts Hlen Hlast Hsecond.
  rewrite (try_recover_parsed _ _ o r detail original_airport) by done.
  fold r_parts. split_and!.
  - intros country airport Hr4 Hpre Hcountry Hairport [Hc _] [Ha _] [Hd _].
    by apply (recover_from_parts_airport _ _ _ country airport).
  - intros country Hr3 Hpre Hcountry [Hc _] [Ha _] [Hd _].
    by apply recover_from_parts_country.
  - apply recover_from_parts_none.
Qed.

(** ** C10: the length gate of the redirect recovery *)

(** C10 (amended). When both URLs parse,
    [try_recover_detail_url_from_redirect] returns [None] whenever the
    path of the original has fewer than 5 non-empty segments; so the
    unprefixed detail URL [/lounges/country/airport/detail], which
    [is_lounge_detail_url] accepts, is never recovered.  The gate counts
    segments only: two originals with at least 5 segments and the same
    last two segments get the same result, language-prefixed or not. *)
Theorem try_recover_length_gate :
  (∀ original_url redirected_url o r,
     urlparse original_url = Ok o → urlparse redirected_url = Ok r →
     length (path_parts (path o)) < 5 →
     try_recover_detail_url_from_redirect original_url redirected_url
     = Ok None)
  ∧ (∀ country airport detail redirected_url r,
       slug country → slug airport → slug detail →
       urlparse redirected_url = Ok r →
       let original_url :=
         lit "/lounges/" ++ country ++ lit "/" ++ airport
           ++ lit "/" ++ detail in
       is_lounge_detail_url original_url = Ok true
       ∧ try_recover_detail_url_from_redirect original_url redirected_url
         = Ok None)
  ∧ (∀ original_1 original_2 redirected_url o1 o2,
       urlparse original_1 = Ok o1 → urlparse original_2 = Ok o2 →
       let parts_1 := path_parts (path o1) in
       let parts_2 := path_parts (path o2) in
       5 ≤ length parts_1 → 5 ≤ length parts_2 →
       last parts_1 = last parts_2 →
       parts_1 !! (length parts_1 - 2) = parts_2 !! (length parts_2 - 2) →
       try_recover_detail_url_from_redirect original_1 redirected_url
       = try_recover_detail_url_from_redirect original_2 redirected_url).
Proof.
  split_and!.
  - intros original_url redirected_url o r. apply try_recover_short.
  - intros country airport detail redirected_url r Hc Ha Hd Hr original_url.
    assert (slug (lit "lounges")) as Hl by by apply (bool_decide_unpack _).
    pose (parts := [lit "lounges"; country; airport; detail]).
    assert (Forall slug parts) as Hparts by (subst parts; all_slugs).
    destruct (joined_path_ok parts Hparts) as (Hh & H1 & _ & Hp & Hnp & _).
    pose proof (urlparse_path_only _ Hh H1 Hp Hnp) as Ho.
    change (lit "/" ++ Py.join (lit "/") parts) with original_url in Ho.
    assert (path_parts original_url = parts) as Hsegments.
    { apply (path_parts_join parts).
      eapply Forall_impl; [done|]. intros q [Hne Hq]. split; [done|].
      intros Hin. eapply Forall_forall in Hq as (_ & ? & _); done. }
    split.
    + rewrite (is_lounge_detail_url_parsed _ _ Ho). cbn [path].
      by rewrite Hsegments.
    + apply (try_recover_short _ _ _ r Ho Hr). cbn [path].
      rewrite Hsegments. simpl. lia.
  - intros original_1 original_2 redirected_url o1 o2 Ho1 Ho2
      parts_1 parts_2 Hlen1 Hlen2 Hlast Hsecond.
    destruct (urlparse redirected_url) as [r|e] eqn:Hr.
    + destruct (last parts_1) as [detail|] eqn:Hl1.
      2:{ apply last_None in Hl1. rewrite Hl1 in Hlen1. simpl in Hlen1. lia. }
      destruct (parts_1 !! (length parts_1 - 2)) as [airport|] eqn:Hs1.
      2:{ apply lookup_ge_None in Hs1. lia. }
      rewrite (try_recover_parsed _ _ o1 r detail airport) by done.
      by rewrite (try_recover_parsed _ _ o2 r detail airport).
    + unfold try_recover_detail_url_from_redirect.
      by rewrite Ho1, Ho2, !bind_Ok, Hr.
Qed.

(** ** C7: the liveness check *)

(** C7 (amended). [check_url_ok] gives the verdict not-ok with the URL
    itself, without fetching, when the URL is not a detail URL.  Otherwise,
    [session_get] returning a response, the resolved URL is the final URL
    of the response, and the verdict is not-ok exactly when the final URL
    is not a detail URL, or the status is at least 400, or the first 2500
    characters of the body, in lower case, contain [page not found], or
    contain [404] without containing [lounge]. *)
Theorem check_url_ok_spec (session_get : str → result Response) (url : str) :
  (is_lounge_detail_url url = Ok false →
   check_url_ok session_get url = Ok (false, url))
  ∧ (∀ response final_is_detail,
       is_lounge_detail_url url = Ok true →
       session_get url = Ok response →
       is_lounge_detail_url (resp_url response) = Ok final_is_detail →
       let html_head := Py.lower (take 2500 (text response)) in
       ∃ ok, check_url_ok session_get url = Ok (ok, resp_url response)
             ∧ (ok = false
                ↔ final_is_detail = false
                  ∨ (400 ≤ status_code response)%Z
                  ∨ Py.contains html_head (lit "page not found") = true
                  ∨ (Py.contains html_head (lit "404") = true
                     ∧ Py.contains html_head (lit "lounge") = false))).
Proof.
  split.
  - intros Hurl. unfold check_url_ok. by rewrite Hurl.
  - intros response final_is_detail Hurl Hget Hfinal html_head.
    unfold check_url_ok.
    rewrite Hurl, bind_Ok. cbn [negb]. cbv iota.
    rewrite Hget, bind_Ok, Hfinal, bind_Ok. cbv zeta.
    assert (Py.or_else (text response) [] = text response) as ->
      by by destruct (text response).
    fold html_head.
    destruct final_is_detail; cbn [negb]; cbv iota.
    + eexists. split; [done|].
      destruct (Z.ltb_spec (status_code response) 400);
        destruct (Py.contains html_head (lit "page not found"));
        destruct (Py.contains html_head (lit "404"));
        destruct (Py.contains html_head (lit "lounge"));
        cbn; split; try done; try tauto; try lia;
        intros [?|[?|[?|[? ?]]]]; done || lia.
    + exists false. split; [done|]. tauto.
Qed.

End Claims.

(** ** C5: deduplication of the extracted records *)


(** ** C6: the rows of the map *)

(** C6. A row of the joined table is in the map dataset exactly when its
    airport is in the world table, carries the joined count of that
    airport, has a lounge ([lounge_count] filled with 0 is positive, which
    means that at least one lounge row has the airport's code) and has both
    coordinates.  So no row without latitude or without longitude is
    selected, whatever its count, and no row with count 0 or without count,
    whatever its coordinates. *)
Theorem build_map_df_spec :
  (∀ world rows e,
     e ∈ build_map_df world rows
     ↔ e ∈ merge_left world (group_lounge_count rows)
       ∧ has_priority_lounge e = true
       ∧ is_Some (latitude_deg (airport e))
       ∧ is_Some (longitude_deg (airport e)))
  ∧ (∀ world rows e,
       e ∈ merge_left world (group_lounge_count rows)
       ↔ ∃ a, a ∈ world
              ∧ e = mkEnriched a (group_lounge_count rows !! iata_code a))
  ∧ (∀ rows a,
       has_priority_lounge
         (mkEnriched a (group_lounge_count rows !! iata_code a)) = true
       ↔ 0 < lounge_rows_of rows (iata_code a))
  ∧ (∀ e, has_priority_lounge e = true ↔ ∃ n, lounge_count e = Some n ∧ 0 < n)
  ∧ (∀ world rows e,
       latitude_deg (airport e) = None ∨ longitude_deg (airport e) = None
       ∨ lounge_count e = None ∨ lounge_count e = Some 0 →
       e ∉ build_map_df world rows).
Proof.
  assert (∀ world rows e,
     e ∈ build_map_df world rows
     ↔ e ∈ merge_left world (group_lounge_count rows)
       ∧ has_priority_lounge e = true
       ∧ is_Some (latitude_deg (airport e))
       ∧ is_Some (longitude_deg (airport e))) as Hmap.
  { intros world rows e. unfold build_map_df, select_map_rows.
    rewrite list_elem_of_filter, !andb_true_iff.
    unfold notna.
    destruct (latitude_deg (airport e)), (longitude_deg (airport e));
      rewrite <-?not_eq_None_Some; naive_solver. }
  split_and!.
  - done.
  - intros world rows e. unfold merge_left. rewrite list_elem_of_fmap.
    naive_solver.
  - intros rows a. apply has_priority_lounge_joined.
  - intros e. unfold has_priority_lounge. rewrite Nat.ltb_lt.
    destruct (lounge_count e) as [n|]; simpl.
    + split; [by exists n | by intros (? & [= <-] & ?)].
    + split; [lia | by intros (? & [=] & _)].
  - intros world rows e Hmissing (_ & Hhas & Hlat & Hlon)%Hmap.
    unfold has_priority_lounge in Hhas. apply Nat.ltb_lt in Hhas.
    destruct Hmissing as [Hn|[Hn|[Hn|Hn]]]; rewrite Hn in *;
      by (apply is_Some_None in Hlat || apply is_Some_None in Hlon
          || simpl in Hhas; lia).
Qed.

(** ** C8: the airport's own IATA code *)

(** C8 (amended). For a title in ASCII, the airport's own IATA code is the
    first well-formed candidate (three upper-case letters), the candidates
    being, in this order: the code-derived IATA of every deduplicated lounge
    item, in list order; the IATA taken from the title marker, when the page
    has one; the tokens of three letters of the title put in upper case,
    which are all well-formed, each once, in the order of their first
    occurrence.  It is absent exactly when no candidate is well-formed. *)
Theorem pick_airport_iata_spec
    (lounge_items : list Item) (iata_from_title : option str) (title : str) :
  ascii_text title →
  let candidates :=
    omap iata_from_code lounge_items ++ option_list iata_from_title
      ++ extract_iata_candidates title in
  pick_airport_iata lounge_items iata_from_title title
  = head (filter well_formed_iata candidates)
  ∧ filter well_formed_iata candidates
    = filter well_formed_iata (omap iata_from_code lounge_items)
      ++ filter well_formed_iata (option_list iata_from_title)
      ++ extract_iata_candidates title
  ∧ extract_iata_candidates title
    = first_occurrences (Re.findall_tokens (Py.upper title))
  ∧ NoDup (extract_iata_candidates title)
  ∧ (∀ code, code ∈ extract_iata_candidates title
             ↔ title ≠ [] ∧ code ∈ Re.findall_tokens (Py.upper title))
  ∧ (pick_airport_iata lounge_items iata_from_title title = None
     ↔ Forall (λ c, ¬ well_formed_iata c) candidates).
Proof.
  intros _ candidates.
  assert (pick_airport_iata lounge_items iata_from_title title
          = head (filter well_formed_iata candidates)) as Hpick.
  { unfold pick_airport_iata. cbv zeta. rewrite list_find_head_filter.
    subst candidates. rewrite !filter_app. f_equal. f_equal; [|f_equal].
    - induction lounge_items as [|it items IH]; [done|]. rewrite !omap_cons.
      destruct (iata_from_code it) as [[|c code]|]; cbn [truthy_opt Py.truthy].
      + by rewrite filter_cons_False by done.
      + by rewrite !filter_cons, IH.
      + done.
    - destruct iata_from_title as [[|c code]|]; cbn [truthy_opt Py.truthy];
        [|done|done].
      by vm_compute. }
  split_and!.
  - done.
  - subst candidates. rewrite !filter_app.
    by rewrite (filter_all _ _ (extract_iata_candidates_well_formed title)).
  - apply extract_iata_candidates_first_occurrences.
  - rewrite extract_iata_candidates_first_occurrences.
    apply first_occurrences_NoDup.
  - apply extract_iata_candidates_elem.
  - rewrite Hpick. rewrite head_None. split.
    + intros Hnil. apply Forall_forall. intros c Hc Hgood.
      assert (c ∈ filter well_formed_iata candidates) as Hin
        by by apply list_elem_of_filter.
      rewrite Hnil in Hin. by apply elem_of_nil in Hin.
    + intros Hall. by apply filter_none.
Qed.

(** ** C9: the fatal case and the placeholders *)

(** C9. Step 3 raises [RuntimeError] exactly when no lounge item comes out
    of all the airport pages together.  Otherwise it goes on with one
    summary row per airport page, in completion order, the row of a page
    whose parse raised being the placeholder with empty fields, zero counts
    and the error, and with the lounge items of the pages that parsed. *)
Theorem scrape_airport_pages_spec (completed : list (str * result PageResult)) :
  scrape_airport_pages completed
  = match completed ≫= lounge_items_of_outcome with
    | [] =>
        Raise (RuntimeError "No lounge records found. Scraper output is empty.")
    | lounge_items_all =>
        Ok (summary_of_outcome <$> completed, lounge_items_all)
    end.
Proof.
  unfold scrape_airport_pages. rewrite foldl_collect_page. simpl.
  by destruct (completed ≫= lounge_items_of_outcome).
Qed.

(** * Further properties of the script *)

(** ** Plain text never makes the URL functions raise *)

Lemma Forall_lstrip_by (P : ascii → Prop) (f : ascii → bool) (s : str) :
  Forall P s → Forall P (Py.lstrip_by f s).
Proof.
  intros Hs. destruct (PyFacts.lstrip_by_spec f s) as (t & Heq & _).
  rewrite Heq in Hs. by apply Forall_app in Hs as [_ ?].
Qed.

Lemma Forall_rstrip_by (P : ascii → Prop) (f : ascii → bool) (s : str) :
  Forall P s → Forall P (Py.rstrip_by f s).
Proof.
  intros Hs. destruct (PyFacts.rstrip_by_spec f s) as (t & Heq & _).
  rewrite Heq in Hs. by apply Forall_app in Hs as [? _].
Qed.

Lemma Forall_strip (P : ascii → Prop) (s : str) :
  Forall P s → Forall P (Py.strip s).
Proof. intros Hs. by apply Forall_rstrip_by, Forall_lstrip_by. Qed.

Lemma Forall_remove_char (P : ascii → Prop) (c : ascii) (s : str) :
  Forall P s → Forall P (Py.remove_char c s).
Proof.
  intros Hs. apply Forall_forall. intros x [_ Hx]%list_elem_of_filter.
  rewrite Forall_forall in Hs. by apply Hs.
Qed.

Lemma Forall_remove_unsafe (P : ascii → Prop) (s : str) :
  Forall P s → Forall P (UrlLib.remove_unsafe s).
Proof.
  intros Hs. unfold UrlLib.remove_unsafe, UrlLib.unsafe_url_bytes. simpl.
  by do 3 apply Forall_remove_char.
Qed.

Lemma Forall_split_scheme (P : ascii → Prop) (s : str) :
  Forall P s → Forall P (UrlLib.split_scheme s).2.
Proof.
  intros Hs. unfold UrlLib.split_scheme.
  destruct (Py.find s ":") as [i|]; [|done]. destruct s as [|c s]; [done|].
  destruct (_ && _); [|done]. by apply Forall_drop.
Qed.

Lemma Forall_splitnetloc (P : ascii → Prop) (s : str) (start : nat) :
  Forall P s →
  Forall P (UrlLib.splitnetloc s start).1 ∧ Forall P (UrlLib.splitnetloc s start).2.
Proof.
  intros Hs. unfold UrlLib.splitnetloc. simpl.
  split; [by apply Forall_drop, Forall_take | by apply Forall_drop].
Qed.

Lemma Forall_split_once (P : ascii → Prop) (s : str) (sep : ascii) :
  Forall P s → Forall P (Py.split_once s sep).1.
Proof.
  intros Hs. unfold Py.split_once. destruct (Py.find s sep); [|done].
  by apply Forall_take.
Qed.

Lemma Forall_splitparams (P : ascii → Prop) (s : str) :
  Forall P s → Forall P (UrlLib.splitparams s).1.
Proof.
  intros Hs. unfold UrlLib.splitparams.
  destruct (Py.char_in s "/").
  - destruct (Py.find_from _ _ _); [by apply Forall_take | done].
  - destruct (Py.find s ";"); by apply Forall_take.
Qed.

Section PlainText.
Context `{!UrlChecks}.
Import UrlLib.

(** On plain text [urlparse] returns, and the netloc and the path it
    returns are plain text. *)
Lemma urlparse_plain (url : str) :
  Forall plain_char url →
  ∃ parsed, urlparse url = Ok parsed
            ∧ Forall plain_char (netloc parsed)
            ∧ Forall plain_char (path parsed).
Proof.
  intros Hurl. unfold urlparse, urlsplit.
  pose proof (Forall_split_scheme _ _
                (Forall_remove_unsafe _ _
                   (Forall_lstrip_by _ c0_control_or_space _ Hurl))) as Hrest.
  destruct (split_scheme _) as [sch rest]. simpl in Hrest.
  assert (∃ nl rest', split_authority rest = Ok (nl, rest')
                      ∧ Forall plain_char nl ∧ Forall plain_char rest')
    as (nl & rest' & -> & Hnl & Hrest').
  { unfold split_authority. case_bool_decide; [|by exists [], rest].
    destruct (Forall_splitnetloc _ _ 2 Hrest) as [Hnl Hrest'].
    destruct (splitnetloc rest 2) as [nl rest']. simpl in *.
    assert (∀ c, c = "["%char ∨ c = "]"%char → Py.char_in nl c = false) as Hno.
    { intros c Hc. apply PyFacts.char_in_false. intros Hin.
      eapply Forall_forall in Hnl as (_ & ? & ?); [|done]. by destruct Hc. }
    rewrite !Hno by auto. simpl. by exists nl, rest'. }
  rewrite bind_Ok.
  set (frag := if Py.char_in rest' "#" then Py.split_once rest' "#"
               else (rest', [])).
  assert (Forall plain_char frag.1) as Hfrag.
  { subst frag. destruct (Py.char_in rest' "#"); [|done].
    by apply Forall_split_once. }
  destruct frag as [url1 fragment]. simpl in Hfrag.
  set (qry := if Py.char_in url1 "?" then Py.split_once url1 "?"
              else (url1, [])).
  assert (Forall plain_char qry.1) as Hqry.
  { subst qry. destruct (Py.char_in url1 "?"); [|done].
    by apply Forall_split_once. }
  destruct qry as [url2 query]. simpl in Hqry.
  assert (checknetloc nl = true) as ->.
  { unfold checknetloc. replace (forallb Py.isascii nl) with true.
    - by rewrite orb_true_r.
    - symmetry. apply forallb_forall. intros c Hc%list_elem_of_In.
      by eapply Forall_forall in Hnl as (? & _). }
  rewrite bind_Ok.
  set (par := if bool_decide (sch ∈ uses_params) && Py.char_in url2 ";"
              then splitparams url2 else (url2, [])).
  assert (Forall plain_char par.1) as Hpar.
  { subst par. destruct (_ && _); [|done]. by apply Forall_splitparams. }
  destruct par as [url3 prm]. simpl in Hpar.
  eexists. by split_and!.
Qed.

End PlainText.

(** ** The canonical form *)

Lemma canonical_path_not_listing (selected : str) :
  Py.startswith (canonical_path selected) (lit "/lounges/") = false.
Proof.
  unfold canonical_path. cbv zeta.
  set (p := if negb _ then _ else _).
  by destruct (Py.startswith p (lit "/lounges/")) eqn:Hp.
Qed.

Lemma canonical_path_plain (selected : str) :
  Forall plain_char selected → Forall plain_char (canonical_path selected).
Proof.
  intros Hs. unfold canonical_path. cbv zeta.
  assert (Forall plain_char (lit "/")) as H1
    by (apply (bool_decide_unpack _); vm_compute; exact I).
  assert (Forall plain_char MY_PP_LANG_PREFIX) as H2
    by (apply (bool_decide_unpack _); vm_compute; exact I).
  destruct (negb _), (Py.startswith _ _); rewrite ?Forall_app; by split_and?.
Qed.

Section CanonicalForm.
Context `{!UrlChecks}.
Import UrlLib.

Lemma to_my_prioritypass_url_empty (x : str) :
  Py.strip x = [] → to_my_prioritypass_url x = Ok [].
Proof. intros He. unfold to_my_prioritypass_url. by rewrite He. Qed.

Lemma to_my_prioritypass_url_inv (x y : str) :
  to_my_prioritypass_url x = Ok y →
  (Py.strip x = [] ∧ y = [])
  ∨ (Py.strip x ≠ []
     ∧ ∃ parsed, urlparse (Py.strip x) = Ok parsed
                 ∧ y = MY_PP_BASE
                       ++ canonical_path
                            (if Py.truthy (netloc parsed) then path parsed
                             else Py.strip x)).
Proof.
  intros Hx. destruct (decide (Py.strip x = [])) as [He|Hne].
  - left. split; [done|]. rewrite to_my_prioritypass_url_empty in Hx by done.
    by injection Hx.
  - right. split; [done|].
    destruct (urlparse (Py.strip x)) as [parsed|e] eqn:Hp.
    + exists parsed. split; [done|].
      rewrite (to_my_prioritypass_url_parsed x parsed) in Hx by done.
      by injection Hx.
    + exfalso. unfold to_my_prioritypass_url in Hx.
      destruct (Py.strip x); [done|].
      change (negb (Py.truthy (a :: l))) with false in Hx. cbv iota in Hx.
      by rewrite Hp in Hx.
Qed.

(** X1. On ASCII text a result of [to_my_prioritypass_url] is empty, for a
    blank input, or a URL on the canonical host whose path starts with a
    slash and never with [/lounges/]: a listing path always gets the
    language prefix. *)
Theorem to_my_prioritypass_url_host (x y : str) :
  ascii_text x →
  to_my_prioritypass_url x = Ok y →
  (Py.strip x = [] ∧ y = [])
  ∨ (Py.strip x ≠ []
     ∧ ∃ p, y = MY_PP_BASE ++ p ∧ head p = Some "/"%char
            ∧ Py.startswith p (lit "/lounges/") = false).
Proof.
  intros _ [[? ?]|[Hne (parsed & _ & ->)]]%to_my_prioritypass_url_inv;
    [by left|right].
  split; [done|]. eexists. split; [done|].
  split; [apply canonical_path_head | apply canonical_path_not_listing].
Qed.

(** ** Plain text *)

Lemma to_my_prioritypass_url_plain (x : str) :
  Forall plain_char x →
  ∃ y, to_my_prioritypass_url x = Ok y ∧ Forall plain_char y.
Proof.
  intros Hx. pose proof (Forall_strip _ _ Hx) as Hraw.
  destruct (decide (Py.strip x = [])) as [He|Hne].
  { exists []. by rewrite to_my_prioritypass_url_empty. }
  destruct (urlparse_plain _ Hraw) as (parsed & Hparse & _ & Hpath).
  rewrite (to_my_prioritypass_url_parsed x parsed) by done.
  eexists. split; [done|]. apply Forall_app. split.
  - apply (bool_decide_unpack _). vm_compute. exact I.
  - apply canonical_path_plain. by destruct (Py.truthy _).
Qed.

Lemma is_lounge_detail_url_plain (url : str) :
  Forall plain_char url → ∃ b, is_lounge_detail_url url = Ok b.
Proof.
  intros Hurl. destruct (urlparse_plain _ Hurl) as (parsed & Hparse & _).
  rewrite (is_lounge_detail_url_parsed _ _ Hparse). by eexists.
Qed.

Lemma repair_duplicated_airport_segment_plain (url : str) :
  Forall plain_char url → ∃ y, repair_duplicated_airport_segment url = Ok y.
Proof.
  intros Hurl. destruct (urlparse_plain _ Hurl) as (parsed & Hparse & _).
  unfold repair_duplicated_airport_segment. rewrite Hparse, bind_Ok. cbv zeta.
  destruct (_ && _ && _); [by eexists|]. destruct (_ && _); by eexists.
Qed.

End CanonicalForm.

(** ** What [urlparse] returns as the path *)

Lemma take_head {A} (i : nat) (l : list A) :
  take i l = [] ∨ head (take i l) = head l.
Proof. destruct i, l; auto. Qed.

Lemma elem_of_take_inv {A} (x : A) (i : nat) (l : list A) :
  x ∈ take i l → x ∈ l.
Proof. intros Hx. rewrite <-(take_drop i l), elem_of_app. by left. Qed.

Lemma remove_unsafe_clean (s : str) :
  Forall (λ c, c ∉ UrlLib.unsafe_url_bytes) (UrlLib.remove_unsafe s).
Proof.
  unfold UrlLib.remove_unsafe, UrlLib.unsafe_url_bytes. simpl.
  apply Forall_forall. intros c Hc. unfold Py.remove_char in Hc.
  apply list_elem_of_filter in Hc as [H3 Hc].
  apply list_elem_of_filter in Hc as [H2 Hc].
  apply list_elem_of_filter in Hc as [H1 _].
  rewrite !elem_of_cons, elem_of_nil. tauto.
Qed.

(** The text in front of the first [c], the whole text when there is none *)
Lemma cut_spec (s : str) (c : ascii) :
  let r := (if Py.char_in s c then Py.split_once s c else (s, [])).1 in
  c ∉ r ∧ ∃ i, r = take i s.
Proof.
  cbv zeta. destruct (Py.char_in s c) eqn:Hc.
  - unfold Py.split_once. destruct (Py.find s c) as [i|] eqn:Hi.
    + apply PyFacts.find_Some in Hi as (a & b & -> & <- & Ha). simpl.
      rewrite take_app_length. split; [done|].
      exists (length a). by rewrite take_app_length.
    + apply PyFacts.find_None in Hi. by apply PyFacts.char_in_spec in Hc.
  - apply PyFacts.char_in_false in Hc. split; [done|].
    exists (length s). by rewrite firstn_all.
Qed.

Lemma splitnetloc_rest (s : str) (start : nat) :
  (UrlLib.splitnetloc s start).2 = []
  ∨ ∃ c, head (UrlLib.splitnetloc s start).2 = Some c ∧ c ∈ lit "/?#".
Proof.
  unfold UrlLib.splitnetloc. cbn [snd].
  set (step := λ (delim : nat) (c : ascii),
         match Py.find_from s c start with
         | Some wdelim => delim `min` wdelim
         | None => delim
         end).
  assert (∀ chars delim,
            (delim = length s ∨ ∃ c, s !! delim = Some c ∧ c ∈ lit "/?#") →
            Forall (λ c, c ∈ lit "/?#") chars →
            let d := foldl step delim chars in
            d = length s ∨ ∃ c, s !! d = Some c ∧ c ∈ lit "/?#") as Hfold.
  { induction chars as [|x chars IH]; intros delim Hd Hall; [done|].
    apply Forall_cons in Hall as [Hx Hall]. simpl. apply IH; [|done].
    unfold step. unfold Py.find_from.
    destruct (Py.find (drop start s) x) as [i|] eqn:Hi; [|done]. simpl.
    apply PyFacts.find_Some in Hi as (a & b & Hs & <- & _).
    assert (s !! (start + length a) = Some x) as Hsx.
    { rewrite <-lookup_drop, Hs. by rewrite list_lookup_middle. }
    destruct (Nat.min_spec delim (start + length a)) as [[_ ->]|[_ ->]];
      [done|]. right. by exists x. }
  specialize (Hfold (lit "/?#") (length s) (or_introl eq_refl)).
  destruct Hfold as [->|(c & Hc & Hin)].
  - by apply (bool_decide_unpack _).
  - left. by rewrite drop_all.
  - right. exists c. split; [|done].
    rewrite head_lookup, lookup_drop. by rewrite Nat.add_0_r.
Qed.

Lemma no_params_take_last_segment (a b1 : str) :
  ";"%char ∉ b1 → no_params (a ++ "/"%char :: b1).
Proof.
  intros Hb x y Heq. apply app_eq_inv in Heq as [(k & -> & Hk)|(k & -> & Hk)].
  - destruct k as [|c k]; [done|]. injection Hk as <- ->.
    rewrite elem_of_app. right. left.
  - destruct k as [|c k]; [done|]. injection Hk as <- ->.
    destruct Hb. rewrite elem_of_app. right. left.
Qed.

Lemma splitparams_spec (s : str) :
  Py.char_in s ";" = true →
  no_params (UrlLib.splitparams s).1 ∧ ∃ i, (UrlLib.splitparams s).1 = take i s.
Proof.
  intros Hsemi. unfold UrlLib.splitparams.
  destruct (Py.char_in s "/") eqn:Hslash.
  - apply PyFacts.char_in_spec in Hslash.
    destruct (Py.rfind s "/") as [r|] eqn:Hr;
      [|by apply PyFacts.rfind_None in Hr].
    apply PyFacts.rfind_Some in Hr as (a & b & -> & <- & Hb). simpl.
    unfold Py.find_from. rewrite drop_app_length. simpl.
    destruct (Py.find b ";") as [j|] eqn:Hj; simpl.
    + apply PyFacts.find_Some in Hj as (b1 & b2 & -> & <- & Hb1).
      replace (take (length a + S (length b1)) (a ++ "/"%char :: b1 ++ ";"%char :: b2))
        with (a ++ "/"%char :: b1).
      * split; [by apply no_params_take_last_segment|].
        exists (length (a ++ "/"%char :: b1)).
        by rewrite (app_comm_cons b1), (assoc_L (++)), take_app_length.
      * rewrite (app_comm_cons b1), (assoc_L (++)).
        replace (length a + S (length b1)) with (length (a ++ "/"%char :: b1))
          by (rewrite length_app; simpl; lia).
        by rewrite take_app_length.
    + split; [|exists (length (a ++ "/"%char :: b)); by rewrite firstn_all].
      apply no_params_take_last_segment. by apply PyFacts.find_None.
  - destruct (Py.find s ";") as [i|] eqn:Hi.
    + apply PyFacts.find_Some in Hi as (a & b & -> & <- & Ha). simpl.
      rewrite take_app_length. split.
      * by apply no_semicolon_no_params.
      * exists (length a). by rewrite take_app_length.
    + apply PyFacts.find_None in Hi. by apply PyFacts.char_in_spec in Hsemi.
Qed.

Section ParsedPath.
Context `{!UrlChecks}.
Import UrlLib.

Lemma split_authority_inv (s netloc rest : str) :
  split_authority s = Ok (netloc, rest) →
  (netloc = [] ∧ rest = s) ∨ (netloc, rest) = splitnetloc s 2.
Proof.
  unfold split_authority. case_bool_decide; [|intros [= <- <-]; by left].
  destruct (splitnetloc s 2) as [nl r].
  destruct (_ || _); [done|]. destruct (_ && _); [done|].
  intros [= <- <-]. by right.
Qed.

(** The path that [urlparse] returns has no character that ends or leaves a
    path; it has no parameter left when the scheme is one with parameters;
    behind a host it is empty or starts with a slash. *)
Lemma urlparse_path (url : str) (parsed : ParseResult) :
  urlparse url = Ok parsed →
  Forall path_char (path parsed)
  ∧ (scheme parsed ∈ uses_params → no_params (path parsed))
  ∧ (netloc parsed ≠ [] → path parsed = [] ∨ head (path parsed) = Some "/"%char).
Proof.
  unfold urlparse, urlsplit. intros Hparse.
  pose proof (Forall_split_scheme _ _
                (remove_unsafe_clean (Py.lstrip_by c0_control_or_space url)))
    as Hclean.
  destruct (split_scheme _) as [sch rest0]. simpl in Hclean.
  apply bind_Ok_inv in Hparse as ([[[[sch' nl] url2] qry] frg] & Hsplit & Hparse).
  apply bind_Ok_inv in Hsplit as ([nl' rest] & Hauth & Hsplit).
  pose proof (cut_spec rest "#") as Hfrag. cbv zeta in Hfrag.
  destruct (if Py.char_in rest "#" then Py.split_once rest "#" else (rest, []))
    as [url1 frg'].
  pose proof (cut_spec url1 "?") as Hqry. cbv zeta in Hqry.
  destruct (if Py.char_in url1 "?" then Py.split_once url1 "?" else (url1, []))
    as [url2' qry'].
  destruct (checknetloc nl'); [|done]. injection Hsplit as <- <- <- <- <-.
  simpl in Hfrag, Hqry.
  destruct Hfrag as (Hnofrag & i1 & ->). destruct Hqry as (Hnoqry & i2 & ->).
  assert (Forall (λ c, c ∉ unsafe_url_bytes) rest
          ∧ (nl' ≠ [] → rest = [] ∨ ∃ c, head rest = Some c ∧ c ∈ lit "/?#"))
    as [Hrest Hhead].
  { apply split_authority_inv in Hauth as [[-> ->]|Heq]; [done|].
    destruct (Forall_splitnetloc _ _ 2 Hclean) as [_ Hr].
    pose proof (splitnetloc_rest rest0 2) as Hh.
    rewrite <-Heq in Hr, Hh. by split. }
  remember (take i2 (take i1 rest)) as url2 eqn:Hurl2.
  assert (Forall path_char url2) as Hpc.
  { apply Forall_forall. intros c Hc. split_and!.
    - eapply Forall_forall in Hrest; [done|]. subst url2.
      by eapply elem_of_take_inv, elem_of_take_inv.
    - by intros ->.
    - intros ->. apply Hnofrag. subst url2. by eapply elem_of_take_inv. }
  assert (nl' ≠ [] → url2 = [] ∨ head url2 = Some "/"%char) as Hh2.
  { intros Hnl. destruct (Hhead Hnl) as [->|(c & Hc & Hin)].
    { left. subst url2. by rewrite !take_nil. }
    destruct (take_head i2 (take i1 rest)) as [H2|H2]; [left; congruence|].
    destruct (take_head i1 rest) as [H1|H1].
    { left. subst url2. by rewrite H1, take_nil. }
    assert (head url2 = Some c) as Hu by (subst url2; by rewrite H2, H1).
    right. rewrite Hu. f_equal.
    assert (c ∈ url2) as Hcin.
    { destruct url2 as [|x u]; [done|]. injection Hu as ->. left. }
    unfold lit in Hin. simpl in Hin.
    rewrite !elem_of_cons, elem_of_nil in Hin.
    destruct Hin as [->|[->|[->|[]]]]; [done|by destruct Hnoqry|].
    destruct Hnofrag. subst url2. by eapply elem_of_take_inv. }
  clear Hurl2.
  destruct (bool_decide (sch ∈ uses_params) && Py.char_in url2 ";") eqn:Hpar.
  - apply andb_true_iff in Hpar as [Hsch Hsemi].
    destruct (splitparams_spec url2 Hsemi) as (Hnp & i3 & Hi3).
    destruct (splitparams url2) as [p prm]. simpl in Hnp, Hi3.
    injection Hparse as <-. cbn [path scheme netloc]. subst p. split_and!.
    + by apply Forall_take.
    + done.
    + intros Hnl. destruct (Hh2 Hnl) as [->|Hu]; [left; by rewrite take_nil|].
      destruct (take_head i3 url2) as [?|H3]; [by left|]. right. by rewrite H3.
  - injection Hparse as <-. cbn [path scheme netloc]. split_and!; [done| |done].
    intros Hsch. apply no_semicolon_no_params.
    rewrite (bool_decide_true _ Hsch) in Hpar. simpl in Hpar.
    by apply PyFacts.char_in_false.
Qed.

(** A text that starts with a slash and a character that is neither a slash
    nor deleted by [urlsplit] has no host. *)
Lemma urlparse_no_host (x : ascii) (k : str) (parsed : ParseResult) :
  x ≠ "/"%char → x ∉ unsafe_url_bytes →
  urlparse ("/"%char :: x :: k) = Ok parsed → netloc parsed = [].
Proof.
  intros Hx Hsafe. unfold urlparse, urlsplit.
  change (Py.lstrip_by c0_control_or_space ("/"%char :: x :: k))
    with ("/"%char :: x :: k).
  assert (remove_unsafe ("/"%char :: x :: k) = "/"%char :: x :: remove_unsafe k)
    as ->.
  { unfold remove_unsafe, unsafe_url_bytes in *. simpl. unfold Py.remove_char.
    rewrite !not_elem_of_cons in Hsafe. destruct Hsafe as (? & ? & ? & _).
    rewrite (filter_cons_True _ "/"%char) by done.
    rewrite (filter_cons_True _ x) by done.
    rewrite (filter_cons_True _ "/"%char) by done.
    rewrite (filter_cons_True _ x) by done.
    rewrite (filter_cons_True _ "/"%char) by done.
    by rewrite (filter_cons_True _ x) by done. }
  rewrite split_scheme_none by (by intros c [= <-]).
  rewrite split_authority_none by (intros [= ->]; done).
  rewrite bind_Ok.
  destruct (if Py.char_in _ "#" then _ else _) as [url1 frg].
  destruct (if Py.char_in url1 "?" then _ else _) as [url2 qry].
  change (checknetloc []) with true. cbv iota. rewrite bind_Ok.
  destruct (if _ && _ then _ else _) as [p prm]. by intros [= <-].
Qed.

End ParsedPath.

(** ** The canonical form of a detail URL *)

Lemma path_parts_cons_slash (k : str) :
  path_parts ("/"%char :: k) = path_parts k.
Proof.
  rewrite !path_parts_split. simpl. by rewrite filter_cons_False by naive_solver.
Qed.

Lemma path_parts_cons_segment (seg k : str) :
  seg ≠ [] → "/"%char ∉ seg →
  path_parts (seg ++ "/"%char :: k) = seg :: path_parts k.
Proof.
  intros Hne Hseg. rewrite !path_parts_split.
  rewrite PyFacts.split_app_sep by done. by rewrite filter_cons_True.
Qed.

(** The canonical path is the selected path behind a slash, when it has
    none in front, and behind the language prefix, when it is a listing
    path. *)
Lemma canonical_path_app (selected : str) :
  ∃ a, canonical_path selected = a ++ selected
       ∧ Forall (λ c, path_char c ∧ c ≠ ";"%char) a.
Proof.
  unfold canonical_path. cbv zeta.
  assert (∀ s : string, bool_decide (Forall (λ c, path_char c ∧ c ≠ ";"%char) (lit s))
                        = true →
                        Forall (λ c, path_char c ∧ c ≠ ";"%char) (lit s)) as Hlit
    by (intros s Hs; by apply bool_decide_eq_true in Hs).
  destruct (negb _), (Py.startswith _ _).
  - exists (lit "/en-GB/"). split; [done|]. by apply Hlit.
  - exists (lit "/"). split; [done|]. by apply Hlit.
  - exists (lit "/en-GB"). split; [done|]. by apply Hlit.
  - exists []. by split.
Qed.

Lemma detail_shape_canonical_path (p : str) :
  head p = Some "/"%char → detail_shape (path_parts p) →
  detail_shape (path_parts (canonical_path p)).
Proof.
  intros Hh Hd. unfold canonical_path.
  destruct p as [|c k]; [done|]. injection Hh as ->.
  change (Py.startswith ("/"%char :: k) (lit "/")) with true.
  cbn [negb]. cbv iota zeta.
  destruct (Py.startswith ("/"%char :: k) (lit "/lounges/")) eqn:Hl; [|done].
  apply PyFacts.startswith_spec in Hl as [k' Hk'].
  assert (k = lit "lounges" ++ "/"%char :: k') as -> by by injection Hk'.
  change (MY_PP_LANG_PREFIX ++ ?x) with ("/"%char :: lit "en-GB" ++ x).
  rewrite path_parts_cons_slash in Hd.
  rewrite path_parts_cons_slash, path_parts_cons_segment;
    [|done|by apply (bool_decide_unpack _)].
  rewrite path_parts_cons_segment in Hd |- *;
    [|done|by apply (bool_decide_unpack _)..].
  left. split.
  - destruct Hd as [[? _]|[? _]]; simpl in *; lia.
  - by split.
Qed.

Lemma Forall_split (P : ascii → Prop) (s : str) (sep : ascii) :
  Forall P s → Forall (Forall P) (Py.split s sep).
Proof.
  induction 1 as [|c s Hc Hs IH]; simpl; [by repeat constructor|].
  case_bool_decide.
  - by constructor.
  - destruct (Py.split s sep) as [|h t]; [by repeat constructor|].
    apply Forall_cons in IH as [Hh Ht]. by repeat constructor.
Qed.

Lemma Forall_path_parts (P : ascii → Prop) (p : str) :
  Forall P p → Forall (Forall P) (path_parts p).
Proof.
  intros Hp. rewrite path_parts_split. apply Forall_forall.
  intros seg [_ Hseg]%list_elem_of_filter.
  pose proof (Forall_split P p "/" Hp) as Hall.
  rewrite Forall_forall in Hall. by apply Hall.
Qed.

Section DetailUrls.
Context `{!UrlChecks}.
Import UrlLib.

(** The canonical form of a URL with a host, from what [urlparse] returns
    for it *)
Lemma to_my_prioritypass_url_absolute (url : str) (parsed : ParseResult) :
  urlparse url = Ok parsed → Py.strip url = url →
  netloc parsed ≠ [] → scheme parsed ∈ uses_params →
  is_lounge_detail_url url = Ok true →
  to_my_prioritypass_url url = Ok (MY_PP_BASE ++ canonical_path (path parsed))
  ∧ is_lounge_detail_url (MY_PP_BASE ++ canonical_path (path parsed)) = Ok true.
Proof.
  intros Hparse Hstrip Hnl Hsch Hd.
  rewrite (is_lounge_detail_url_parsed _ _ Hparse) in Hd.
  injection Hd as Hd. apply bool_decide_eq_true in Hd.
  destruct (urlparse_path _ _ Hparse) as (Hpc & Hnp & Hh).
  specialize (Hnp Hsch). destruct (Hh Hnl) as [He|Hhead].
  { rewrite He in Hd. destruct Hd as [[Hlen _]|[Hlen _]]; simpl in Hlen; lia. }
  split.
  - rewrite (to_my_prioritypass_url_parsed url parsed).
    + by destruct (netloc parsed).
    + rewrite Hstrip. intros ->. by injection Hparse as <-.
    + by rewrite Hstrip.
  - destruct (canonical_path_app (path parsed)) as (a & Ha & Hall).
    rewrite is_lounge_detail_url_canonical.
    + f_equal. apply bool_decide_eq_true. by apply detail_shape_canonical_path.
    + apply canonical_path_head.
    + rewrite Ha. apply Forall_app. split; [|done].
      eapply Forall_impl; [done|]. by intros c [? _].
    + rewrite Ha. apply no_params_app; [|done]. intros Hin.
      eapply Forall_forall in Hall as [_ ?]; done.
Qed.

(** X2. The canonical form of an absolute detail URL is a detail URL: when
    [url] is in ASCII, has a host, a scheme with parameters (as http and
    https have) and no white space around it, and the classifier accepts
    it, then
    [to_my_prioritypass_url] returns a URL on the canonical host that the
    classifier accepts too, whose path is the path of [url], behind the
    language prefix when it starts with [/lounges/]. *)
Theorem to_my_prioritypass_url_keeps_detail (url : str) :
  absolute_url url → is_lounge_detail_url url = Ok true →
  ∃ parsed p,
    urlparse url = Ok parsed
    ∧ p = (if Py.startswith (path parsed) (lit "/lounges/")
           then MY_PP_LANG_PREFIX ++ path parsed else path parsed)
    ∧ to_my_prioritypass_url url = Ok (MY_PP_BASE ++ p)
    ∧ is_lounge_detail_url (MY_PP_BASE ++ p) = Ok true.
Proof.
  intros (_ & Hstrip & parsed & Hparse & Hnl & Hsch) Hd.
  destruct (to_my_prioritypass_url_absolute url parsed) as [Hy Hdy]; try done.
  exists parsed. eexists. split; [done|]. split; [done|].
  assert (canonical_path (path parsed)
          = if Py.startswith (path parsed) (lit "/lounges/")
            then MY_PP_LANG_PREFIX ++ path parsed else path parsed) as <-;
    [|done].
  rewrite (is_lounge_detail_url_parsed _ _ Hparse) in Hd.
  injection Hd as Hd. apply bool_decide_eq_true in Hd.
  destruct (urlparse_path _ _ Hparse) as (_ & _ & Hh).
  destruct (Hh Hnl) as [He|Hhead].
  { rewrite He in Hd. destruct Hd as [[Hlen _]|[Hlen _]]; simpl in Hlen; lia. }
  unfold canonical_path. destruct (path parsed) as [|c k]; [done|].
  by injection Hhead as ->.
Qed.

(** ** Plain text, continued *)

Lemma detail_path_plain (country airport detail : str) :
  Forall plain_char country → Forall plain_char airport →
  Forall plain_char detail →
  Forall plain_char (detail_path country airport detail).
Proof.
  intros Hc Ha Hd. unfold detail_path. rewrite !Forall_app.
  split_and!; try done; by apply (bool_decide_unpack _).
Qed.

Lemma detail_or_none_plain (x : str) :
  Forall plain_char x →
  ∃ r, (candidate ← to_my_prioritypass_url x; detail_or_none candidate) = Ok r.
Proof.
  intros Hx. destruct (to_my_prioritypass_url_plain x Hx) as (y & -> & Hy).
  rewrite bind_Ok. unfold detail_or_none.
  destruct (is_lounge_detail_url_plain y Hy) as (b & ->). by eexists.
Qed.

Lemma rebuild_if_detail_plain (country airport detail : str) :
  Forall plain_char country → Forall plain_char airport →
  Forall plain_char detail →
  ∃ r, rebuild_if_detail country airport detail = Ok r.
Proof.
  intros Hc Ha Hd. unfold rebuild_if_detail.
  destruct (to_my_prioritypass_url_plain _ (detail_path_plain _ _ _ Hc Ha Hd))
    as (y & -> & Hy).
  rewrite bind_Ok. destruct (is_lounge_detail_url_plain y Hy) as (b & ->).
  by eexists.
Qed.

Lemma recover_from_parts_plain (detail original_airport : str)
    (r_parts : list str) :
  Forall plain_char detail → Forall plain_char original_airport →
  Forall (Forall plain_char) r_parts →
  ∃ r, recover_from_parts detail original_airport r_parts = Ok r.
Proof.
  intros Hd Ha Hr. unfold recover_from_parts. cbv zeta.
  set (pre := bool_decide _ && bool_decide _). clearbody pre.
  assert (∀ i x, r_parts !! i = Some x → Forall plain_char x) as Hseg
    by (intros i x Hx; by eapply Forall_lookup_1 in Hr).
  assert (∃ first,
            (if (4 <=? length r_parts) && pre
             then country_slug ← Py.getitem r_parts 2;
                  airport_slug ← Py.getitem r_parts 3;
                  rebuild_if_detail country_slug airport_slug detail
             else Ok None) = Ok first) as (first & ->).
  { destruct (Nat.leb_spec 4 (length r_parts)) as [Hlen|_]; [|by eexists].
    destruct pre; [|by eexists]. cbn [andb].
    destruct (lookup_lt_is_Some_2 r_parts 2) as [c Hc]; [lia|].
    destruct (lookup_lt_is_Some_2 r_parts 3) as [a Ha3]; [lia|].
    change 2%Z with (Z.of_nat 2). change 3%Z with (Z.of_nat 3).
    rewrite (PyFacts.getitem_index _ _ _ Hc), (PyFacts.getitem_index _ _ _ Ha3).
    rewrite !bind_Ok. apply rebuild_if_detail_plain; eauto. }
  rewrite bind_Ok. destruct first; [by eexists|].
  destruct (Nat.eqb_spec (length r_parts) 3) as [Hlen|_]; [|by eexists].
  destruct pre; [|by eexists]. cbn [andb].
  destruct (lookup_lt_is_Some_2 r_parts 2) as [c Hc]; [lia|].
  change 2%Z with (Z.of_nat 2).
  rewrite (PyFacts.getitem_index _ _ _ Hc), bind_Ok.
  apply rebuild_if_detail_plain; eauto.
Qed.

(** X3. On plain text (ASCII without square bracket) the canonicaliser, the
    classifier and the repair never raise, and the canonical form is plain
    text again. *)
Theorem url_functions_accept_plain_text (url : str) :
  Forall plain_char url →
  (∃ y, to_my_prioritypass_url url = Ok y ∧ Forall plain_char y)
  ∧ (∃ b, is_lounge_detail_url url = Ok b)
  ∧ (∃ y, repair_duplicated_airport_segment url = Ok y).
Proof.
  intros Hurl. split_and!.
  - by apply to_my_prioritypass_url_plain.
  - by apply is_lounge_detail_url_plain.
  - by apply repair_duplicated_airport_segment_plain.
Qed.

(** X4. On plain text the normalisation of an anchor and the recovery from
    a redirect never raise: they return a URL or nothing. *)
Theorem normalize_and_recover_accept_plain_text :
  (∀ country href,
     Forall plain_char country → Forall plain_char href →
     ∃ r, normalize_lounge_detail_url country href = Ok r)
  ∧ (∀ original_url redirected_url,
       Forall plain_char original_url → Forall plain_char redirected_url →
       ∃ r, try_recover_detail_url_from_redirect original_url redirected_url
            = Ok r).
Proof.
  split.
  - intros country href Hc Hh. unfold normalize_lounge_detail_url.
    destruct (negb (Py.truthy href)); [by eexists|]. cbv zeta.
    pose proof (Forall_strip _ _ Hh) as Hs.
    destruct (_ || _); [by eexists|].
    destruct (_ || _); [by apply detail_or_none_plain|].
    destruct (Py.startswith _ _); [by apply detail_or_none_plain|].
    destruct (negb _); [by eexists|].
    apply detail_or_none_plain. rewrite !Forall_app. split_and!; try done.
    + by apply (bool_decide_unpack _).
    + by apply (bool_decide_unpack _).
    + by apply Forall_lstrip_by.
  - intros original_url redirected_url Ho Hr.
    destruct (urlparse_plain _ Ho) as (o & Hop & _ & Hopath).
    destruct (urlparse_plain _ Hr) as (r & Hrp & _ & Hrpath).
    unfold try_recover_detail_url_from_redirect.
    rewrite Hop, bind_Ok, Hrp, bind_Ok. cbv zeta.
    pose proof (Forall_path_parts _ _ Hopath) as Hoparts.
    pose proof (Forall_path_parts _ _ Hrpath) as Hrparts.
    destruct (Nat.ltb_spec (length (path_parts (path o))) 5) as [|Hlen];
      [by eexists|].
    destruct (lookup_lt_is_Some_2 (path_parts (path o))
                (length (path_parts (path o)) - 1)) as [d Hd]; [lia|].
    destruct (lookup_lt_is_Some_2 (path_parts (path o))
                (length (path_parts (path o)) - 2)) as [a Ha]; [lia|].
    rewrite (PyFacts.getitem_last _ d), bind_Ok
      by (by rewrite last_lookup, <-Nat.sub_1_r).
    rewrite (PyFacts.getitem_second_last _ a), bind_Ok by (done || lia).
    apply recover_from_parts_plain; [..|done];
      by eapply Forall_lookup_1 in Hoparts.
Qed.

End DetailUrls.

(** ** The normalisation of an anchor *)

Lemma slug_no_slash (s : str) : slug s → "/"%char ∉ s.
Proof.
  intros [_ Hs] Hin. eapply Forall_forall in Hs as (_ & ? & _); done.
Qed.

Section Normalize.
Context `{!UrlChecks}.
Import UrlLib.

Lemma detail_or_none_inv (x u : str) :
  (candidate ← to_my_prioritypass_url x; detail_or_none candidate)
  = Ok (Some u) →
  to_my_prioritypass_url x = Ok u ∧ is_lounge_detail_url u = Ok true.
Proof.
  intros (y & Hy & Hd)%bind_Ok_inv. unfold detail_or_none in Hd.
  apply bind_Ok_inv in Hd as (b & Hb & Hd). destruct b; [|done].
  injection Hd as <-. by split.
Qed.

(** A detail URL that the canonicaliser has returned is on the canonical
    host. *)
Lemma canonical_detail_url (x u : str) :
  to_my_prioritypass_url x = Ok u → is_lounge_detail_url u = Ok true →
  ∃ p, u = MY_PP_BASE ++ p ∧ head p = Some "/"%char
       ∧ Py.startswith p (lit "/lounges/") = false.
Proof.
  intros Hx Hu.
  apply to_my_prioritypass_url_inv in Hx as [[_ ->]|[_ (parsed & _ & ->)]];
    [done|].
  eexists. split; [done|].
  split; [apply canonical_path_head | apply canonical_path_not_listing].
Qed.

(** The text that [normalize_lounge_detail_url] has canonicalised *)
Lemma normalize_lounge_detail_url_inv (country href u : str) :
  normalize_lounge_detail_url country href = Ok (Some u) →
  is_lounge_detail_url u = Ok true
  ∧ Py.strip href ≠ []
  ∧ Py.startswith (Py.strip href) (lit "#") = false
  ∧ (to_my_prioritypass_url (Py.strip href) = Ok u
     ∨ (country ≠ []
        ∧ Py.startswith (Py.strip href) (lit "/") = false
        ∧ to_my_prioritypass_url
            (lit "/lounges/" ++ country ++ lit "/"
               ++ Py.lstrip_chars (lit "/") (Py.strip href)) = Ok u)).
Proof.
  unfold normalize_lounge_detail_url. intros Hn.
  destruct (negb (Py.truthy href)); [done|]. cbv zeta in Hn.
  destruct (Py.strip href) as [|c raw] eqn:Hraw; [done|].
  change (negb (Py.truthy (c :: raw))) with false in Hn.
  rewrite orb_false_l in Hn.
  destruct (Py.startswith (c :: raw) (lit "#")) eqn:Hhash; [done|].
  destruct (_ || _).
  { apply detail_or_none_inv in Hn as [? ?]. split_and!; auto. }
  destruct (Py.startswith (c :: raw) (lit "/")) eqn:Hslash.
  { apply detail_or_none_inv in Hn as [? ?]. split_and!; auto. }
  destruct country as [|k country]; [done|].
  change (negb (Py.truthy (k :: country))) with false in Hn. cbv iota in Hn.
  apply detail_or_none_inv in Hn as [? ?]. split_and!; auto.
Qed.

(** X5. For a country and an anchor in ASCII, what
    [normalize_lounge_detail_url] returns is a detail URL on the canonical
    host: the canonical form of the anchor, when this starts with a scheme
    or a slash, else of the anchor behind [/lounges/<country>/]; nothing is
    returned for a blank anchor, a fragment, or a relative anchor on a page
    without country. *)
Theorem normalize_lounge_detail_url_sound (country href u : str) :
  ascii_text country → ascii_text href →
  normalize_lounge_detail_url country href = Ok (Some u) →
  is_lounge_detail_url u = Ok true
  ∧ (∃ p, u = MY_PP_BASE ++ p ∧ head p = Some "/"%char
          ∧ Py.startswith p (lit "/lounges/") = false)
  ∧ Py.strip href ≠ []
  ∧ Py.startswith (Py.strip href) (lit "#") = false
  ∧ (to_my_prioritypass_url (Py.strip href) = Ok u
     ∨ (country ≠ []
        ∧ Py.startswith (Py.strip href) (lit "/") = false
        ∧ to_my_prioritypass_url
            (lit "/lounges/" ++ country ++ lit "/"
               ++ Py.lstrip_chars (lit "/") (Py.strip href)) = Ok u)).
Proof.
  intros _ _ (Hd & Hne & Hhash & Hfrom)%normalize_lounge_detail_url_inv.
  split_and!; try done.
  destruct Hfrom as [Hx|(_ & _ & Hx)]; by eapply canonical_detail_url.
Qed.

Lemma is_lounge_detail_url_detail_path (country airport detail : str) :
  slug country → slug airport → slug detail →
  is_lounge_detail_url (MY_PP_BASE ++ detail_path country airport detail)
  = Ok true.
Proof.
  intros Hc Ha Hd.
  pose proof (rebuild_if_detail_slugs country airport detail Hc Ha Hd) as Hr.
  unfold rebuild_if_detail in Hr.
  apply bind_Ok_inv in Hr as (y & Hy & Hr).
  apply bind_Ok_inv in Hr as (b & Hb & Hr).
  destruct b; [|done]. by injection Hr as ->.
Qed.

Lemma to_my_prioritypass_url_listing_path (country airport detail : str) :
  slug country → slug airport → slug detail →
  to_my_prioritypass_url
    (lit "/lounges/" ++ country ++ lit "/" ++ airport ++ lit "/" ++ detail)
  = Ok (MY_PP_BASE ++ detail_path country airport detail).
Proof.
  intros Hc Ha Hd.
  assert (slug (lit "lounges")) as Hl by by apply (bool_decide_unpack _).
  pose (parts := [lit "lounges"; country; airport; detail]).
  assert (Forall slug parts) as Hparts by (subst parts; all_slugs).
  destruct (joined_path_ok parts Hparts) as (Hh & H1 & Hsemi & Hst).
  change (lit "/" ++ Py.join (lit "/") parts)
    with (lit "/lounges/" ++ country ++ lit "/" ++ airport ++ lit "/" ++ detail)
    in *.
  by rewrite to_my_prioritypass_url_path.
Qed.

End Normalize.

Lemma lookup_one_slash (a d : str) (i : nat) :
  "/"%char ∉ a → "/"%char ∉ d →
  (a ++ "/"%char :: d) !! i = Some "/"%char → i = length a.
Proof.
  intros Ha Hd Hi. destruct (Nat.lt_trichotomy i (length a)) as [Hlt|[->|Hgt]].
  - rewrite lookup_app_l in Hi by done. by apply list_elem_of_lookup_2 in Hi.
  - done.
  - rewrite lookup_app_r in Hi by lia.
    destruct (i - length a) as [|j] eqn:Hj; [lia|]. simpl in Hi.
    by apply list_elem_of_lookup_2 in Hi.
Qed.

(** A relative link [airport/detail] does not start with a scheme. *)
Lemma card_link_no_scheme (airport detail : str) :
  "/"%char ∉ airport → "/"%char ∉ detail →
  Py.startswith (airport ++ lit "/" ++ detail) (lit "http://") = false
  ∧ Py.startswith (airport ++ lit "/" ++ detail) (lit "https://") = false.
Proof.
  intros Ha Hd. change (lit "/" ++ detail) with ("/"%char :: detail).
  split.
  - destruct (Py.startswith _ _) eqn:Hs; [|done].
    apply PyFacts.startswith_spec in Hs as [k Hk].
    pose proof (lookup_one_slash airport detail 5 Ha Hd) as H5.
    pose proof (lookup_one_slash airport detail 6 Ha Hd) as H6.
    rewrite Hk in H5, H6. specialize (H5 eq_refl). specialize (H6 eq_refl). lia.
  - destruct (Py.startswith _ _) eqn:Hs; [|done].
    apply PyFacts.startswith_spec in Hs as [k Hk].
    pose proof (lookup_one_slash airport detail 6 Ha Hd) as H6.
    pose proof (lookup_one_slash airport detail 7 Ha Hd) as H7.
    rewrite Hk in H6, H7. specialize (H6 eq_refl). specialize (H7 eq_refl). lia.
Qed.

Lemma startswith_needs_slash (s pre : str) :
  "/"%char ∉ s → "/"%char ∈ pre → Py.startswith s pre = false.
Proof.
  intros Hs Hpre. destruct (Py.startswith s pre) eqn:Hsw; [|done].
  apply PyFacts.startswith_spec in Hsw as [k ->].
  destruct Hs. rewrite elem_of_app. by left.
Qed.

Section CardLinks.
Context `{!UrlChecks}.
Import UrlLib.

Lemma normalize_relative (country href : str) :
  country ≠ [] → href ≠ [] → Py.strip href = href →
  Py.startswith href (lit "#") = false →
  Py.startswith href (lit "http://") = false →
  Py.startswith href (lit "https://") = false →
  Py.startswith href (lit "/") = false →
  normalize_lounge_detail_url country href
  = (candidate ← to_my_prioritypass_url
                   (lit "/lounges/" ++ country ++ lit "/" ++ href);
     detail_or_none candidate).
Proof.
  intros Hc Hne Hstrip Hhash Hhttp Hhttps Hslash.
  unfold normalize_lounge_detail_url. cbv zeta. rewrite Hstrip.
  destruct href as [|x href]; [done|].
  change (negb (Py.truthy (x :: href))) with false. cbv iota.
  rewrite Hhash, Hhttp, Hhttps, Hslash. cbn [orb]. cbv iota.
  destruct country as [|k country]; [done|].
  change (negb (Py.truthy (k :: country))) with false. cbv iota.
  unfold Py.lstrip_chars. rewrite PyFacts.lstrip_by_id; [done|].
  intros y [= <-]. simpl in Hslash. unfold Py.char_in.
  apply bool_decide_eq_false. unfold lit. simpl.
  rewrite list_elem_of_singleton. intros ->.
  by rewrite bool_decide_true in Hslash.
Qed.

Lemma normalize_rooted (country href : str) :
  href ≠ [] → Py.strip href = href →
  Py.startswith href (lit "#") = false →
  Py.startswith href (lit "http://") || Py.startswith href (lit "https://")
  || Py.startswith href (lit "/") = true →
  normalize_lounge_detail_url country href
  = (candidate ← to_my_prioritypass_url href; detail_or_none candidate).
Proof.
  intros Hne Hstrip Hhash Hroot.
  unfold normalize_lounge_detail_url. cbv zeta. rewrite Hstrip.
  destruct href as [|x href]; [done|].
  change (negb (Py.truthy (x :: href))) with false. cbv iota.
  rewrite Hhash. cbn [orb]. cbv iota.
  apply orb_true_iff in Hroot as [Hroot|Hroot]; [by rewrite Hroot|].
  rewrite Hroot. by destruct (_ || _).
Qed.

Lemma normalize_no_country (href : str) :
  href ≠ [] → Py.strip href = href →
  Py.startswith href (lit "http://") = false →
  Py.startswith href (lit "https://") = false →
  Py.startswith href (lit "/") = false →
  normalize_lounge_detail_url [] href = Ok None.
Proof.
  intros Hne Hstrip Hhttp Hhttps Hslash.
  unfold normalize_lounge_detail_url. cbv zeta. rewrite Hstrip.
  destruct href as [|x href]; [done|].
  change (negb (Py.truthy (x :: href))) with false. cbv iota.
  rewrite Hhttp, Hhttps, Hslash. by destruct (_ || _).
Qed.

(** X6. For slugs in ASCII, the three ways in which a page links to a
    lounge give the same detail URL: the relative card link
    [<airport>/<detail>] on the page of [country], the site path
    [/lounges/<country>/<airport>/<detail>] and the absolute URL of the
    public site all normalise to
    [https://my.prioritypass.com/en-GB/lounges/<country>/<airport>/<detail>].
    A bare slug, and a relative link on a page without country, give
    nothing. *)
Theorem normalize_lounge_detail_url_card_link (country airport detail : str) :
  ascii_slug country → ascii_slug airport → ascii_slug detail →
  let u := MY_PP_BASE ++ detail_path country airport detail in
  let listing_path :=
    lit "/lounges/" ++ country ++ lit "/" ++ airport ++ lit "/" ++ detail in
  normalize_lounge_detail_url country (airport ++ lit "/" ++ detail)
  = Ok (Some u)
  ∧ (∀ page_country,
       normalize_lounge_detail_url page_country listing_path = Ok (Some u)
       ∧ normalize_lounge_detail_url page_country (BASE_URL ++ listing_path)
         = Ok (Some u))
  ∧ normalize_lounge_detail_url country detail = Ok None
  ∧ normalize_lounge_detail_url [] (airport ++ lit "/" ++ detail) = Ok None.
Proof.
  intros [Hc _] [Ha _] [Hd _] u listing_path.
  pose proof (slug_no_slash _ Ha) as Hsa. pose proof (slug_no_slash _ Hd) as Hsd.
  destruct (card_link_no_scheme airport detail Hsa Hsd) as [Hhttp Hhttps].
  assert (∃ x, head airport = Some x ∧ slug_char x) as (x & Hx & Hxs).
  { destruct Ha as [Hne Hall]. destruct airport as [|x ?]; [done|].
    exists x. split; [done|]. by apply Forall_cons in Hall as [? _]. }
  assert (head (airport ++ lit "/" ++ detail) = Some x) as Hhead
    by (destruct airport; [done|]; by injection Hx as ->).
  assert (Py.strip (airport ++ lit "/" ++ detail) = airport ++ lit "/" ++ detail)
    as Hstrip.
  { apply strip_no_space. rewrite !Forall_app.
    split_and!; [by apply slug_no_space|by repeat constructor|by apply slug_no_space]. }
  assert (airport ++ lit "/" ++ detail ≠ []) as Hne by (intros E; by rewrite E in Hhead).
  assert (Py.startswith (airport ++ lit "/" ++ detail) (lit "/") = false) as Hslash.
  { eapply startswith_head_ne; [done|]. by destruct Hxs as (_ & ? & _). }
  assert (listing_path ≠ []) as Hlne by done.
  assert (Forall (λ c, Py.isspace c = false) listing_path) as Hlsp.
  { subst listing_path. rewrite !Forall_app.
    split_and!; try (by apply slug_no_space); by apply (bool_decide_unpack _). }
  assert (is_lounge_detail_url u = Ok true) as Hu
    by by apply is_lounge_detail_url_detail_path.
  split_and!.
  - rewrite normalize_relative; try done.
    + rewrite to_my_prioritypass_url_listing_path, bind_Ok by done.
      unfold detail_or_none. fold u. by rewrite Hu.
    + by destruct Hc.
    + eapply startswith_head_ne; [done|]. by destruct Hxs as ((_ & _ & ?) & _).
  - intros page_country. split.
    + rewrite normalize_rooted; [|done|by apply strip_no_space|done|done].
      unfold listing_path.
      rewrite to_my_prioritypass_url_listing_path, bind_Ok by done.
      unfold detail_or_none. fold u. by rewrite Hu.
    + rewrite normalize_rooted; [|done| |done|done].
      2:{ apply strip_no_space. apply Forall_app. split; [|done].
          by apply (bool_decide_unpack _). }
      assert (slug (lit "lounges")) as Hl by by apply (bool_decide_unpack _).
      pose (parts := [lit "lounges"; country; airport; detail]).
      assert (Forall slug parts) as Hparts by (subst parts; all_slugs).
      destruct (joined_path_ok parts Hparts) as (Hh & H1 & Hsemi & Hp & Hnp & _).
      change (lit "/" ++ Py.join (lit "/") parts) with listing_path in *.
      pose proof (urlparse_absolute (lit "https") (lit "www.prioritypass.com")
                    listing_path) as Hparse.
      rewrite (to_my_prioritypass_url_parsed (BASE_URL ++ listing_path)
                 (mkParseResult (lit "https") (lit "www.prioritypass.com")
                    listing_path [] [] [])).
      * rewrite bind_Ok. unfold detail_or_none.
        change (MY_PP_BASE ++ canonical_path _) with u. by rewrite Hu.
      * rewrite strip_no_space; [done|]. apply Forall_app. split; [|done].
        by apply (bool_decide_unpack _).
      * rewrite strip_no_space.
        2:{ apply Forall_app. split; [|done]. by apply (bool_decide_unpack _). }
        apply Hparse;
          [by exists "h"%char|by apply (bool_decide_unpack _)..|by right|done|done].
  - rewrite normalize_relative; try done.
    + assert (slug (lit "lounges")) as Hl by by apply (bool_decide_unpack _).
      pose (parts := [lit "lounges"; country; detail]).
      assert (Forall slug parts) as Hparts by (subst parts; all_slugs).
      destruct (joined_path_ok parts Hparts) as (Hh & H1 & Hsemi & Hst).
      change (lit "/" ++ Py.join (lit "/") parts)
        with (lit "/lounges/" ++ country ++ lit "/" ++ detail) in *.
      rewrite to_my_prioritypass_url_path, bind_Ok by done.
      change (Py.startswith (lit "/lounges/" ++ _) (lit "/lounges/")) with true.
      cbv iota. unfold detail_or_none.
      pose (parts' := [lit "en-GB"; lit "lounges"; country; detail]).
      assert (slug (lit "en-GB")) as He by by apply (bool_decide_unpack _).
      assert (Forall slug parts') as Hparts' by (subst parts'; all_slugs).
      destruct (joined_path_ok parts' Hparts') as (Hh' & _ & _ & Hp' & Hnp' & _).
      change (MY_PP_LANG_PREFIX ++ lit "/lounges/" ++ country ++ lit "/" ++ detail)
        with (lit "/" ++ Py.join (lit "/") parts') in *.
      rewrite is_lounge_detail_url_canonical, bind_Ok by done.
      rewrite path_parts_join.
      * by rewrite bool_decide_false
          by (intros [[Hlen _]|[_ [=]]]; simpl in Hlen; lia).
      * eapply Forall_impl; [done|]. intros q Hq. split; [by destruct Hq|].
        by apply slug_no_slash.
    + by destruct Hc.
    + by destruct Hd.
    + by apply strip_no_space, slug_no_space.
    + destruct Hd as [Hne' Hall]. destruct detail as [|y ?]; [done|].
      eapply startswith_head_ne; [done|].
      apply Forall_cons in Hall as [((_ & _ & ?) & _) _]. done.
    + apply startswith_needs_slash; [done|]. by apply (bool_decide_unpack _).
    + apply startswith_needs_slash; [done|]. by apply (bool_decide_unpack _).
    + apply startswith_needs_slash; [done|]. by apply (bool_decide_unpack _).
  - by apply normalize_no_country.
Qed.

End CardLinks.

(** ** The recovery from a redirect *)

Lemma lstrip_by_app (p : ascii → bool) (x y : str) :
  (∃ c, head y = Some c ∧ p c = false) →
  Py.lstrip_by p (x ++ y) = Py.lstrip_by p x ++ y.
Proof.
  intros (c & Hc & Hp). induction x as [|a x IH]; simpl.
  - apply PyFacts.lstrip_by_id. intros z Hz. congruence.
  - by destruct (p a).
Qed.

Lemma rstrip_by_app (p : ascii → bool) (x y : str) :
  (∃ c, last x = Some c ∧ p c = false) →
  Py.rstrip_by p (x ++ y) = x ++ Py.rstrip_by p y.
Proof.
  intros (c & Hc & Hp). unfold Py.rstrip_by.
  rewrite reverse_app, lstrip_by_app, reverse_app, reverse_involutive; [done|].
  exists c. by rewrite head_reverse.
Qed.

Lemma strip_detail_path (country airport detail : str) :
  Py.strip (detail_path country airport detail)
  = lit "/en-GB/lounges/"
    ++ Py.rstrip_by Py.isspace (country ++ lit "/" ++ airport ++ lit "/" ++ detail).
Proof.
  unfold Py.strip, Py.strip_by, detail_path.
  rewrite PyFacts.lstrip_by_id by (by intros x [= <-]).
  apply rstrip_by_app. by exists "/"%char.
Qed.

Lemma getitem_index_inv {A} (l : list A) (i : nat) (x : A) :
  Py.getitem l (Z.of_nat i) = Ok x → l !! i = Some x.
Proof. rewrite PyFacts.getitem_nat. by destruct (l !! i); intros [= ->]. Qed.

Section Recovery.
Context `{!UrlChecks}.
Import UrlLib.

Lemma to_my_prioritypass_url_detail_path (country airport detail y : str) :
  to_my_prioritypass_url (detail_path country airport detail) = Ok y →
  y = MY_PP_BASE ++ Py.strip (detail_path country airport detail).
Proof.
  intros Hy. apply to_my_prioritypass_url_inv in Hy as [[He _]|(_ & parsed & Hp & ->)].
  { by rewrite strip_detail_path in He. }
  rewrite strip_detail_path in *.
  set (k := Py.rstrip_by _ _) in *.
  rewrite (urlparse_no_host "e" _ parsed) by
    (done || (apply (bool_decide_unpack _); vm_compute; exact I) || exact Hp).
  reflexivity.
Qed.

Lemma rebuild_if_detail_inv (country airport detail u : str) :
  rebuild_if_detail country airport detail = Ok (Some u) →
  u = MY_PP_BASE ++ Py.strip (detail_path country airport detail)
  ∧ is_lounge_detail_url u = Ok true.
Proof.
  unfold rebuild_if_detail. intros (y & Hy & Hr)%bind_Ok_inv.
  apply bind_Ok_inv in Hr as (b & Hb & Hr). destruct b; [|done].
  injection Hr as <-. split; [|done].
  by apply to_my_prioritypass_url_detail_path.
Qed.

Lemma recover_from_parts_inv (detail original_airport : str)
    (r_parts : list str) (u : str) :
  recover_from_parts detail original_airport r_parts = Ok (Some u) →
  prefixed r_parts
  ∧ ∃ country airport,
      r_parts !! 2 = Some country
      ∧ ((4 ≤ length r_parts ∧ r_parts !! 3 = Some airport)
         ∨ (length r_parts = 3 ∧ airport = original_airport))
      ∧ rebuild_if_detail country airport detail = Ok (Some u).
Proof.
  unfold recover_from_parts. cbv zeta. intros Hr.
  destruct (bool_decide _ && bool_decide _) eqn:Hpre.
  2:{ rewrite !andb_false_r in Hr. done. }
  rewrite !andb_true_r in Hr. apply prefixed_spec in Hpre. split; [done|].
  apply bind_Ok_inv in Hr as (first & Hfirst & Hr).
  destruct (Nat.leb_spec 4 (length r_parts)) as [Hlen|Hlen].
  - apply bind_Ok_inv in Hfirst as (country & Hc & Hfirst).
    apply bind_Ok_inv in Hfirst as (airport & Ha & Hfirst).
    apply (getitem_index_inv _ 2) in Hc. apply (getitem_index_inv _ 3) in Ha.
    destruct first as [rebuilt|].
    + injection Hr as ->. exists country, airport. split_and!; auto.
    + rewrite (proj2 (Nat.eqb_neq (length r_parts) 3)) in Hr by lia. done.
  - injection Hfirst as <-.
    destruct (Nat.eqb_spec (length r_parts) 3) as [Hlen3|]; [|done].
    apply bind_Ok_inv in Hr as (country & Hc & Hr).
    apply (getitem_index_inv _ 2) in Hc.
    exists country, original_airport. split_and!; auto.
Qed.

Lemma try_recover_inv (original_url redirected_url u : str) :
  try_recover_detail_url_from_redirect original_url redirected_url
  = Ok (Some u) →
  ∃ o r detail original_airport,
    urlparse original_url = Ok o ∧ urlparse redirected_url = Ok r
    ∧ 5 ≤ length (path_parts (path o))
    ∧ last (path_parts (path o)) = Some detail
    ∧ path_parts (path o) !! (length (path_parts (path o)) - 2)
      = Some original_airport
    ∧ recover_from_parts detail original_airport (path_parts (path r))
      = Ok (Some u).
Proof.
  unfold try_recover_detail_url_from_redirect.
  intros (o & Ho & Hr)%bind_Ok_inv. apply bind_Ok_inv in Hr as (r & Hr & Hrec).
  cbv zeta in Hrec.
  destruct (Nat.ltb_spec (length (path_parts (path o))) 5) as [|Hlen]; [done|].
  apply bind_Ok_inv in Hrec as (detail & Hd & Hrec).
  apply bind_Ok_inv in Hrec as (oa & Ha & Hrec).
  exists o, r, detail, oa. split_and!; try done.
  - change (-1)%Z with (- Z.of_nat 1)%Z in Hd.
    rewrite PyFacts.getitem_from_end in Hd by lia.
    rewrite last_lookup, <-Nat.sub_1_r.
    destruct (path_parts (path o) !! (length (path_parts (path o)) - 1));
      [by injection Hd as ->|done].
  - change (-2)%Z with (- Z.of_nat 2)%Z in Ha.
    rewrite PyFacts.getitem_from_end in Ha by lia.
    destruct (path_parts (path o) !! (length (path_parts (path o)) - 2));
      [by injection Ha as ->|done].
Qed.

(** X7. For two URLs in ASCII, what [try_recover_detail_url_from_redirect]
    returns is a detail URL on the canonical host: the original has at
    least 5 segments, the
    redirect is a language-prefixed listing of a country or an airport, and
    the URL is made of the country of the redirect, the airport of the
    redirect (of the original, for a country page) and the last segment of
    the original. *)
Theorem try_recover_detail_url_from_redirect_sound
    (original_url redirected_url u : str) :
  ascii_text original_url → ascii_text redirected_url →
  try_recover_detail_url_from_redirect original_url redirected_url
  = Ok (Some u) →
  is_lounge_detail_url u = Ok true
  ∧ ∃ o r country airport detail,
      urlparse original_url = Ok o ∧ urlparse redirected_url = Ok r
      ∧ 5 ≤ length (path_parts (path o))
      ∧ last (path_parts (path o)) = Some detail
      ∧ 3 ≤ length (path_parts (path r)) ∧ prefixed (path_parts (path r))
      ∧ path_parts (path r) !! 2 = Some country
      ∧ (path_parts (path r) !! 3 = Some airport
         ∨ (length (path_parts (path r)) = 3
            ∧ path_parts (path o) !! (length (path_parts (path o)) - 2)
              = Some airport))
      ∧ u = MY_PP_BASE ++ Py.strip (detail_path country airport detail).
Proof.
  intros _ _
    (o & r & detail & oa & Ho & Hr & Hlen & Hd & Ha & Hrec)%try_recover_inv.
  apply recover_from_parts_inv in Hrec
    as (Hpre & country & airport & Hc & Hcase & Hreb).
  apply rebuild_if_detail_inv in Hreb as [-> Hu]. split; [done|].
  exists o, r, country, airport, detail. split_and!; try done.
  - destruct Hcase as [[? _]|[? _]]; lia.
  - destruct Hcase as [[_ ?]|[? ->]]; auto.
Qed.

End Recovery.

(** ** The recheck of a link *)

Lemma or_else_nil (x : str) : Py.or_else x [] = x.
Proof. by destruct x. Qed.

Section Recheck.
Context `{!UrlChecks}.
Import UrlLib.

Lemma check_url_ok_eq (session_get : str → result Response) (url : str) :
  check_url_ok session_get url
  = (detail ← is_lounge_detail_url url;
     if negb detail then Ok (false, url)
     else
       response ← session_get url;
       detail' ← is_lounge_detail_url (resp_url response);
       if negb detail' then Ok (false, resp_url response)
       else Ok (live_response response, resp_url response)).
Proof.
  unfold check_url_ok. destruct (is_lounge_detail_url url) as [[]|]; [|done..].
  rewrite !bind_Ok. cbn [negb]. cbv iota.
  destruct (session_get url) as [response|]; [|done]. rewrite !bind_Ok.
  destruct (is_lounge_detail_url (resp_url response)) as [[]|]; [|done..].
  rewrite !bind_Ok. cbn [negb]. cbv iota zeta.
  unfold live_response, html_head. by rewrite or_else_nil.
Qed.

Lemma check_url_ok_inv (session_get : str → result Response)
    (url : str) (ok : bool) (resolved : str) :
  check_url_ok session_get url = Ok (ok, resolved) →
  (is_lounge_detail_url url = Ok false ∧ ok = false ∧ resolved = url)
  ∨ (is_lounge_detail_url url = Ok true
     ∧ ∃ response detail',
         session_get url = Ok response
         ∧ resolved = resp_url response
         ∧ is_lounge_detail_url (resp_url response) = Ok detail'
         ∧ ok = detail' && live_response response).
Proof.
  rewrite check_url_ok_eq. intros (detail & Hd & Hc)%bind_Ok_inv.
  destruct detail; [right|left; by injection Hc as <- <-].
  split; [done|]. cbn [negb] in Hc. cbv iota in Hc.
  apply bind_Ok_inv in Hc as (response & Hget & Hc).
  apply bind_Ok_inv in Hc as (detail' & Hd' & Hc).
  exists response, detail'. destruct detail'; by injection Hc as <- <-.
Qed.

Lemma check_url_ok_true_inv (session_get : str → result Response)
    (url resolved : str) :
  check_url_ok session_get url = Ok (true, resolved) →
  is_lounge_detail_url url = Ok true
  ∧ ∃ response,
      session_get url = Ok response
      ∧ resolved = resp_url response
      ∧ is_lounge_detail_url (resp_url response) = Ok true
      ∧ live_response response = true.
Proof.
  intros [(_ & [=] & _)|(Hd & response & detail' & Hget & -> & Hd' & Hok)]%check_url_ok_inv.
  symmetry in Hok. apply andb_true_iff in Hok as [-> Hlive].
  split; [done|]. by exists response.
Qed.

Lemma check_url_ok_live (session_get : str → result Response)
    (url : str) (response : Response) :
  is_lounge_detail_url url = Ok true → session_get url = Ok response →
  is_lounge_detail_url (resp_url response) = Ok true →
  live_response response = true →
  check_url_ok session_get url = Ok (true, resp_url response).
Proof.
  intros Hd Hget Hd' Hlive. rewrite check_url_ok_eq, Hd, bind_Ok.
  cbn [negb]. cbv iota. rewrite Hget, bind_Ok, Hd', bind_Ok.
  cbn [negb]. cbv iota. by rewrite Hlive.
Qed.

Lemma truthy_opt_inv (o : option str) :
  truthy_opt o = true → ∃ s, o = Some s ∧ s ≠ [].
Proof. destruct o as [[|c s]|]; try done. intros _. by eexists. Qed.

Lemma recheck_repaired_inv (session_get : nat → str → result Response)
    (url fixed : str) :
  recheck_repaired session_get url = Ok fixed → fixed ≠ [] →
  ∃ k candidate response,
    accepted_answer session_get url k candidate response
    ∧ to_my_prioritypass_url (resp_url response) = Ok fixed.
Proof.
  unfold recheck_repaired. intros (repaired & Hrep & Hr)%bind_Ok_inv Hne.
  case_bool_decide as Hchanged; [|by injection Hr as <-].
  apply bind_Ok_inv in Hr as ([ok2 resolved2] & Hc2 & Hr).
  destruct ok2.
  - apply check_url_ok_true_inv in Hc2 as (Hd & response & Hget & -> & Hd' & Hl).
    exists 2, repaired, response. by split_and!.
  - apply bind_Ok_inv in Hr as (recovered2 & Hrec & Hr).
    destruct (truthy_opt recovered2) eqn:Ht; [|by injection Hr as <-].
    apply truthy_opt_inv in Ht as (candidate & -> & _). simpl in Hr.
    apply bind_Ok_inv in Hr as ([ok3 resolved3] & Hc3 & Hr).
    destruct ok3; [|by injection Hr as <-].
    apply check_url_ok_true_inv in Hc3 as (Hd & response & Hget & -> & Hd' & Hl).
    exists 3, candidate, response. split; [|done].
    split_and!; try done. by exists repaired, resolved2.
Qed.

(** The answer behind a link that [recheck_and_fix] keeps *)
Lemma recheck_and_fix_try_inv (session_get : nat → str → result Response)
    (url fixed : str) :
  recheck_and_fix_try session_get url = Ok fixed → fixed ≠ [] →
  is_lounge_detail_url url = Ok true
  ∧ ∃ k candidate response,
      accepted_answer session_get url k candidate response
      ∧ to_my_prioritypass_url (resp_url response) = Ok fixed.
Proof.
  unfold recheck_and_fix_try. intros (detail & Hd & Hr)%bind_Ok_inv Hne.
  destruct detail; [|by injection Hr as <-]. split; [done|].
  cbn [negb] in Hr. cbv iota in Hr.
  apply bind_Ok_inv in Hr as ([ok resolved] & Hc & Hr).
  destruct ok.
  - apply check_url_ok_true_inv in Hc as (_ & response & Hget & -> & Hd' & Hl).
    exists 0, url, response. by split_and!.
  - apply bind_Ok_inv in Hr as (recovered & Hrec & Hr).
    destruct (truthy_opt recovered) eqn:Ht;
      [|by apply recheck_repaired_inv].
    apply truthy_opt_inv in Ht as (candidate & -> & _). simpl in Hr.
    apply bind_Ok_inv in Hr as ([ok_rec resolved_rec] & Hc1 & Hr).
    destruct ok_rec; [|by apply recheck_repaired_inv].
    apply check_url_ok_true_inv in Hc1 as (Hd1 & response & Hget & -> & Hd' & Hl).
    exists 1, candidate, response. split; [|done].
    split_and!; try done. by exists resolved.
Qed.

Lemma recheck_and_fix_inv (session_get : nat → str → result Response)
    (url : str) :
  recheck_and_fix session_get url ≠ [] →
  recheck_and_fix_try session_get url = Ok (recheck_and_fix session_get url).
Proof.
  unfold recheck_and_fix. by destruct (recheck_and_fix_try session_get url).
Qed.

(** X8. A link that [recheck_and_fix] keeps is backed by an answer: when
    the result is not empty, the URL is a detail URL, and one of the four
    candidates (the URL, the URL recovered from its redirect, the repaired
    URL, the URL recovered from the redirect of the repaired one) is a
    detail URL whose request was answered with a status below 400, without
    not-found marker, at a final URL that is a detail URL; the result is the
    canonical form of that final URL. *)
Theorem recheck_and_fix_sound (session_get : nat → str → result Response)
    (url : str) :
  recheck_and_fix session_get url ≠ [] →
  is_lounge_detail_url url = Ok true
  ∧ ∃ k candidate response,
      k < 4
      ∧ recheck_candidate session_get url k candidate
      ∧ is_lounge_detail_url candidate = Ok true
      ∧ session_get k candidate = Ok response
      ∧ is_lounge_detail_url (resp_url response) = Ok true
      ∧ (status_code response < 400)%Z
      ∧ Py.contains (html_head response) (lit "page not found") = false
      ∧ to_my_prioritypass_url (resp_url response)
        = Ok (recheck_and_fix session_get url).
Proof.
  intros Hne. pose proof (recheck_and_fix_inv _ _ Hne) as Htry.
  apply recheck_and_fix_try_inv in Htry
    as (Hd & k & candidate & response & (Hk & Hdc & Hget & Hdr & Hlive) & Hfix);
    [|done].
  split; [done|]. exists k, candidate, response.
  unfold live_response in Hlive.
  apply andb_true_iff in Hlive as [Hstatus Hfound%negb_true_iff].
  apply orb_false_iff in Hfound as [Hpnf _]. apply Z.ltb_lt in Hstatus.
  split_and!; try done.
  destruct k as [|[|[|[|k]]]]; try lia. done.
Qed.

(** X9. For a link in ASCII and a session that reports absolute URLs in
    ASCII, a link that [recheck_and_fix] keeps is a detail URL on the
    canonical host. *)
Theorem recheck_and_fix_detail (session_get : nat → str → result Response)
    (url : str) :
  ascii_text url →
  (∀ k u response,
     session_get k u = Ok response → absolute_url (resp_url response)) →
  recheck_and_fix session_get url ≠ [] →
  is_lounge_detail_url (recheck_and_fix session_get url) = Ok true
  ∧ ∃ p, recheck_and_fix session_get url = MY_PP_BASE ++ p
         ∧ head p = Some "/"%char
         ∧ Py.startswith p (lit "/lounges/") = false.
Proof.
  intros _ Habs Hne. pose proof (recheck_and_fix_inv _ _ Hne) as Htry.
  apply recheck_and_fix_try_inv in Htry
    as (Hd & k & candidate & response & (Hk & Hdc & Hget & Hdr & Hlive) & Hfix);
    [|done].
  destruct (Habs _ _ _ Hget) as (_ & Hstrip & parsed & Hparse & Hnl & Hsch).
  destruct (to_my_prioritypass_url_absolute _ parsed Hparse Hstrip Hnl Hsch Hdr)
    as [Hy Hdy].
  rewrite Hy in Hfix. injection Hfix as <-. split; [done|].
  eexists. split; [done|].
  split; [apply canonical_path_head | apply canonical_path_not_listing].
Qed.

(** X10. A live link is kept: when the request for a detail URL is answered
    at the canonical detail URL of a lounge, made of slugs in ASCII, with a
    status below 400 and without not-found marker, [recheck_and_fix]
    returns that URL, whatever
    the other candidates would give; in particular a canonical detail URL
    that answers for itself is returned unchanged. *)
Theorem recheck_and_fix_live (session_get : nat → str → result Response)
    (url : str) (response : Response) (country airport detail : str) :
  ascii_slug country → ascii_slug airport → ascii_slug detail →
  is_lounge_detail_url url = Ok true →
  session_get 0 url = Ok response →
  resp_url response = MY_PP_BASE ++ detail_path country airport detail →
  live_response response = true →
  recheck_and_fix session_get url
  = MY_PP_BASE ++ detail_path country airport detail.
Proof.
  intros [Hc _] [Ha _] [Hd _] Hurl Hget Hresp Hlive.
  unfold recheck_and_fix, recheck_and_fix_try.
  rewrite Hurl, bind_Ok. cbn [negb]. cbv iota.
  rewrite (check_url_ok_live _ _ response), bind_Ok; try done.
  - by rewrite Hresp, to_my_prioritypass_url_detail_fixed.
  - rewrite Hresp. by apply is_lounge_detail_url_detail_path.
Qed.

End Recheck.

(** ** The lounge table and the recheck of the map *)

Lemma lookup_list_to_map_graph (f : str → str) (l : list str) (k : str) :
  (list_to_map ((λ u, (u, f u)) <$> l) : gmap (list ascii) (list ascii)) !! k
  = if decide (k ∈ l) then Some (f k) else None.
Proof.
  induction l as [|x l IH].
  { rewrite decide_False by apply not_elem_of_nil. apply lookup_empty. }
  rewrite fmap_cons, list_to_map_cons.
  destruct (decide (x = k)) as [->|Hne].
  - rewrite lookup_insert_eq. by rewrite decide_True by left.
  - rewrite lookup_insert_ne by done. rewrite IH.
    destruct (decide (k ∈ l)).
    + by rewrite decide_True by (by right).
    + rewrite decide_False; [done|]. rewrite elem_of_cons. naive_solver.
Qed.

Lemma elem_of_sorted (l : list str) (x : str) : x ∈ Py.sorted l ↔ x ∈ l.
Proof. unfold Py.sorted. by rewrite merge_sort_Permutation. Qed.

Lemma filter_fmap_comm {A B} (f : A → B) (P : B → Prop)
    `{!∀ x, Decision (P x)} (l : list A) :
  filter P (f <$> l) = f <$> filter (λ x, P (f x)) l.
Proof.
  induction l as [|x l IH]; [done|]. rewrite fmap_cons, !filter_cons.
  case_decide; by rewrite IH.
Qed.

Lemma filter_iff_on {A} (P Q : A → Prop)
    `{!∀ x, Decision (P x), !∀ x, Decision (Q x)} (l : list A) :
  (∀ x, x ∈ l → P x ↔ Q x) → filter P l = filter Q l.
Proof.
  induction l as [|x l IH]; intros Hiff; [done|].
  rewrite !filter_cons.
  assert (P x ↔ Q x) as Hx by (apply Hiff; left).
  rewrite IH by (intros y Hy; apply Hiff; by right).
  destruct (decide (P x)), (decide (Q x)); tauto.
Qed.

Lemma lounge_rows_of_pos (rows : list LoungeRow) (code : str) :
  0 < lounge_rows_of rows code
  ↔ ∃ row, row ∈ rows ∧ row_iata_code row = code.
Proof.
  unfold lounge_rows_of. split.
  - intros Hlen. destruct (filter _ rows) as [|row l] eqn:Hf; [simpl in Hlen; lia|].
    assert (row ∈ filter (λ row, row_iata_code row = code) rows) as Hin
      by (rewrite Hf; left).
    apply list_elem_of_filter in Hin as [? ?]. by exists row.
  - intros (row & Hin & Hcode).
    assert (row ∈ filter (λ row, row_iata_code row = code) rows) as Hf
      by by apply list_elem_of_filter.
    destruct (filter _ rows); [by apply elem_of_nil in Hf|simpl; lia].
Qed.

Lemma elem_of_build_map_df (world : list Airport) (rows : list LoungeRow)
    (e : Enriched) :
  e ∈ build_map_df world rows
  ↔ airport e ∈ world
    ∧ lounge_count e = Some (lounge_rows_of rows (iata_code (airport e)))
    ∧ 0 < lounge_rows_of rows (iata_code (airport e))
    ∧ is_Some (latitude_deg (airport e))
    ∧ is_Some (longitude_deg (airport e)).
Proof.
  unfold build_map_df, select_map_rows, merge_left.
  rewrite list_elem_of_filter, list_elem_of_fmap, !andb_true_iff.
  assert (∀ A (o : option A), notna o = true ↔ is_Some o) as Hnotna.
  { intros A [x|]; simpl; split; try done; try (by eexists); by intros [? ?]. }
  rewrite !Hnotna. split.
  - intros [[[Hhas Hlat] Hlon] (a & -> & Ha)]. simpl in *.
    apply has_priority_lounge_joined in Hhas. split_and!; try done.
    rewrite group_lounge_count_lookup. by rewrite decide_False by lia.
  - intros (Ha & Hcount & Hpos & Hlat & Hlon).
    assert (e = mkEnriched (airport e)
                  (group_lounge_count rows !! iata_code (airport e))) as He.
    { destruct e as [a c]. simpl in *. rewrite Hcount. f_equal.
      rewrite group_lounge_count_lookup. by rewrite decide_False by lia. }
    split; [|by exists (airport e)].
    split_and!; try done. rewrite He. by apply has_priority_lounge_joined.
Qed.

Section Pipeline.
Context `{!UrlChecks}.

Lemma keep_detail_rows_spec (rows kept : list LoungeRow) :
  keep_detail_rows rows = Ok kept →
  kept = filter (λ row, is_lounge_detail_url (url_of row) = Ok true) rows.
Proof.
  revert kept. induction rows as [|row rows IH]; intros kept; simpl.
  - by intros [= <-].
  - intros (detail & Hd & Hk)%bind_Ok_inv.
    apply bind_Ok_inv in Hk as (kept' & Hk & Hr). injection Hr as <-.
    rewrite (IH _ Hk). destruct detail.
    + by rewrite filter_cons_True.
    + rewrite filter_cons_False; [done|]. by rewrite Hd.
Qed.

Lemma keep_detail_rows_raise (rows : list LoungeRow) (e : exn) :
  keep_detail_rows rows = Raise e →
  ∃ row, row ∈ rows ∧ is_lounge_detail_url (url_of row) = Raise e.
Proof.
  induction rows as [|row rows IH]; simpl; [done|].
  destruct (is_lounge_detail_url (url_of row)) as [detail|e'] eqn:Hd.
  - rewrite bind_Ok. destruct (keep_detail_rows rows) as [kept|e'']; [done|].
    intros [= ->]. destruct IH as (row' & Hin & Hr); [done|].
    exists row'. split; [by right|done].
  - intros [= ->]. exists row. split; [left|done].
Qed.

(** X11. The lounge table of step 3 holds exactly the LOUNGE items with a
    well-formed airport code and a detail URL, in the order of the items:
    a row is in the table iff it is such an item with its code, the code
    being the code-derived IATA of the item, else the one of its title,
    upper-cased and stripped.  The step raises only when the classifier
    raises on the URL of a LOUNGE item with a well-formed code. *)
Theorem lounge_table_spec (lounge_items_all : list Item) :
  (∀ rows, lounge_table lounge_items_all = Ok rows →
     sublist (row_item <$> rows) lounge_items_all
     ∧ ∀ row, row ∈ rows
              ↔ row_item row ∈ lounge_items_all
                ∧ experience_type (row_item row) = LOUNGE
                ∧ row_iata_code row = lounge_iata_code (row_item row)
                ∧ well_formed_iata (row_iata_code row)
                ∧ is_lounge_detail_url (url_of row) = Ok true)
  ∧ (∀ e, lounge_table lounge_items_all = Raise e →
       ∃ it, it ∈ lounge_items_all ∧ experience_type it = LOUNGE
             ∧ well_formed_iata (lounge_iata_code it)
             ∧ is_lounge_detail_url (experience_detail_url it) = Raise e).
Proof.
  unfold lounge_table. cbv zeta. split.
  - intros rows Hrows%keep_detail_rows_spec. subst rows. split.
    + rewrite !filter_fmap_comm, <-list_fmap_compose. simpl.
      rewrite list_fmap_id. etrans; [apply sublist_filter|].
      etrans; apply sublist_filter.
    + intros [it code]. rewrite !list_elem_of_filter, list_elem_of_fmap. simpl.
      split.
      * intros (Hd & Hw & it' & [= -> ->] & [Ht Hin]%list_elem_of_filter).
        by split_and!.
      * intros (Hin & Ht & -> & Hw & Hd). split_and!; try done.
        exists it. split; [done|]. by apply list_elem_of_filter.
  - intros e (row & Hin & Hr)%keep_detail_rows_raise.
    apply list_elem_of_filter in Hin as [Hw Hin].
    apply list_elem_of_fmap in Hin as (it & -> & [Ht Hin]%list_elem_of_filter).
    by exists it.
Qed.

Lemma recheck_rows_eq (session_get : str → nat → str → result Response)
    (map_df : list Enriched) (rows : list LoungeRow) :
  recheck_rows session_get map_df rows
  = (λ row, with_detail_url row
              (recheck_and_fix (session_get (url_of row)) (url_of row)))
    <$> filter (λ row, rechecked_url map_df rows (url_of row)
                       ∧ recheck_and_fix (session_get (url_of row))
                           (url_of row) ≠ []) rows.
Proof.
  unfold recheck_rows. cbv zeta.
  set (urls := Py.sorted _).
  assert (∀ u, u ∈ urls ↔ rechecked_url map_df rows u) as Hurls.
  { intros u. subst urls.
    rewrite elem_of_sorted, elem_of_remove_dups, list_elem_of_fmap.
    unfold rechecked_url, map_codes. rewrite list_elem_of_fmap.
    split; intros (row & -> & [Hcode Hin]%list_elem_of_filter);
      exists row; (split; [done|]); apply list_elem_of_filter; (split; [|done]);
      first [by apply elem_of_list_to_set
            |by apply elem_of_list_to_set in Hcode]. }
  rewrite filter_fmap_comm. simpl.
  assert (∀ row,
            default [] ((list_to_map
                           ((λ u, (u, recheck_and_fix (session_get u) u))
                              <$> urls) : gmap (list ascii) (list ascii))
                        !! url_of row)
            = if decide (rechecked_url map_df rows (url_of row))
              then recheck_and_fix (session_get (url_of row)) (url_of row)
              else []) as Hlookup.
  { intros row.
    rewrite (lookup_list_to_map_graph
               (λ u, recheck_and_fix (session_get u) u)).
    destruct (decide (url_of row ∈ urls)) as [Hin|Hin].
    - by rewrite decide_True by by apply Hurls.
    - rewrite decide_False; [done|]. by rewrite <-Hurls. }
  rewrite (filter_iff_on _
             (λ row, rechecked_url map_df rows (url_of row)
                     ∧ recheck_and_fix (session_get (url_of row))
                         (url_of row) ≠ [])).
  2:{ intros row _. rewrite Hlookup. case_decide; naive_solver. }
  apply Forall_fmap_ext_1, Forall_forall.
  intros row [[Hre _] _]%list_elem_of_filter.
  by rewrite Hlookup, decide_True.
Qed.

Lemma recheck_rows_code (session_get : str → nat → str → result Response)
    (map_df : list Enriched) (rows : list LoungeRow) (kept : LoungeRow) :
  kept ∈ recheck_rows session_get map_df rows →
  ∃ row, row ∈ rows ∧ row_iata_code row = row_iata_code kept.
Proof.
  rewrite recheck_rows_eq, list_elem_of_fmap.
  intros (row & -> & [_ Hin]%list_elem_of_filter). by exists row.
Qed.

(** X12. Step 6 keeps a row iff its URL is the URL of a lounge of a pinned
    airport and [recheck_and_fix] returns a link for it, and gives the row
    that link; a URL is rechecked once, whatever the number of its rows. *)
Theorem recheck_rows_spec (session_get : str → nat → str → result Response)
    (map_df : list Enriched) (rows : list LoungeRow) (kept : LoungeRow) :
  kept ∈ recheck_rows session_get map_df rows
  ↔ ∃ row, row ∈ rows
           ∧ (∃ pinned, pinned ∈ rows
                        ∧ row_iata_code pinned ∈ map_codes map_df
                        ∧ url_of pinned = url_of row)
           ∧ recheck_and_fix (session_get (url_of row)) (url_of row) ≠ []
           ∧ kept = with_detail_url row
                      (recheck_and_fix (session_get (url_of row)) (url_of row)).
Proof.
  rewrite recheck_rows_eq, list_elem_of_fmap.
  assert (∀ u, rechecked_url map_df rows u
               ↔ ∃ pinned, pinned ∈ rows
                           ∧ row_iata_code pinned ∈ map_codes map_df
                           ∧ url_of pinned = u) as Hre.
  { intros u. unfold rechecked_url. rewrite list_elem_of_fmap. split.
    - intros (pinned & -> & [? ?]%list_elem_of_filter). by exists pinned.
    - intros (pinned & ? & ? & <-). exists pinned. split; [done|].
      by apply list_elem_of_filter. }
  split.
  - intros (row & -> & [[Hu Hne] Hin]%list_elem_of_filter).
    exists row. split_and!; try done. by apply Hre.
  - intros (row & Hin & Hu & Hne & ->). exists row. split; [done|].
    apply list_elem_of_filter. split_and!; try done. by apply Hre.
Qed.

Lemma kept_rows_of_spec (session_get : str → nat → str → result Response)
    (map_df : list Enriched) (rows : list LoungeRow) (code : str) :
  code ∈ map_codes map_df →
  lounge_rows_of (recheck_rows session_get map_df rows) code
  = kept_rows_of session_get rows code.
Proof.
  intros Hcode. unfold lounge_rows_of, kept_rows_of.
  rewrite recheck_rows_eq, filter_fmap_comm, length_fmap. simpl.
  rewrite list_filter_filter. f_equal. apply filter_iff_on.
  intros row Hin. split; [naive_solver|]. intros [Hc Hne].
  split_and!; try done. unfold rechecked_url. apply list_elem_of_fmap.
  exists row. split; [done|]. apply list_elem_of_filter.
  split; [by rewrite Hc|done].
Qed.

(** X13. The pins of the map after the recheck: an airport of the world
    table is pinned iff it has both coordinates and at least one lounge row
    with its code whose link [recheck_and_fix] keeps; its count is the
    number of these rows, and it was pinned before the recheck. *)
Theorem map_after_recheck_spec
    (session_get : str → nat → str → result Response)
    (world : list Airport) (rows : list LoungeRow) (e : Enriched) :
  e ∈ map_after_recheck session_get world rows
  ↔ airport e ∈ world
    ∧ is_Some (latitude_deg (airport e))
    ∧ is_Some (longitude_deg (airport e))
    ∧ 0 < kept_rows_of session_get rows (iata_code (airport e))
    ∧ lounge_count e
      = Some (kept_rows_of session_get rows (iata_code (airport e)))
    ∧ iata_code (airport e) ∈ map_codes (build_map_df world rows).
Proof.
  unfold map_after_recheck. rewrite elem_of_build_map_df.
  set (code := iata_code (airport e)).
  assert (airport e ∈ world → is_Some (latitude_deg (airport e)) →
          is_Some (longitude_deg (airport e)) →
          0 < lounge_rows_of rows code →
          code ∈ map_codes (build_map_df world rows)) as Hpinned.
  { intros Ha Hlat Hlon Hpos. unfold map_codes. apply list_elem_of_fmap.
    exists (mkEnriched (airport e) (Some (lounge_rows_of rows code))).
    split; [done|]. apply elem_of_build_map_df. by split_and!. }
  split.
  - intros (Ha & Hcount & Hpos & Hlat & Hlon).
    assert (0 < lounge_rows_of rows code) as Hbefore.
    { apply lounge_rows_of_pos in Hpos as (kept & Hkept & Hcode).
      apply recheck_rows_code in Hkept as (row & Hin & Hrow).
      apply lounge_rows_of_pos. exists row. split; [done|]. congruence. }
    specialize (Hpinned Ha Hlat Hlon Hbefore).
    rewrite kept_rows_of_spec in Hcount, Hpos by done. by split_and!.
  - intros (Ha & Hlat & Hlon & Hpos & Hcount & Hcode).
    rewrite kept_rows_of_spec by done. by split_and!.
Qed.

End Pipeline.

(** ** The merge of the two extraction passes *)

Lemma dedupe_from_keys (seen : gset (str * str)) (items : list Item) :
  NoDup (item_key <$> dedupe_from seen items)
  ∧ ∀ key, key ∈ item_key <$> dedupe_from seen items
           ↔ key ∉ seen ∧ key ∈ item_key <$> items.
Proof.
  revert seen. induction items as [|it rest IH]; intros seen; simpl.
  - split; [constructor|]. intros key. rewrite elem_of_nil. naive_solver.
  - case_decide as Hin.
    + destruct (IH seen) as [Hnd Hkeys]. split; [done|].
      intros key. rewrite Hkeys, elem_of_cons. naive_solver.
    + destruct (IH ({[item_key it]} ∪ seen)) as [Hnd Hkeys].
      rewrite fmap_cons. split.
      * constructor; [|done]. rewrite Hkeys. set_solver.
      * intros key. rewrite !elem_of_cons, Hkeys.
        destruct (decide (key = item_key it)) as [->|Hne]; [naive_solver|].
        set_solver.
Qed.

Lemma dedupe_keys (items : list Item) :
  NoDup (item_key <$> dedupe items)
  ∧ (∀ key, key ∈ item_key <$> dedupe items ↔ key ∈ item_key <$> items)
  ∧ length (dedupe items)
    = size (list_to_set (item_key <$> items) : gset (str * str)).
Proof.
  rewrite dedupe_dedupe_from.
  destruct (dedupe_from_keys ∅ items) as [Hnd Hkeys].
  assert (∀ key, key ∈ item_key <$> dedupe_from ∅ items
                 ↔ key ∈ item_key <$> items) as Hkeys'
    by (intros key; rewrite Hkeys; set_solver).
  split_and!; [done..|].
  rewrite <-(length_fmap item_key), <-(size_list_to_set (C:=gset (str * str)))
    by done.
  f_equal. apply set_eq. intros key. by rewrite !elem_of_list_to_set.
Qed.

(** X14. The two lists of a page keep the types apart and hold each
    record once: the first has only LOUNGE items, the second none, no two
    records have the same pair of type and detail slug, every pair of an
    extracted record is kept, and the counts of the page are the numbers of
    distinct pairs. *)
Theorem merge_extracted_counts (anchor_items embedded_items : list Item) :
  let merged := merge_extracted anchor_items embedded_items in
  let items := anchor_items ++ embedded_items in
  Forall (λ it, experience_type it = LOUNGE ∧ it ∈ items) merged.1
  ∧ Forall (λ it, experience_type it ≠ LOUNGE ∧ it ∈ items) merged.2
  ∧ NoDup (item_key <$> (merged.1 ++ merged.2))
  ∧ (∀ key, key ∈ item_key <$> (merged.1 ++ merged.2)
            ↔ key ∈ item_key <$> items)
  ∧ length merged.1
    = size (list_to_set
              (item_key <$> filter (λ it, experience_type it = LOUNGE) items)
            : gset (str * str))
  ∧ length merged.1 + length merged.2
    = size (list_to_set (item_key <$> items) : gset (str * str)).
Proof.
  intros merged items. subst merged. unfold merge_extracted.
  rewrite !append_by_type_spec. simpl. rewrite <-!filter_app. fold items.
  set (lounges := filter (λ it, experience_type it = LOUNGE) items).
  set (others := filter (λ it, experience_type it ≠ LOUNGE) items).
  destruct (dedupe_keys lounges) as (Hnd1 & Hk1 & Hlen1).
  destruct (dedupe_keys others) as (Hnd2 & Hk2 & Hlen2).
  assert (∀ it, it ∈ dedupe lounges → experience_type it = LOUNGE ∧ it ∈ items)
    as Hl.
  { intros it Hin. rewrite dedupe_dedupe_from in Hin.
    eapply elem_of_sublist in Hin; [|apply dedupe_from_sublist].
    by apply list_elem_of_filter in Hin. }
  assert (∀ it, it ∈ dedupe others → experience_type it ≠ LOUNGE ∧ it ∈ items)
    as Ho.
  { intros it Hin. rewrite dedupe_dedupe_from in Hin.
    eapply elem_of_sublist in Hin; [|apply dedupe_from_sublist].
    by apply list_elem_of_filter in Hin. }
  assert (∀ key, key ∈ item_key <$> items
                 ↔ key ∈ item_key <$> lounges ∨ key ∈ item_key <$> others)
    as Hsplit.
  { intros key. rewrite !list_elem_of_fmap. split.
    - intros (it & -> & Hin).
      destruct (decide (experience_type it = LOUNGE)); [left|right];
        exists it; (split; [done|]); by apply list_elem_of_filter.
    - intros [(it & -> & [_ Hin]%list_elem_of_filter)
             |(it & -> & [_ Hin]%list_elem_of_filter)]; by exists it. }
  assert (∀ key, key ∈ item_key <$> lounges → key ∈ item_key <$> others → False)
    as Hdisj.
  { intros key (it1 & -> & [Ht1 _]%list_elem_of_filter)%list_elem_of_fmap
      (it2 & Hkey & [Ht2 _]%list_elem_of_filter)%list_elem_of_fmap.
    apply Ht2. unfold item_key in Hkey. congruence. }
  split_and!.
  - by apply Forall_forall.
  - by apply Forall_forall.
  - rewrite fmap_app. apply NoDup_app. split_and!; [done| |done].
    intros key H1 H2. apply Hk1 in H1. apply Hk2 in H2. by eapply Hdisj.
  - intros key. rewrite fmap_app, elem_of_app, Hk1, Hk2. by rewrite Hsplit.
  - done.
  - rewrite Hlen1, Hlen2. rewrite <-size_union.
    + f_equal. apply set_eq. intros key.
      rewrite elem_of_union, !elem_of_list_to_set. by rewrite Hsplit.
    + intros key H1%elem_of_list_to_set H2%elem_of_list_to_set.
      by eapply Hdisj.
Qed.

(** ** The links of the index and the slugs of a page *)

Lemma count_char_app (a b : str) (c : ascii) :
  Py.count_char (a ++ b) c = Py.count_char a c + Py.count_char b c.
Proof. unfold Py.count_char. by rewrite filter_app, length_app. Qed.

Lemma count_char_zero (s : str) (c : ascii) :
  Py.count_char s c = 0 ↔ c ∉ s.
Proof.
  unfold Py.count_char. induction s as [|x s IH].
  - split; [intros _; apply not_elem_of_nil|done].
  - rewrite filter_cons, not_elem_of_cons. case_decide as Hx; simpl.
    + split; [lia|]. intros [? _]. congruence.
    + rewrite IH. split; [intros ?; split; [congruence|done]|by intros [_ ?]].
Qed.

Lemma count_char_cons_eq (s : str) (c : ascii) :
  Py.count_char (c :: s) c = S (Py.count_char s c).
Proof. unfold Py.count_char. by rewrite filter_cons_True. Qed.

Lemma is_airport_href_inv (href : str) :
  is_airport_href href = true →
  ∃ country airport,
    href = lit "/lounges/" ++ country ++ lit "/" ++ airport
    ∧ "/"%char ∉ country ∧ "/"%char ∉ airport ∧ airport ≠ [].
Proof.
  unfold is_airport_href. rewrite !andb_true_iff, negb_true_iff.
  intros [[Hstart Hcount] Hend].
  apply PyFacts.startswith_spec in Hstart as [k ->].
  apply Nat.eqb_eq in Hcount. rewrite count_char_app in Hcount.
  change (Py.count_char (lit "/lounges/") "/") with 2 in Hcount.
  destruct (Py.find k "/") as [i|] eqn:Hfind.
  2:{ apply PyFacts.find_None, count_char_zero in Hfind. lia. }
  apply PyFacts.find_Some in Hfind as (country & airport & -> & _ & Hc).
  rewrite count_char_app, count_char_cons_eq in Hcount.
  pose proof (proj2 (count_char_zero _ _) Hc) as Hc0.
  assert ("/"%char ∉ airport) as Ha by (apply count_char_zero; lia).
  exists country, airport. split_and!; [done..|].
  intros ->. unfold Py.endswith_char in Hend.
  apply bool_decide_eq_false in Hend. apply Hend.
  by rewrite (assoc_L (++)), last_snoc.
Qed.

(** X15. The index filter accepts exactly the paths
    [/lounges/<country>/<airport>] of two segments behind the keyword, the
    airport not empty (an empty country passes). *)
Theorem is_airport_href_spec (href : str) :
  is_airport_href href = true
  ↔ ∃ country airport,
      href = lit "/lounges/" ++ country ++ lit "/" ++ airport
      ∧ "/"%char ∉ country ∧ "/"%char ∉ airport ∧ airport ≠ [].
Proof.
  split; [apply is_airport_href_inv|].
  intros (country & airport & -> & Hc & Ha & Hne).
  unfold is_airport_href. rewrite !andb_true_iff, negb_true_iff. split_and!.
  - apply PyFacts.startswith_spec. by eexists.
  - apply Nat.eqb_eq. rewrite !count_char_app.
    change (Py.count_char (lit "/lounges/") "/") with 2.
    change (Py.count_char (lit "/") "/") with 1.
    apply count_char_zero in Hc, Ha. lia.
  - unfold Py.endswith_char. apply bool_decide_eq_false. intros Hlast.
    destruct airport as [|x airport _] using rev_ind; [done|].
    rewrite !(assoc_L (++)), last_snoc in Hlast. injection Hlast as ->.
    apply Ha. rewrite elem_of_app. right. left.
Qed.





Lemma last_app_ne {A} (a b : list A) : b ≠ [] → last (a ++ b) = last b.
Proof. intros Hb. rewrite last_app. destruct (last b) eqn:Hl; [done|]. by apply last_None in Hl. Qed.

Lemma split_app_last (x d : str) (sep : ascii) :
  sep ∉ d → Py.split (x ++ sep :: d) sep = Py.split x sep ++ [d].
Proof.
  intros Hd. induction x as [|c x IH]; simpl.
  - rewrite bool_decide_true by done. by rewrite PyFacts.split_no_sep.
  - rewrite IH. case_bool_decide; [done|].
    pose proof (PyFacts.split_not_nil x sep). by destruct (Py.split x sep).
Qed.


(** ** The items of the anchor pass *)

Lemma split_head_prefix (s : str) (sep : ascii) :
  ∃ t, s = default [] (head (Py.split s sep)) ++ t.
Proof.
  induction s as [|c s [t IH]]; simpl; [by exists []|].
  case_bool_decide; [by eexists|].
  pose proof (PyFacts.split_not_nil s sep).
  destruct (Py.split s sep) as [|h l]; [done|]. simpl in *.
  exists t. by rewrite IH at 1.
Qed.

Lemma split_head_cons (c : ascii) (s : str) (sep : ascii) :
  c ≠ sep →
  default [] (head (Py.split (c :: s) sep))
  = c :: default [] (head (Py.split s sep)).
Proof.
  intros Hc. simpl. rewrite bool_decide_false by done.
  pose proof (PyFacts.split_not_nil s sep). by destruct (Py.split s sep).
Qed.

Lemma isalpha_upper_char (c : ascii) :
  Py.isalpha c = true → Py.isupper (Py.upper_char c) = true ∧ c ≠ "-"%char.
Proof.
  destruct c as [[] [] [] [] [] [] [] []]; vm_compute; intros [=]; by split.
Qed.

Lemma isupper_plain (c : ascii) :
  Py.isupper c = true → Py.upper_char c = c ∧ Py.isspace c = false.
Proof.
  destruct c as [[] [] [] [] [] [] [] []]; vm_compute; intros [=]; by split.
Qed.

Lemma well_formed_iata_inv (code : str) :
  well_formed_iata code →
  ∃ a b c, code = [a; b; c]
           ∧ Py.isupper a = true ∧ Py.isupper b = true ∧ Py.isupper c = true.
Proof.
  unfold Re.fullmatch_iata, Re.upper3. intros Hw%bool_decide_eq_true.
  destruct code as [|a [|b [|c rest]]]; try done.
  destruct (Py.isupper a && Py.isupper b && Py.isupper c) eqn:Hup; [|done].
  injection Hw as Hw. apply (f_equal length) in Hw. simpl in Hw.
  destruct rest; [|simpl in Hw; lia].
  apply andb_true_iff in Hup as [[? ?]%andb_true_iff ?]. by exists a, b, c.
Qed.

Lemma well_formed_upper_strip (code : str) :
  well_formed_iata code → Py.strip (Py.upper code) = code.
Proof.
  intros (a & b & c & -> & Ha & Hb & Hc)%well_formed_iata_inv.
  destruct (isupper_plain a Ha) as [Hua Hsa].
  destruct (isupper_plain b Hb) as [Hub Hsb].
  destruct (isupper_plain c Hc) as [Huc Hsc].
  unfold Py.upper. simpl. rewrite Hua, Hub, Huc.
  apply strip_no_space. by repeat constructor.
Qed.

Lemma iata_from_slug_inv (detail_slug code : str) :
  iata_from_slug detail_slug = Some code →
  well_formed_iata code
  ∧ ∃ a b c rest, detail_slug = a :: b :: c :: rest
                  ∧ code = Py.upper [a; b; c].
Proof.
  unfold iata_from_slug, Re.match_iata.
  intros ([group rest'] & Hup & ->)%fmap_Some. simpl.
  destruct (split_head_prefix detail_slug "-") as [t Ht].
  set (seg := default [] (head (Py.split detail_slug "-"))) in *.
  destruct (upper3_group _ _ _ Hup) as [Heq Hw]. split; [done|].
  destruct seg as [|a [|b [|c seg]]]; try done.
  unfold Re.upper3 in Hup. simpl in Hup. destruct (_ && _); [|done].
  injection Hup as <- _. exists a, b, c, (seg ++ t). by rewrite Ht.
Qed.

Lemma iata_from_slug_letters (a b c : ascii) (rest : str) :
  Py.isalpha a = true → Py.isalpha b = true → Py.isalpha c = true →
  iata_from_slug (a :: b :: c :: rest) = Some (Py.upper [a; b; c]).
Proof.
  intros [Ha Ha']%isalpha_upper_char [Hb Hb']%isalpha_upper_char
    [Hc Hc']%isalpha_upper_char.
  unfold iata_from_slug. rewrite !split_head_cons by done.
  unfold Re.match_iata, Re.upper3, Py.upper. simpl. by rewrite Ha, Hb, Hc.
Qed.

Lemma detail_slug_of_last (x d : str) :
  "/"%char ∉ d → d ≠ [] → detail_slug_of (x ++ lit "/" ++ d) = d.
Proof.
  intros Hd Hne. unfold detail_slug_of, Py.rstrip_chars.
  rewrite PyFacts.rstrip_by_id.
  - change (lit "/" ++ d) with ("/"%char :: d).
    rewrite split_app_last by done. by rewrite last_snoc.
  - intros c Hc. rewrite (assoc_L (++)), last_app_ne in Hc by done.
    apply PyFacts.char_in_false. intros ->%list_elem_of_singleton.
    by apply last_Some_elem_of in Hc.
Qed.

(** X17. The detail slug of a URL is its last segment, and the
    code-derived IATA of a slug in ASCII is made of its first three
    characters: a code that the function returns is well-formed and is
    these three characters in upper case; and whenever a slug starts with
    three ASCII letters, the function returns them in upper case. *)
Theorem detail_slug_and_code :
  (∀ x d, "/"%char ∉ d → d ≠ [] → detail_slug_of (x ++ lit "/" ++ d) = d)
  ∧ (∀ detail_slug code,
       ascii_text detail_slug →
       iata_from_slug detail_slug = Some code →
       well_formed_iata code
       ∧ ∃ a b c rest, detail_slug = a :: b :: c :: rest
                       ∧ code = Py.upper [a; b; c])
  ∧ (∀ a b c rest,
       Py.isalpha a = true → Py.isalpha b = true → Py.isalpha c = true →
       iata_from_slug (a :: b :: c :: rest) = Some (Py.upper [a; b; c])).
Proof.
  split_and!.
  - apply detail_slug_of_last.
  - intros detail_slug code _. apply iata_from_slug_inv.
  - apply iata_from_slug_letters.
Qed.

Lemma take_word_spec (c : ascii) (s : str) :
  Py.isspace c = false →
  ∃ word rest, Py.take_word (c :: s) = (c :: word, rest).
Proof.
  intros Hc. simpl. rewrite Hc. destruct (Py.take_word s). by eexists _, _.
Qed.

Lemma split_first_word_parts (s : str) :
  Forall (λ p, p ≠ []) (Py.split_first_word s)
  ∧ length (Py.split_first_word s) ≤ 2.
Proof.
  unfold Py.split_first_word.
  destruct (PyFacts.lstrip_by_spec Py.isspace s) as (_ & _ & _ & Hh).
  destruct (Py.lstrip_by Py.isspace s) as [|c s1];
    [split; [constructor|simpl; lia]|].
  destruct (take_word_spec c s1 (Hh c eq_refl)) as (word & rest & ->).
  destruct (Py.lstrip_by Py.isspace rest); simpl; split;
    (lia || by repeat constructor).
Qed.

Section AnchorPass.
Context `{!UrlChecks}.

Lemma anchor_item_inv (ctx : PageContext) (href strings : str) (it : Item) :
  anchor_item ctx href strings = Ok (Some it) →
  ∃ item_type item_name detail_url,
    it = mkItem (ctx_airport_url ctx) (ctx_airport_slug ctx)
           (ctx_country_slug ctx) (ctx_airport_name ctx) (ctx_title ctx)
           item_type item_name detail_url (detail_slug_of detail_url)
           (iata_from_slug (detail_slug_of detail_url))
           (ctx_iata_from_title ctx)
    ∧ item_type ∈ EXPERIENCE_TYPES
    ∧ item_name ≠ []
    ∧ Py.upper <$> Py.split_first_word (Py.strip strings) !! 0
      = Some item_type
    ∧ normalize_lounge_detail_url (ctx_country_slug ctx) (Py.strip href)
      = Ok (Some detail_url).
Proof.
  unfold anchor_item. cbv zeta. intros Ha.
  destruct (_ || _); [done|].
  destruct (split_first_word_parts (Py.strip strings)) as [Hparts Hlen].
  apply bind_Ok_inv in Ha as (first & Hfirst & Ha).
  apply (getitem_index_inv _ 0) in Hfirst.
  case_bool_decide as Htype; [|done]. cbn [negb] in Ha. cbv iota in Ha.
  apply bind_Ok_inv in Ha as (item_name & Hname & Ha).
  apply bind_Ok_inv in Ha as (detail_url & Hnorm & Ha).
  destruct detail_url as [detail_url|]; [|done].
  destruct (negb (Py.truthy detail_url)); [done|]. injection Ha as <-.
  exists (Py.upper first), item_name, detail_url. split_and!; try done.
  - assert (∃ i, Py.split_first_word (Py.strip strings) !! i = Some item_name)
      as [i Hi].
    { destruct (1 <? _).
      - exists 1. by apply (getitem_index_inv _ 1).
      - exists 0. by apply (getitem_index_inv _ 0). }
    by eapply Forall_lookup_1 in Hparts.
  - by rewrite Hfirst.
Qed.

(** X18. On a page whose country slug, anchor and link text are in ASCII,
    an item of the anchor pass is sound: its type is one of LOUNGE, DINING
    and RELAX, the first word of the link text in upper case; its
    name is not empty; its URL is the detail URL, on the canonical host,
    that [normalize_lounge_detail_url] gives for the anchor; its slug is
    the last segment of that URL, its code-derived IATA, when it has one,
    is well-formed and is the airport code that [run_pipeline] gives the
    item, whatever the title says; the page data are copied. *)
Theorem anchor_item_sound (ctx : PageContext) (href strings : str) (it : Item) :
  ascii_text (ctx_country_slug ctx) → ascii_text href → ascii_text strings →
  anchor_item ctx href strings = Ok (Some it) →
  experience_type it ∈ EXPERIENCE_TYPES
  ∧ Py.upper <$> Py.split_first_word (Py.strip strings) !! 0
    = Some (experience_type it)
  ∧ experience_name it ≠ []
  ∧ normalize_lounge_detail_url (ctx_country_slug ctx) (Py.strip href)
    = Ok (Some (experience_detail_url it))
  ∧ is_lounge_detail_url (experience_detail_url it) = Ok true
  ∧ (∃ p, experience_detail_url it = MY_PP_BASE ++ p ∧ head p = Some "/"%char)
  ∧ experience_detail_slug it = detail_slug_of (experience_detail_url it)
  ∧ iata_from_code it = iata_from_slug (experience_detail_slug it)
  ∧ (∀ code, iata_from_code it = Some code →
             well_formed_iata code ∧ lounge_iata_code it = code)
  ∧ (airport_url it, airport_slug it, country_slug it, airport_name_pp it,
     airport_title it, iata_from_title it)
    = (ctx_airport_url ctx, ctx_airport_slug ctx, ctx_country_slug ctx,
       ctx_airport_name ctx, ctx_title ctx, ctx_iata_from_title ctx).
Proof.
  intros _ _ _ (item_type & item_name & detail_url & -> & Htype & Hname & Hword
                & Hnorm)%anchor_item_inv.
  cbn [experience_type experience_name experience_detail_url
       experience_detail_slug iata_from_code airport_url airport_slug
       country_slug airport_name_pp airport_title iata_from_title].
  destruct (normalize_lounge_detail_url_inv _ _ _ Hnorm)
    as (Hd & _ & _ & Hfrom).
  split_and!; try done.
  - destruct Hfrom as [Hx|(_ & _ & Hx)];
      destruct (canonical_detail_url _ _ Hx Hd) as (p & Hp & Hh & _);
      by exists p.
  - intros code Hcode. destruct (iata_from_slug_inv _ _ Hcode) as [Hw _].
    split; [done|]. unfold lounge_iata_code. cbn [iata_from_code].
    rewrite Hcode. by apply well_formed_upper_strip.
Qed.

End AnchorPass.

(** ** The two ladders *)

Section Ladders.
Context `{!UrlChecks}.

Lemma recheck_repaired_fetch (session_get : nat → str → result Response)
    (url resolved_url : str) :
  recheck_repaired session_get url
  = ('(ok, resolved) ← fetch_repaired session_get url resolved_url;
     if (ok : bool) then to_my_prioritypass_url resolved else Ok []).
Proof.
  unfold recheck_repaired, fetch_repaired.
  destruct (repair_duplicated_airport_segment url) as [repaired|]; [|done].
  rewrite !bind_Ok. case_bool_decide; [|done].
  destruct (check_url_ok (session_get 2) repaired) as [[[] resolved2]|];
    [done| |done].
  rewrite !bind_Ok.
  destruct (try_recover_detail_url_from_redirect repaired resolved2)
    as [recovered2|]; [|done].
  rewrite !bind_Ok. destruct (truthy_opt recovered2); [|done].
  by destruct (check_url_ok (session_get 3) (default [] recovered2))
    as [[[] resolved3]|].
Qed.

(** X19. The recheck of step 6 is the ladder of [fetch_lounge_image]
    followed by the canonicaliser: on a detail URL and for the same
    answers, [recheck_and_fix] returns the canonical form of the URL at
    which the candidates of [fetch_lounge_image] succeed, the empty text
    when they fail, and also when either raises. *)
Theorem recheck_and_fix_fetch_ladder
    (session_get : nat → str → result Response) (url : str) :
  is_lounge_detail_url url = Ok true →
  recheck_and_fix_try session_get url
  = ('(ok, resolved) ← fetch_resolve session_get url;
     if (ok : bool) then to_my_prioritypass_url resolved else Ok [])
  ∧ recheck_and_fix session_get url
    = match fetch_resolve session_get url with
      | Ok (true, resolved) =>
          match to_my_prioritypass_url resolved with
          | Ok fixed => fixed
          | Raise _ => []
          end
      | _ => []
      end.
Proof.
  intros Hd.
  assert (recheck_and_fix_try session_get url
          = ('(ok, resolved) ← fetch_resolve session_get url;
             if (ok : bool) then to_my_prioritypass_url resolved else Ok []))
    as Htry.
  { unfold recheck_and_fix_try, fetch_resolve. rewrite Hd, bind_Ok.
    cbn [negb]. cbv iota.
    destruct (check_url_ok (session_get 0) url) as [[[] resolved]|];
      [done| |done].
    rewrite !bind_Ok.
    destruct (try_recover_detail_url_from_redirect url resolved)
      as [recovered|]; [|done].
    rewrite !bind_Ok.
    destruct (truthy_opt recovered);
      [|by apply recheck_repaired_fetch].
    destruct (check_url_ok (session_get 1) (default [] recovered))
      as [[[] resolved_rec]|]; [done| |done].
    rewrite !bind_Ok. by apply recheck_repaired_fetch. }
  split; [done|]. unfold recheck_and_fix. rewrite Htry.
  by destruct (fetch_resolve session_get url) as [[[] resolved]|].
Qed.

End Ladders.

(** ** The two extraction passes *)

Lemma upper_char_not_dash (c : ascii) :
  Py.isupper (Py.upper_char c) = true → c ≠ "-"%char.
Proof.
  destruct c as [[] [] [] [] [] [] [] []]; vm_compute; by intros [=].
Qed.

(** The code of a slug is read off its first three characters, whether the
    slug is cut at the first hyphen or not. *)
Lemma match_iata_upper_slug (detail_slug : str) :
  Re.match_iata (Py.upper detail_slug) = iata_from_slug detail_slug.
Proof.
  unfold iata_from_slug, Re.match_iata.
  destruct (split_head_prefix detail_slug "-") as [t Ht].
  destruct detail_slug as [|a [|b [|c rest]]].
  - done.
  - simpl. by case_bool_decide.
  - simpl. repeat case_bool_decide; done.
  - unfold Re.upper3 at 1. cbn [Py.upper map].
    destruct (Py.isupper (Py.upper_char a) && Py.isupper (Py.upper_char b)
              && Py.isupper (Py.upper_char c)) eqn:Hup.
    + pose proof Hup as Hup'.
      apply andb_true_iff in Hup' as [[Ha Hb]%andb_true_iff Hc].
      rewrite !split_head_cons by by apply upper_char_not_dash.
      unfold Re.upper3. cbn [Py.upper map]. by rewrite Hup.
    + set (seg := default [] (head (Py.split (a :: b :: c :: rest) "-"))) in *.
      destruct seg as [|x [|y [|z seg]]]; try done.
      injection Ht as -> -> -> _. unfold Re.upper3. cbn [Py.upper map].
      by rewrite Hup.
Qed.

Section TwoPasses.
Context `{!UrlChecks}.

Lemma payload_item_fallback (ctx : PageContext) (m : PayloadMatch) :
  slug (ctx_country_slug ctx) → slug (ctx_airport_slug ctx) →
  slug (pm_slug m) → Py.strip (pm_name m) ≠ [] → pm_category m ≠ [] →
  ∃ code,
    payload_item ctx None m
    = Ok (Some (mkItem (ctx_airport_url ctx) (ctx_airport_slug ctx)
                  (ctx_country_slug ctx) (ctx_airport_name ctx) (ctx_title ctx)
                  (Py.upper (pm_category m)) (Py.strip (pm_name m))
                  (MY_PP_BASE ++ detail_path (ctx_country_slug ctx)
                                   (ctx_airport_slug ctx) (pm_slug m))
                  (pm_slug m) code (ctx_iata_from_title ctx)))
    ∧ (pm_code m = None → code = iata_from_slug (pm_slug m)).
Proof.
  intros Hc Ha Hs Hname Hcat. unfold payload_item. cbv zeta.
  rewrite (strip_no_space (pm_slug m)) by by apply slug_no_space.
  destruct (pm_category m) as [|x category]; [done|].
  destruct (Py.strip (pm_name m)) as [|y name]; [done|].
  destruct Hs as [Hne Hs']. destruct (pm_slug m) as [|z sl] eqn:Hslug; [done|].
  change (negb (Py.truthy (Py.upper (x :: category)))) with false.
  change (negb (Py.truthy (y :: name))) with false.
  change (negb (Py.truthy (z :: sl))) with false. cbn [orb]. cbv iota.
  rewrite to_my_prioritypass_url_listing_path, bind_Ok by done.
  eexists. split; [done|].
  intros ->. cbn [default]. change (Py.truthy (Py.upper (Py.strip []))) with false.
  cbv iota. cbn [truthy_opt negb]. rewrite match_iata_upper_slug.
  by destruct (iata_from_slug (z :: sl)).
Qed.

(** X20. The two extraction passes agree on a lounge, on ASCII text: for a
    page with slugs as country and airport, and a payload record with a
    slug, a name and a category, whose path the second search does not find
    in the page, the payload pass builds an item whose URL is the one that
    the anchor pass gives for the card link [<airport>/<slug>], whose detail
    slug is the one the anchor pass reads off that URL, and whose
    code-derived IATA, when the record has no code of its own, is the one
    the anchor pass derives; so an anchor item and a payload item of the
    same type for that link have the same key and the same URL. *)
Theorem payload_item_agrees (ctx : PageContext) (m : PayloadMatch) :
  ascii_slug (ctx_country_slug ctx) → ascii_slug (ctx_airport_slug ctx) →
  ascii_match m →
  slug (pm_slug m) → Py.strip (pm_name m) ≠ [] → pm_category m ≠ [] →
  ∃ it,
    payload_item ctx None m = Ok (Some it)
    ∧ experience_type it = Py.upper (pm_category m)
    ∧ experience_detail_url it
      = MY_PP_BASE ++ detail_path (ctx_country_slug ctx) (ctx_airport_slug ctx)
                        (pm_slug m)
    ∧ (pm_code m = None → iata_from_code it = iata_from_slug (pm_slug m))
    ∧ ∀ strings anchored,
        ascii_text strings →
        anchor_item ctx (ctx_airport_slug ctx ++ lit "/" ++ pm_slug m) strings
        = Ok (Some anchored) →
        experience_detail_url anchored = experience_detail_url it
        ∧ experience_detail_slug anchored = experience_detail_slug it
        ∧ (experience_type anchored = experience_type it →
           item_key anchored = item_key it).
Proof.
  intros [Hc _] [Ha _] _ Hs Hname Hcat.
  destruct (payload_item_fallback ctx m Hc Ha Hs Hname Hcat) as (code & -> & Hcode).
  eexists. split; [done|]. cbn [experience_type experience_detail_url
                                 experience_detail_slug iata_from_code].
  split_and!; try done.
  intros strings anchored _
    (item_type & item_name & detail_url & -> & _ & _ & _ & Hnorm)%anchor_item_inv.
  cbn [experience_type experience_detail_url experience_detail_slug].
  assert (Py.strip (ctx_airport_slug ctx ++ lit "/" ++ pm_slug m)
          = ctx_airport_slug ctx ++ lit "/" ++ pm_slug m) as Hstrip.
  { apply strip_no_space. rewrite !Forall_app.
    split_and!; [by apply slug_no_space|by repeat constructor
                |by apply slug_no_space]. }
  rewrite Hstrip in Hnorm.
  assert (normalize_lounge_detail_url (ctx_country_slug ctx)
            (ctx_airport_slug ctx ++ lit "/" ++ pm_slug m)
          = Ok (Some (MY_PP_BASE ++ detail_path (ctx_country_slug ctx)
                                      (ctx_airport_slug ctx) (pm_slug m))))
    as Hcard.
  { pose proof (slug_no_slash _ Ha) as Hsa. pose proof (slug_no_slash _ Hs) as Hss.
    destruct (card_link_no_scheme _ _ Hsa Hss) as [Hhttp Hhttps].
    assert (∃ x, head (ctx_airport_slug ctx) = Some x ∧ slug_char x)
      as (x & Hx & Hxs).
    { destruct Ha as [Hne Hall].
      destruct (ctx_airport_slug ctx) as [|x ?]; [done|].
      exists x. split; [done|]. by apply Forall_cons in Hall as [? _]. }
    assert (head (ctx_airport_slug ctx ++ lit "/" ++ pm_slug m) = Some x)
      as Hhead
      by (destruct (ctx_airport_slug ctx); [done|]; by injection Hx as ->).
    rewrite normalize_relative; try done.
    - rewrite to_my_prioritypass_url_listing_path, bind_Ok by done.
      unfold detail_or_none.
      by rewrite is_lounge_detail_url_detail_path.
    - by destruct Hc.
    - intros E. by rewrite E in Hhead.
    - eapply startswith_head_ne; [done|]. by destruct Hxs as ((_ & _ & ?) & _).
    - eapply startswith_head_ne; [done|]. by destruct Hxs as (_ & ? & _). }
  rewrite Hcard in Hnorm.
  assert (detail_url
          = MY_PP_BASE ++ detail_path (ctx_country_slug ctx)
                            (ctx_airport_slug ctx) (pm_slug m)) as ->
    by congruence.
  clear Hnorm.
  assert (detail_slug_of (MY_PP_BASE ++ detail_path (ctx_country_slug ctx)
                                          (ctx_airport_slug ctx) (pm_slug m))
          = pm_slug m) as Hslug.
  { unfold detail_path. rewrite !(assoc_L (++)).
    rewrite <-(assoc_L (++) _ (lit "/") (pm_slug m)).
    apply detail_slug_of_last; [by apply slug_no_slash|by destruct Hs]. }
  split_and!; [done|done|]. intros Ht. unfold item_key.
  cbn [experience_type experience_detail_slug]. by rewrite Ht, Hslug.
Qed.

End TwoPasses.

(** * Concrete runs *)

(** The inputs below have no bracket and no character above 127, so
    [urlsplit] consults none of the two given checks. *)

Lemma ascii_text_literal (s : str) :
  bool_decide (ascii_text s) = true → ascii_text s.
Proof. intros Hs. by apply bool_decide_eq_true in Hs. Defined.

Lemma ascii_slug_literal (s : str) :
  bool_decide (ascii_slug s) = true → ascii_slug s.
Proof. intros Hs. by apply bool_decide_eq_true in Hs. Defined.

(** ** C1 *)

(** C1, counterexample. A relative reference with a query is not a fixed
    point: the first pass keeps the query in the path, the second pass
    drops it. *)
Lemma to_my_prioritypass_url_not_idempotent :
  to_my_prioritypass_url (lit "a?b") = Ok (lit "https://my.prioritypass.com/a?b")
  ∧ to_my_prioritypass_url (lit "https://my.prioritypass.com/a?b")
    = Ok (lit "https://my.prioritypass.com/a")
  ∧ (to_my_prioritypass_url (lit "a?b") ≫= to_my_prioritypass_url)
    ≠ to_my_prioritypass_url (lit "a?b").
Proof. split_and!; [by vm_compute..|]. vm_compute. by intros [=]. Qed.

Lemma stable_url_canonical_club :
  stable_url (lit "https://my.prioritypass.com/en-GB/lounges/usa/atl/the-club").
Proof.
  split_and!.
  - apply (bool_decide_unpack _). vm_compute. exact I.
  - apply no_semicolon_no_params. apply (bool_decide_unpack _). vm_compute.
    exact I.
  - intros c [= <-]. reflexivity.
Defined.

(** C1, witness: the unprefixed path of a lounge *)
Lemma to_my_prioritypass_url_idempotent_witness :
  to_my_prioritypass_url (lit "/lounges/usa/atl/the-club")
  = Ok (lit "https://my.prioritypass.com/en-GB/lounges/usa/atl/the-club")
  ∧ to_my_prioritypass_url
      (lit "https://my.prioritypass.com/en-GB/lounges/usa/atl/the-club")
    = Ok (lit "https://my.prioritypass.com/en-GB/lounges/usa/atl/the-club").
Proof.
  split; [vm_compute; reflexivity|].
  refine (proj1 (proj1 to_my_prioritypass_url_idempotent
                   (lit "/lounges/usa/atl/the-club") _) _ _ _).
  - apply ascii_text_literal. vm_compute. reflexivity.
  - vm_compute. reflexivity.
  - exact stable_url_canonical_club.
Defined.

(** An authority with an unbalanced bracket makes [urlparse] raise, and the
    canonicaliser with it. *)
Example to_my_prioritypass_url_raises :
  to_my_prioritypass_url (lit "//[") = Raise ValueError.
Proof. by vm_compute. Qed.

(** The five shapes of input of the specification reach the same URL. *)
Example to_my_prioritypass_url_five_shapes :
  Forall (λ x, to_my_prioritypass_url x
               = Ok (lit "https://my.prioritypass.com/en-GB/lounges/usa/atl/the-club"))
    [lit "https://my.prioritypass.com/en-GB/lounges/usa/atl/the-club";
     lit "https://www.prioritypass.com/lounges/usa/atl/the-club";
     lit "/en-GB/lounges/usa/atl/the-club";
     lit "/lounges/usa/atl/the-club";
     lit "lounges/usa/atl/the-club"].
Proof. repeat constructor; by vm_compute. Qed.

(** ** C2 *)

(** C2, counterexample. An authority with an unbalanced bracket makes
    [urlparse] raise, and the function with it. *)
Lemma repair_duplicated_airport_segment_raises :
  repair_duplicated_airport_segment (lit "//[") = Raise ValueError.
Proof. by vm_compute. Qed.

(** C2, witness: a language-prefixed path with a duplicated airport *)
Lemma repair_duplicated_airport_segment_witness :
  repair_duplicated_airport_segment
    (lit "/en-GB/lounges/usa/wrong-airport/atl/the-club")
  = Ok (lit "https://my.prioritypass.com/en-GB/lounges/usa/atl/the-club").
Proof.
  pose (parsed := UrlLib.mkParseResult [] []
                    (lit "/en-GB/lounges/usa/wrong-airport/atl/the-club")
                    [] [] []).
  assert (UrlLib.urlparse (lit "/en-GB/lounges/usa/wrong-airport/atl/the-club")
          = Ok parsed) as Hparse by (vm_compute; reflexivity).
  destruct (proj1 repair_duplicated_airport_segment_spec _ _ Hparse)
    as (_ & _ & Hprefixed & _).
  destruct Hprefixed as (Hrepair & _).
  - vm_compute. lia.
  - split; vm_compute; reflexivity.
  - rewrite Hrepair. vm_compute. reflexivity.
Defined.

(** ** C3 *)

(** C3, counterexample. The original is a detail URL of 4 segments and the
    redirect lands on an airport page, yet nothing is recovered. *)
Lemma try_recover_none_on_airport_page :
  is_lounge_detail_url (lit "/lounges/usa/atl10/the-club-atl") = Ok true
  ∧ path_parts (lit "/en-GB/lounges/united-states-of-america/hartsfield-jackson-atlanta-international")
    = [lit "en-GB"; lit "lounges"; lit "united-states-of-america";
       lit "hartsfield-jackson-atlanta-international"]
  ∧ try_recover_detail_url_from_redirect
      (lit "/lounges/usa/atl10/the-club-atl")
      (lit "/en-GB/lounges/united-states-of-america/hartsfield-jackson-atlanta-international")
    = Ok None.
Proof. split_and!; by vm_compute. Qed.

Lemma slug_literal (s : string) :
  bool_decide (slug (lit s)) = true → slug (lit s).
Proof. intros Hs. by apply bool_decide_eq_true in Hs. Defined.

(** C3, witness: the example of the specification, an airport page *)
Lemma try_recover_detail_url_from_redirect_witness :
  try_recover_detail_url_from_redirect
    (lit "/en-GB/lounges/usa/atl10/the-club-atl")
    (lit "/en-GB/lounges/united-states-of-america/hartsfield-jackson-atlanta-international")
  = Ok (Some (MY_PP_BASE
              ++ detail_path (lit "united-states-of-america")
                   (lit "hartsfield-jackson-atlanta-international")
                   (lit "the-club-atl"))).
Proof.
  pose (o := UrlLib.mkParseResult [] []
               (lit "/en-GB/lounges/usa/atl10/the-club-atl") [] [] []).
  pose (r := UrlLib.mkParseResult [] []
               (lit "/en-GB/lounges/united-states-of-america/hartsfield-jackson-atlanta-international")
               [] [] []).
  refine (proj1 (proj1 try_recover_detail_url_from_redirect_spec
                   _ _ o r (lit "the-club-atl") (lit "atl10") _ _ _ _ _)
            _ _ _ _ _ _ _ _ _).
  - vm_compute. reflexivity.
  - vm_compute. reflexivity.
  - vm_compute. lia.
  - vm_compute. reflexivity.
  - vm_compute. reflexivity.
  - vm_compute. lia.
  - split; vm_compute; reflexivity.
  - vm_compute. reflexivity.
  - vm_compute. reflexivity.
  - apply ascii_slug_literal. vm_compute. reflexivity.
  - apply ascii_slug_literal. vm_compute. reflexivity.
  - apply ascii_slug_literal. vm_compute. reflexivity.
Defined.

(** ** C4 *)

(** C4, witness: the four paths of one lounge *)
Lemma is_lounge_detail_url_witness :
  is_lounge_detail_url (lit "/lounges/usa/atl") = Ok false
  ∧ is_lounge_detail_url (lit "/lounges/usa/atl/the-club") = Ok true
  ∧ is_lounge_detail_url (lit "/en-GB/lounges/usa/atl") = Ok false
  ∧ is_lounge_detail_url (lit "/en-GB/lounges/usa/atl/the-club") = Ok true.
Proof.
  apply (proj2 is_lounge_detail_url_spec (lit "usa") (lit "atl") (lit "the-club"));
    apply slug_literal; vm_compute; reflexivity.
Defined.

(** ** C7 *)

(** C7, counterexample. The body says [Page not found] and also has the word
    [lounge]: the script gives not-ok, the specification's condition does
    not hold. *)
Lemma check_url_ok_page_not_found_with_lounge :
  check_url_ok (serve not_found_body) club_url = Ok (false, club_url)
  ∧ is_lounge_detail_url club_url = Ok true
  ∧ spec_not_ok true 200 (Py.lower (take 2500 (lit not_found_body))) = false.
Proof. split_and!; by vm_compute. Qed.

(** C7, witness: a page that answers 200 with a lounge description *)
Lemma check_url_ok_witness :
  check_url_ok (serve "<title>The Club ATL</title>") club_url
  = Ok (true, club_url).
Proof.
  destruct (proj2 (check_url_ok_spec (serve "<title>The Club ATL</title>")
                     club_url)
              (mkResponse club_url 200 (lit "<title>The Club ATL</title>")) true)
    as (ok & Hcheck & Hok).
  - vm_compute. reflexivity.
  - reflexivity.
  - vm_compute. reflexivity.
  - rewrite Hcheck. destruct ok; [reflexivity|].
    exfalso. destruct (proj1 Hok eq_refl) as [Hf|[Hf|[Hf|[Hf _]]]].
    + discriminate Hf.
    + vm_compute in Hf. by apply Hf.
    + vm_compute in Hf. discriminate Hf.
    + vm_compute in Hf. discriminate Hf.
Defined.

(** ** C10 *)

(** C10, counterexample. An original that is not language-prefixed is
    recovered when it has 5 segments. *)
Lemma try_recover_unprefixed_original :
  path_parts (lit "/lounges/usa/terminal-s/atl/the-club")
  = [lit "lounges"; lit "usa"; lit "terminal-s"; lit "atl"; lit "the-club"]
  ∧ try_recover_detail_url_from_redirect
      (lit "/lounges/usa/terminal-s/atl/the-club")
      (lit "/en-GB/lounges/united-states-of-america/atlanta")
    = Ok (Some (lit "https://my.prioritypass.com/en-GB/lounges/united-states-of-america/atlanta/the-club")).
Proof. split; by vm_compute. Qed.

(** C10, witness: an unprefixed detail URL of 4 segments *)
Lemma try_recover_length_gate_witness :
  try_recover_detail_url_from_redirect
    (lit "/lounges/usa/atl/the-club")
    (lit "/en-GB/lounges/united-states-of-america/atlanta")
  = Ok None.
Proof.
  apply (proj1 try_recover_length_gate _ _
           (UrlLib.mkParseResult [] [] (lit "/lounges/usa/atl/the-club") [] [] [])
           (UrlLib.mkParseResult [] []
              (lit "/en-GB/lounges/united-states-of-america/atlanta") [] [] [])).
  - vm_compute. reflexivity.
  - vm_compute. reflexivity.
  - vm_compute. lia.
Defined.

(** ** C5 *)

(** Two lounges found by the anchor pass, one of them again and a third one
    found in the embedded payload: three records, the anchor one kept. *)
Example merge_extracted_three_lounges :
  (merge_extracted
     [atl_lounge "The Club" "atl1-the-club" (Some "ATL");
      atl_lounge "Minute Suites" "atl2-minute-suites" (Some "ATL")]
     [atl_lounge "The Club (payload)" "atl1-the-club" (Some "ATL");
      atl_lounge "Delta Sky" "atl3-delta-sky" (Some "ATL")]).1
  = [atl_lounge "The Club" "atl1-the-club" (Some "ATL");
     atl_lounge "Minute Suites" "atl2-minute-suites" (Some "ATL");
     atl_lounge "Delta Sky" "atl3-delta-sky" (Some "ATL")].
Proof. by vm_compute. Qed.

(** ** C6 *)

Example build_map_df_sample :
  build_map_df [atlanta; no_latitude; no_lounge] sample_rows
  = [mkEnriched atlanta (Some 2)].
Proof. by vm_compute. Qed.

(** C6, witness: an airport with a lounge and without latitude *)
Lemma build_map_df_witness :
  mkEnriched no_latitude (Some 1)
  ∉ build_map_df [atlanta; no_latitude; no_lounge] sample_rows.
Proof.
  apply (proj2 (proj2 (proj2 (proj2 build_map_df_spec)))).
  left. reflexivity.
Defined.

(** ** C8 *)

(** C8, counterexample. The first lounge item has no code-derived IATA and
    the second has one: the script takes it, the specification's wording
    gives nothing.  A title with a word of three small letters and no lounge
    item: the script takes the word in upper case, the specification's
    wording gives nothing. *)
Lemma airport_iata_not_as_specified :
  airport_iata_of [lounge_without_code; lounge_with_code] (lit "")
  = Some (lit "LHR")
  ∧ spec_airport_iata [lounge_without_code; lounge_with_code] (lit "") = None
  ∧ airport_iata_of [] (lit "The airport") = Some (lit "THE")
  ∧ spec_airport_iata [] (lit "The airport") = None.
Proof. split_and!; by vm_compute. Qed.

(** C8, witness: a title with a word that comes twice *)
Lemma pick_airport_iata_spec_witness :
  pick_airport_iata [lounge_without_code] None (lit "SFO lounges at SFO, gate 12")
  = Some (lit "SFO")
  ∧ extract_iata_candidates (lit "SFO lounges at SFO, gate 12") = [lit "SFO"].
Proof.
  destruct (pick_airport_iata_spec [lounge_without_code] None
              (lit "SFO lounges at SFO, gate 12"))
    as (Hpick & _ & Htokens & _).
  { apply ascii_text_literal. vm_compute. reflexivity. }
  split.
  - rewrite Hpick. vm_compute. reflexivity.
  - rewrite Htokens. vm_compute. reflexivity.
Defined.

(** The marker [SFO Lounges] of a title is not found, and the first word of
    three letters wins. *)
Example airport_iata_title_marker_lost :
  title_marker_iata (lit "The SFO Lounges") = None
  ∧ airport_iata_of [] (lit "The SFO Lounges") = Some (lit "THE").
Proof. split; by vm_compute. Qed.

(** ** C9 *)

(** One page fails and one page has a lounge: the run goes on with a
    placeholder row for the first.  All pages fail: the run stops. *)
Example scrape_airport_pages_sample :
  scrape_airport_pages
    [(lit "https://www.prioritypass.com/lounges/usa/savannah",
      Raise RequestException);
     (lit "https://www.prioritypass.com/lounges/usa/atlanta", Ok atlanta_page)]
  = Ok ([placeholder_summary
           (lit "https://www.prioritypass.com/lounges/usa/savannah")
           RequestException;
         summary_of_page atlanta_page],
        [atl_lounge "The Club" "atl1-the-club" (Some "ATL")])
  ∧ scrape_airport_pages
      [(lit "https://www.prioritypass.com/lounges/usa/savannah",
        Raise RequestException)]
    = Raise (RuntimeError "No lounge records found. Scraper output is empty.").
Proof. split; by vm_compute. Qed.

(** ** Further properties *)

(** X1, witness: a bare listing path *)
Lemma to_my_prioritypass_url_host_witness :
  (Py.strip (lit "lounges/usa/atl/the-club") = [] ∧ club_url = [])
  ∨ (Py.strip (lit "lounges/usa/atl/the-club") ≠ []
     ∧ ∃ p, club_url = MY_PP_BASE ++ p ∧ head p = Some "/"%char
            ∧ Py.startswith p (lit "/lounges/") = false).
Proof.
  apply (to_my_prioritypass_url_host (lit "lounges/usa/atl/the-club") club_url).
  - apply ascii_text_literal. vm_compute. reflexivity.
  - vm_compute. reflexivity.
Defined.

Lemma absolute_url_public_club :
  absolute_url (lit "https://www.prioritypass.com/lounges/usa/atl/the-club").
Proof.
  split; [apply ascii_text_literal; vm_compute; reflexivity|].
  split; [vm_compute; reflexivity|]. eexists. split_and!.
  - vm_compute. reflexivity.
  - discriminate.
  - apply (bool_decide_unpack _). vm_compute. exact I.
Defined.

(** X2, witness: the page of a lounge on the public site *)
Lemma to_my_prioritypass_url_keeps_detail_witness :
  ∃ parsed p,
    UrlLib.urlparse (lit "https://www.prioritypass.com/lounges/usa/atl/the-club")
    = Ok parsed
    ∧ p = (if Py.startswith (UrlLib.path parsed) (lit "/lounges/")
           then MY_PP_LANG_PREFIX ++ UrlLib.path parsed else UrlLib.path parsed)
    ∧ to_my_prioritypass_url
        (lit "https://www.prioritypass.com/lounges/usa/atl/the-club")
      = Ok (MY_PP_BASE ++ p)
    ∧ is_lounge_detail_url (MY_PP_BASE ++ p) = Ok true.
Proof.
  apply (to_my_prioritypass_url_keeps_detail
           (lit "https://www.prioritypass.com/lounges/usa/atl/the-club")).
  - exact absolute_url_public_club.
  - vm_compute. reflexivity.
Defined.

Lemma plain_literal (s : string) :
  bool_decide (Forall plain_char (lit s)) = true → Forall plain_char (lit s).
Proof. intros Hs. by apply bool_decide_eq_true in Hs. Defined.

(** X3, witness: a path with white space around it *)
Lemma url_functions_accept_plain_text_witness :
  (∃ y, to_my_prioritypass_url (lit " /lounges/usa/atl/the-club ") = Ok y
        ∧ Forall plain_char y)
  ∧ (∃ b, is_lounge_detail_url (lit " /lounges/usa/atl/the-club ") = Ok b)
  ∧ (∃ y, repair_duplicated_airport_segment
            (lit " /lounges/usa/atl/the-club ") = Ok y).
Proof.
  apply (url_functions_accept_plain_text (lit " /lounges/usa/atl/the-club ")).
  apply plain_literal. vm_compute. reflexivity.
Defined.

(** X4, witness: an anchor with white space around it, and a redirect with
    a query *)
Lemma normalize_and_recover_accept_plain_text_witness :
  (∃ r, normalize_lounge_detail_url (lit "usa") (lit " atl/the-club ") = Ok r)
  ∧ (∃ r, try_recover_detail_url_from_redirect
            (lit "/en-GB/lounges/usa/atl10/the-club-atl")
            (lit "/en-GB/lounges/united-states-of-america?fromLounge=1")
          = Ok r).
Proof.
  destruct normalize_and_recover_accept_plain_text as (Hnorm & Hrec). split.
  - apply Hnorm; apply plain_literal; vm_compute; reflexivity.
  - apply Hrec; apply plain_literal; vm_compute; reflexivity.
Defined.

(** X5, witness: a card link with white space around it *)
Lemma normalize_lounge_detail_url_sound_witness :
  is_lounge_detail_url club_url = Ok true
  ∧ (∃ p, club_url = MY_PP_BASE ++ p ∧ head p = Some "/"%char
          ∧ Py.startswith p (lit "/lounges/") = false)
  ∧ Py.strip (lit " atl/the-club ") ≠ []
  ∧ Py.startswith (Py.strip (lit " atl/the-club ")) (lit "#") = false
  ∧ (to_my_prioritypass_url (Py.strip (lit " atl/the-club ")) = Ok club_url
     ∨ (lit "usa" ≠ []
        ∧ Py.startswith (Py.strip (lit " atl/the-club ")) (lit "/") = false
        ∧ to_my_prioritypass_url
            (lit "/lounges/" ++ lit "usa" ++ lit "/"
               ++ Py.lstrip_chars (lit "/") (Py.strip (lit " atl/the-club ")))
          = Ok club_url)).
Proof.
  apply (normalize_lounge_detail_url_sound (lit "usa") (lit " atl/the-club ")).
  - apply ascii_text_literal. vm_compute. reflexivity.
  - apply ascii_text_literal. vm_compute. reflexivity.
  - vm_compute. reflexivity.
Defined.

(** X6, witness: the three links to The Club *)
Lemma normalize_lounge_detail_url_card_link_witness :
  normalize_lounge_detail_url (lit "usa") (lit "atl/the-club") = Ok (Some club_url)
  ∧ (∀ page_country,
       normalize_lounge_detail_url page_country (lit "/lounges/usa/atl/the-club")
       = Ok (Some club_url)
       ∧ normalize_lounge_detail_url page_country
           (lit "https://www.prioritypass.com/lounges/usa/atl/the-club")
         = Ok (Some club_url))
  ∧ normalize_lounge_detail_url (lit "usa") (lit "the-club") = Ok None
  ∧ normalize_lounge_detail_url [] (lit "atl/the-club") = Ok None.
Proof.
  apply (normalize_lounge_detail_url_card_link (lit "usa") (lit "atl")
           (lit "the-club"));
    apply ascii_slug_literal; vm_compute; reflexivity.
Defined.

(** X7, witness: the redirect to a country page *)
Lemma try_recover_detail_url_from_redirect_sound_witness :
  is_lounge_detail_url
    (lit "https://my.prioritypass.com/en-GB/lounges/united-states-of-america/atl10/the-club-atl")
  = Ok true
  ∧ ∃ o r country airport detail,
      UrlLib.urlparse (lit "/en-GB/lounges/usa/atl10/the-club-atl") = Ok o
      ∧ UrlLib.urlparse
          (lit "/en-GB/lounges/united-states-of-america?fromLounge=1") = Ok r
      ∧ 5 ≤ length (path_parts (UrlLib.path o))
      ∧ last (path_parts (UrlLib.path o)) = Some detail
      ∧ 3 ≤ length (path_parts (UrlLib.path r))
      ∧ prefixed (path_parts (UrlLib.path r))
      ∧ path_parts (UrlLib.path r) !! 2 = Some country
      ∧ (path_parts (UrlLib.path r) !! 3 = Some airport
         ∨ (length (path_parts (UrlLib.path r)) = 3
            ∧ path_parts (UrlLib.path o)
              !! (length (path_parts (UrlLib.path o)) - 2) = Some airport))
      ∧ lit "https://my.prioritypass.com/en-GB/lounges/united-states-of-america/atl10/the-club-atl"
        = MY_PP_BASE ++ Py.strip (detail_path country airport detail).
Proof.
  apply (try_recover_detail_url_from_redirect_sound
           (lit "/en-GB/lounges/usa/atl10/the-club-atl")
           (lit "/en-GB/lounges/united-states-of-america?fromLounge=1")).
  - apply ascii_text_literal. vm_compute. reflexivity.
  - apply ascii_text_literal. vm_compute. reflexivity.
  - vm_compute. reflexivity.
Defined.

(** X8, witness: a link that answers *)
Lemma recheck_and_fix_sound_witness :
  is_lounge_detail_url club_url = Ok true
  ∧ ∃ k candidate response,
      k < 4
      ∧ recheck_candidate (serve_all "<title>The Club ATL</title>") club_url k
          candidate
      ∧ is_lounge_detail_url candidate = Ok true
      ∧ serve_all "<title>The Club ATL</title>" k candidate = Ok response
      ∧ is_lounge_detail_url (resp_url response) = Ok true
      ∧ (status_code response < 400)%Z
      ∧ Py.contains (html_head response) (lit "page not found") = false
      ∧ to_my_prioritypass_url (resp_url response)
        = Ok (recheck_and_fix (serve_all "<title>The Club ATL</title>") club_url).
Proof.
  apply (recheck_and_fix_sound (serve_all "<title>The Club ATL</title>")
           club_url).
  vm_compute. discriminate.
Defined.

(** X9, witness: a link of the public site that ends at the page of The
    Club *)
Lemma recheck_and_fix_detail_witness :
  is_lounge_detail_url
    (recheck_and_fix club_session
       (lit "https://www.prioritypass.com/lounges/usa/atl/the-club")) = Ok true
  ∧ ∃ p, recheck_and_fix club_session
           (lit "https://www.prioritypass.com/lounges/usa/atl/the-club")
         = MY_PP_BASE ++ p
         ∧ head p = Some "/"%char
         ∧ Py.startswith p (lit "/lounges/") = false.
Proof.
  apply (recheck_and_fix_detail club_session
           (lit "https://www.prioritypass.com/lounges/usa/atl/the-club")).
  - apply ascii_text_literal. vm_compute. reflexivity.
  - intros k u response [= <-].
    split; [apply ascii_text_literal; vm_compute; reflexivity|].
    split; [vm_compute; reflexivity|]. eexists. split_and!.
    + vm_compute. reflexivity.
    + discriminate.
    + apply (bool_decide_unpack _). vm_compute. exact I.
  - vm_compute. discriminate.
Defined.

(** X10, witness: an old link that ends at the page of The Club *)
Lemma recheck_and_fix_live_witness :
  recheck_and_fix club_session (lit "/lounges/usa/terminal-s/atl/the-club")
  = MY_PP_BASE ++ detail_path (lit "usa") (lit "atl") (lit "the-club").
Proof.
  apply (recheck_and_fix_live club_session
           (lit "/lounges/usa/terminal-s/atl/the-club")
           (mkResponse club_url 200 (lit "<title>The Club ATL</title>"))).
  - apply ascii_slug_literal. vm_compute. reflexivity.
  - apply ascii_slug_literal. vm_compute. reflexivity.
  - apply ascii_slug_literal. vm_compute. reflexivity.
  - vm_compute. reflexivity.
  - reflexivity.
  - vm_compute. reflexivity.
  - vm_compute. reflexivity.
Defined.

(** X11, witness: a lounge with a code and a lounge without *)
Lemma lounge_table_spec_witness :
  sublist [the_club] [the_club; lounge_without_code]
  ∧ ∀ row, row ∈ [mkLoungeRow the_club (lit "ATL")]
           ↔ row_item row ∈ [the_club; lounge_without_code]
             ∧ experience_type (row_item row) = LOUNGE
             ∧ row_iata_code row = lounge_iata_code (row_item row)
             ∧ well_formed_iata (row_iata_code row)
             ∧ is_lounge_detail_url (url_of row) = Ok true.
Proof.
  apply (proj1 (lounge_table_spec [the_club; lounge_without_code])
           [mkLoungeRow the_club (lit "ATL")]).
  vm_compute. reflexivity.
Defined.

(** X12, witness: the first lounge of Atlanta, whose link answers *)
Lemma recheck_rows_spec_witness :
  mkLoungeRow the_club (lit "ATL")
  ∈ recheck_rows (λ _, serve_all "<title>The Club ATL</title>")
      (build_map_df [atlanta; no_latitude; no_lounge] sample_rows) sample_rows.
Proof.
  apply (recheck_rows_spec (λ _, serve_all "<title>The Club ATL</title>")).
  exists (mkLoungeRow the_club (lit "ATL")). split_and!.
  - left.
  - exists (mkLoungeRow the_club (lit "ATL")). split_and!.
    + left.
    + apply (bool_decide_unpack _). vm_compute. exact I.
    + reflexivity.
  - vm_compute. discriminate.
  - vm_compute. reflexivity.
Defined.

(** X13, witness: Atlanta keeps its pin and its two lounges *)
Lemma map_after_recheck_spec_witness :
  mkEnriched atlanta (Some 2)
  ∈ map_after_recheck (λ _, serve_all "<title>The Club ATL</title>")
      [atlanta; no_latitude; no_lounge] sample_rows.
Proof.
  apply (map_after_recheck_spec (λ _, serve_all "<title>The Club ATL</title>")).
  split_and!.
  - left.
  - vm_compute. eexists. reflexivity.
  - vm_compute. eexists. reflexivity.
  - vm_compute. lia.
  - vm_compute. reflexivity.
  - apply (bool_decide_unpack _). vm_compute. exact I.
Defined.

(** X15, witness: the link to the page of Atlanta *)
Lemma is_airport_href_spec_witness :
  is_airport_href (lit "/lounges/usa/atlanta") = true.
Proof.
  apply (is_airport_href_spec (lit "/lounges/usa/atlanta")).
  exists (lit "usa"), (lit "atlanta"). split_and!.
  - reflexivity.
  - apply (bool_decide_unpack _). vm_compute. exact I.
  - apply (bool_decide_unpack _). vm_compute. exact I.
  - discriminate.
Defined.


(** X17, witness: the slug of a lounge of Atlanta *)
Lemma detail_slug_and_code_witness :
  detail_slug_of (lit "https://my.prioritypass.com/en-GB/lounges/usa/atlanta"
                    ++ lit "/" ++ lit "atl1-the-club")
  = lit "atl1-the-club"
  ∧ iata_from_slug (lit "atl1-the-club") = Some (lit "ATL").
Proof.
  destruct detail_slug_and_code as (Hslug & _ & Hcode). split.
  - apply Hslug.
    + apply (bool_decide_unpack _). vm_compute. exact I.
    + discriminate.
  - apply (Hcode "a" "t" "l" (lit "1-the-club"))%char; vm_compute; reflexivity.
Defined.

(** X18, witness: the card of The Club on the page of Atlanta *)
Lemma anchor_item_sound_witness :
  experience_type the_club ∈ EXPERIENCE_TYPES
  ∧ Py.upper <$> Py.split_first_word (Py.strip (lit "Lounge The Club")) !! 0
    = Some (experience_type the_club)
  ∧ experience_name the_club ≠ []
  ∧ normalize_lounge_detail_url (ctx_country_slug atlanta_ctx)
      (Py.strip (lit "atlanta/atl1-the-club"))
    = Ok (Some (experience_detail_url the_club))
  ∧ is_lounge_detail_url (experience_detail_url the_club) = Ok true
  ∧ (∃ p, experience_detail_url the_club = MY_PP_BASE ++ p
          ∧ head p = Some "/"%char)
  ∧ experience_detail_slug the_club
    = detail_slug_of (experience_detail_url the_club)
  ∧ iata_from_code the_club = iata_from_slug (experience_detail_slug the_club)
  ∧ (∀ code, iata_from_code the_club = Some code →
             well_formed_iata code ∧ lounge_iata_code the_club = code)
  ∧ (airport_url the_club, airport_slug the_club, country_slug the_club,
     airport_name_pp the_club, airport_title the_club, iata_from_title the_club)
    = (ctx_airport_url atlanta_ctx, ctx_airport_slug atlanta_ctx,
       ctx_country_slug atlanta_ctx, ctx_airport_name atlanta_ctx,
       ctx_title atlanta_ctx, ctx_iata_from_title atlanta_ctx).
Proof.
  apply (anchor_item_sound atlanta_ctx (lit "atlanta/atl1-the-club")
           (lit "Lounge The Club") the_club).
  - apply ascii_text_literal. vm_compute. reflexivity.
  - apply ascii_text_literal. vm_compute. reflexivity.
  - apply ascii_text_literal. vm_compute. reflexivity.
  - vm_compute. reflexivity.
Defined.

(** X19, witness: an old link that ends at the page of The Club *)
Lemma recheck_and_fix_fetch_ladder_witness :
  recheck_and_fix_try club_session (lit "/lounges/usa/terminal-s/atl/the-club")
  = ('(ok, resolved) ←
       fetch_resolve club_session (lit "/lounges/usa/terminal-s/atl/the-club");
     if (ok : bool) then to_my_prioritypass_url resolved else Ok [])
  ∧ recheck_and_fix club_session (lit "/lounges/usa/terminal-s/atl/the-club")
    = match fetch_resolve club_session
              (lit "/lounges/usa/terminal-s/atl/the-club") with
      | Ok (true, resolved) =>
          match to_my_prioritypass_url resolved with
          | Ok fixed => fixed
          | Raise _ => []
          end
      | _ => []
      end.
Proof.
  apply (recheck_and_fix_fetch_ladder club_session
           (lit "/lounges/usa/terminal-s/atl/the-club")).
  vm_compute. reflexivity.
Defined.

(** X20, witness: The Club in the payload of the page of Atlanta *)
Lemma payload_item_agrees_witness :
  ∃ it,
    payload_item atlanta_ctx None club_payload = Ok (Some it)
    ∧ experience_type it = Py.upper (pm_category club_payload)
    ∧ experience_detail_url it
      = MY_PP_BASE ++ detail_path (ctx_country_slug atlanta_ctx)
                        (ctx_airport_slug atlanta_ctx) (pm_slug club_payload)
    ∧ (pm_code club_payload = None →
       iata_from_code it = iata_from_slug (pm_slug club_payload))
    ∧ ∀ strings anchored,
        ascii_text strings →
        anchor_item atlanta_ctx
          (ctx_airport_slug atlanta_ctx ++ lit "/" ++ pm_slug club_payload)
          strings
        = Ok (Some anchored) →
        experience_detail_url anchored = experience_detail_url it
        ∧ experience_detail_slug anchored = experience_detail_slug it
        ∧ (experience_type anchored = experience_type it →
           item_key anchored = item_key it).
Proof.
  apply (payload_item_agrees atlanta_ctx club_payload).
  - apply ascii_slug_literal. vm_compute. reflexivity.
  - apply ascii_slug_literal. vm_compute. reflexivity.
  - apply (bool_decide_unpack _). vm_compute. exact I.
  - apply (slug_literal "atl1-the-club"). vm_compute. reflexivity.
  - vm_compute. discriminate.
  - discriminate.
Defined.
